(** * Scraping pipeline of the Web-Scraping-Python-Project scripts

    A shallow embedding of the fetch / select / normalise / reconcile /
    deduplicate code of [task1_dawn.py], [task2_PSX.py], [task4_Daraz.py]
    and [task5_GoodReads.py], and the properties stated about it.

    Conventions of the embedding.
    - A Python [str] is a Rocq [string]; a character stands for the code
      point of the same number, so the strings modelled are those whose code
      points are below 256.  On these, [\d] is [0-9], and [\s], [str.strip]
      and [str.isspace] agree on the twelve characters of [is_space].
    - A Python [float] is a binary64 value, [spec_float] with precision 53
      and maximal exponent 1024; [float(s)] rounds the decimal it reads to the
      nearest binary64, ties to even, and overflows to an infinity.
    - A Python [int] is a [Z].
    - Code that may raise returns an [outcome]; [try]/[except] is
      [try_except]. *)

From Stdlib Require Import ZArith NArith List String Ascii Bool Lia QArith Qabs.
From Stdlib Require Import SpecFloat DecimalString.
Import ListNotations.

Local Open Scope string_scope.
Local Open Scope Z_scope.

(** ** Exceptions and outcomes *)

(** The subclasses of [requests.RequestException] a GET can end in. *)
Inductive request_error : Type :=
| HTTPError (status : Z)
| ConnectionError
| Timeout.

(** The two [RuntimeError]s of the scripts, by their message. *)
Inductive runtime_msg : Type :=
| FailedToFetch (url : string) (last_err : option request_error)
| NoIndicesTable.

Inductive exn : Type :=
| ValueError
| TypeError
| OverflowError
| RequestException (e : request_error)
| RuntimeError (msg : runtime_msg).

Inductive outcome (A : Type) : Type :=
| Return (a : A)
| Raise (e : exn).

Arguments Return {A} a.
Arguments Raise {A} e.

Definition bind {A B : Type} (m : outcome A) (f : A -> outcome B) : outcome B :=
  match m with
  | Return a => f a
  | Raise e => Raise e
  end.

(** [try: body / except Exception as e: handler e]; every [exn] above is a
    subclass of [Exception]. *)
Definition try_except {A : Type} (body : outcome A) (handler : exn -> outcome A)
  : outcome A :=
  match body with
  | Return a => Return a
  | Raise e => handler e
  end.

Definition returns {A : Type} (m : outcome A) : bool :=
  match m with Return _ => true | Raise _ => false end.

(** ** Characters and strings *)

Module Str.

Definition code (c : ascii) : N := N_of_ascii c.

Definition in_range (lo hi : N) (c : ascii) : bool :=
  ((lo <=? code c) && (code c <=? hi))%N.

Definition is_digit (c : ascii) : bool := in_range 48 57 c.

(** [str.isspace] / [\s] on code points below 256. *)
Definition is_space (c : ascii) : bool :=
  in_range 9 13 c || in_range 28 32 c
  || (code c =? 133)%N || (code c =? 160)%N.

(** [str.lower] on one code point below 256: A-Z and the Latin-1 capitals
    (U+00C0..U+00DE but the multiplication sign) move up by 32. *)
Definition lower_char (c : ascii) : ascii :=
  if in_range 65 90 c || (in_range 192 222 c && negb (code c =? 215)%N)
  then ascii_of_N (code c + 32)
  else c.

Fixpoint map (f : ascii -> ascii) (s : string) : string :=
  match s with
  | EmptyString => EmptyString
  | String c s' => String (f c) (map f s')
  end.

Definition lower (s : string) : string := map lower_char s.

Fixpoint filter (p : ascii -> bool) (s : string) : string :=
  match s with
  | EmptyString => EmptyString
  | String c s' => if p c then String c (filter p s') else filter p s'
  end.

Fixpoint forallb (p : ascii -> bool) (s : string) : bool :=
  match s with
  | EmptyString => true
  | String c s' => p c && forallb p s'
  end.

Fixpoint lstrip (s : string) : string :=
  match s with
  | EmptyString => EmptyString
  | String c s' => if is_space c then lstrip s' else s
  end.

Fixpoint rstrip (s : string) : string :=
  match s with
  | EmptyString => EmptyString
  | String c s' =>
      match rstrip s' with
      | EmptyString => if is_space c then EmptyString else String c EmptyString
      | t => String c t
      end
  end.

(** [s.strip()] *)
Definition strip (s : string) : string := rstrip (lstrip s).

(** [s.startswith(p)] *)
Definition startswith (p s : string) : bool := prefix p s.

(** [sub in s] *)
Fixpoint contains (sub s : string) : bool :=
  prefix sub s ||
  match s with
  | EmptyString => false
  | String _ s' => contains sub s'
  end.

(** [s.replace(old, new)] for a non-empty [old]: left to right, occurrences
    do not overlap.  [skip] counts the characters of the occurrence just
    replaced that are still to be passed over. *)
Fixpoint replace_from (old new : string) (skip : nat) (s : string) : string :=
  match s with
  | EmptyString => EmptyString
  | String c s' =>
      match skip with
      | S k => replace_from old new k s'
      | O =>
          if prefix old s
          then new ++ replace_from old new (Nat.pred (length old)) s'
          else String c (replace_from old new O s')
      end
  end.

Definition replace (old new s : string) : string := replace_from old new O s.

(** [s1 in (t1, t2, ...)] *)
Definition among (s : string) (l : list string) : bool :=
  existsb (String.eqb s) l.

(** [sep.join(l)] *)
Fixpoint join (sep : string) (l : list string) : string :=
  match l with
  | [] => ""
  | [x] => x
  | x :: l' => x ++ sep ++ join sep l'
  end.

End Str.

(** ** Regular expressions: the backtracking matcher of [re]

    Only the constructs the patterns of the scripts use.  Alternation tries
    the left branch first, [?] and [*] are greedy, and the first complete
    match in that order is the match, as in Python's [re]. *)

Module Re.

Inductive regex : Type :=
| Eps
| Cls (p : ascii -> bool)   (* one character of a class *)
| Cat (r1 r2 : regex)
| Alt (r1 r2 : regex)       (* r1|r2 *)
| Opt (r : regex)           (* r? *)
| Star (r : regex)          (* r* *)
| Grp (r : regex).          (* (r), the group 1 of the pattern *)

Definition Plus (r : regex) : regex := Cat r (Star r).   (* r+ *)
Definition Chr (c : ascii) : regex := Cls (Ascii.eqb c).
Definition digit : regex := Cls Str.is_digit.            (* \d *)
Definition space : regex := Cls Str.is_space.            (* \s *)

Definition cont (A : Type) : Type := string -> option string -> option A.

(** The greedy loop of [*]: one more iteration of [body] if it consumes
    input and the rest then matches, else leave the loop.  At most [n]
    iterations. *)
Fixpoint star_loop {A : Type} (body : string -> option string -> cont A -> option A)
  (k : cont A) (n : nat) (s : string) (g : option string) {struct n} : option A :=
  match n with
  | O => k s g
  | S n' =>
      match body s g
              (fun s1 g1 =>
                 if (length s1 <? length s)%nat then star_loop body k n' s1 g1
                 else None)
      with
      | Some a => Some a
      | None => k s g
      end
  end.

(** [run r fuel s g k]: match [r] at the head of [s], group 1 being [g] so
    far, then hand the rest of the input and the group to [k]; if [k]
    refuses, backtrack.  An iteration of [*] must consume input, so
    [length s] iterations are enough: [fuel] is the length of the subject. *)
Fixpoint run {A : Type} (r : regex) (fuel : nat) (s : string) (g : option string)
  (k : cont A) {struct r} : option A :=
  match r with
  | Eps => k s g
  | Cls p =>
      match s with
      | String c s' => if p c then k s' g else None
      | EmptyString => None
      end
  | Cat r1 r2 => run r1 fuel s g (fun s1 g1 => run r2 fuel s1 g1 k)
  | Alt r1 r2 =>
      match run r1 fuel s g k with
      | Some a => Some a
      | None => run r2 fuel s g k
      end
  | Opt r1 =>
      match run r1 fuel s g k with
      | Some a => Some a
      | None => k s g
      end
  | Star r1 => star_loop (run r1 fuel) k fuel s g
  | Grp r1 =>
      run r1 fuel s g
        (fun s1 _ => k s1 (Some (substring 0 (length s - length s1) s)))
  end.

(** A match: the text before it, the text matched ([group(0)]), group 1 and
    the text after it. *)
Record rmatch : Type := MkMatch {
  m_before : string;
  m_text : string;
  m_group1 : option string;
  m_after : string
}.

(** [re.match]: at the head of [s] only. *)
Definition match_here (r : regex) (s : string) : option rmatch :=
  run r (length s) s None
    (fun s' g =>
       Some (MkMatch "" (substring 0 (length s - length s') s) g s')).

(** [re.search]: the leftmost position where a match exists. *)
Fixpoint search (r : regex) (s : string) : option rmatch :=
  match match_here r s with
  | Some m => Some m
  | None =>
      match s with
      | EmptyString => None
      | String c s' =>
          match search r s' with
          | Some m => Some (MkMatch (String c (m_before m)) (m_text m)
                              (m_group1 m) (m_after m))
          | None => None
          end
      end
  end.

(** [re.findall] for a pattern without groups: the successive matches, left
    to right, without overlap.  After an empty match the scan moves on by one
    character. *)
Fixpoint findall_fuel (fuel : nat) (r : regex) (s : string) : list string :=
  match fuel with
  | O => []
  | S n =>
      match search r s with
      | None => []
      | Some m =>
          m_text m ::
          match m_text m, m_after m with
          | EmptyString, EmptyString => []
          | EmptyString, String _ t => findall_fuel n r t
          | _, t => findall_fuel n r t
          end
      end
  end.

Definition findall (r : regex) (s : string) : list string :=
  findall_fuel (S (length s)) r s.

(** [pattern.sub(repl, s)] for a constant [repl]. *)
Fixpoint sub_fuel (fuel : nat) (r : regex) (repl s : string) : string :=
  match fuel with
  | O => s
  | S n =>
      match search r s with
      | None => s
      | Some m =>
          m_before m ++ repl ++
          match m_text m, m_after m with
          | EmptyString, EmptyString => ""
          | EmptyString, String c t => String c (sub_fuel n r repl t)
          | _, t => sub_fuel n r repl t
          end
      end
  end.

Definition sub (r : regex) (repl s : string) : string :=
  sub_fuel (S (length s)) r repl s.

End Re.

(** ** The builtins [float(s)], [int(s)] and [str(x)] *)

Module Py.

Definition prec : Z := 53.
Definition emax : Z := 1024.

Definition digit_val (c : ascii) : Z := Z.of_N (Str.code c) - 48.

(** The number a string of decimal digits denotes. *)
Definition digits_val (s : string) : Z :=
  (fix go (acc : Z) (s : string) : Z :=
     match s with
     | EmptyString => acc
     | String c s' => go (10 * acc + digit_val c) s'
     end) 0 s.

(** Underscores may group digits: each one stands between two digits.  The
    scan of [_Py_string_to_number_with_underscores]: [prev] is the character
    before, [None] at the start. *)
Fixpoint drop_underscores (prev : option ascii) (s : string) : option string :=
  match s with
  | EmptyString =>
      match prev with
      | Some "_"%char => None
      | _ => Some EmptyString
      end
  | String c s' =>
      if Ascii.eqb c "_" then
        match prev with
        | Some p => if Str.is_digit p then drop_underscores (Some c) s' else None
        | None => None
        end
      else
        match prev with
        | Some "_"%char =>
            if Str.is_digit c
            then option_map (String c) (drop_underscores (Some c) s')
            else None
        | _ => option_map (String c) (drop_underscores (Some c) s')
        end
  end.

(** A leading sign: [true] for [-]. *)
Definition split_sign (s : string) : bool * string :=
  match s with
  | String "-" s' => (true, s')
  | String "+" s' => (false, s')
  | _ => (false, s)
  end.

(** The longest prefix of digits, and what follows it. *)
Fixpoint span_digits (s : string) : string * string :=
  match s with
  | String c s' =>
      if Str.is_digit c
      then let (d, r) := span_digits s' in (String c d, r)
      else (EmptyString, s)
  | EmptyString => (EmptyString, EmptyString)
  end.

(** The exponent part [[eE][+-]?\d+] taking the whole of [s], or nothing. *)
Definition parse_exponent (s : string) : option Z :=
  match s with
  | EmptyString => Some 0
  | String c s' =>
      if Ascii.eqb c "e" || Ascii.eqb c "E" then
        let (neg, t) := split_sign s' in
        match span_digits t with
        | (String d ds, EmptyString) =>
            let v := digits_val (String d ds) in
            Some (if neg then - v else v)
        | _ => None
        end
      else None
  end.

(** A decimal numeral without its sign: digits, then optionally a point and
    digits, with a digit somewhere among these, then optionally an exponent.
    The result is the integer [m] and the power of ten [e] such that the
    numeral denotes [m * 10^e]. *)
Definition parse_decimal (s : string) : option (Z * Z) :=
  let (ip, r1) := span_digits s in
  let (fp, r2) :=
    match r1 with
    | String "." r => span_digits r
    | _ => (EmptyString, r1)
    end in
  match (ip ++ fp)%string with
  | EmptyString => None
  | ds =>
      match parse_exponent r2 with
      | Some e => Some (digits_val ds, e - Z.of_nat (length fp))
      | None => None
      end
  end.

(** The binary64 nearest to [m * 10^e], ties to even: exact integer
    arithmetic, then one rounding. *)
Definition dec_to_float (neg : bool) (m e : Z) : spec_float :=
  match m with
  | Z0 => S754_zero neg
  | Zpos _ =>
      if 0 <=? e then
        binary_normalize prec emax (if neg then - (m * 10 ^ e) else m * 10 ^ e) 0 false
      else
        let '(q, e2, l) := SFdiv_core_binary prec emax m 0 (10 ^ (- e)) 0 in
        binary_round_aux prec emax neg q e2 l
  | Zneg _ => S754_nan
  end.

(** [float(s)] for a [str]. *)
Definition float (s : string) : outcome spec_float :=
  match drop_underscores None (Str.strip s) with
  | None => Raise ValueError
  | Some t =>
      let (neg, body) := split_sign t in
      let lb := Str.lower body in
      if Str.among lb ["inf"; "infinity"] then Return (S754_infinity neg)
      else if String.eqb lb "nan" then Return S754_nan
      else
        match parse_decimal body with
        | Some (m, e) => Return (dec_to_float neg m e)
        | None => Raise ValueError
        end
  end.

(** The default [sys.int_max_str_digits] of CPython 3.11 and later: [int(s)]
    refuses a numeral of more digits. *)
Definition int_max_str_digits : nat := 4300.

(** [int(s)] for a [str], base ten. *)
Definition int (s : string) : outcome Z :=
  match drop_underscores None (snd (split_sign (Str.strip s))) with
  | None => Raise ValueError
  | Some ds =>
      match ds with
      | EmptyString => Raise ValueError
      | _ =>
          if Str.forallb Str.is_digit ds && (length ds <=? int_max_str_digits)%nat
          then
            let v := digits_val ds in
            Return (if fst (split_sign (Str.strip s)) then - v else v)
          else Raise ValueError
      end
  end.

(** [str(n)] for an [int]. *)
Definition str_int (z : Z) : string := NilZero.string_of_int (Z.to_int z).

Definition is_nan (f : spec_float) : bool :=
  match f with S754_nan => true | _ => false end.

Definition is_finite (f : spec_float) : bool :=
  match f with
  | S754_zero _ | S754_finite _ _ _ => true
  | _ => false
  end.

(** The exact value of a finite binary64, as a rational. *)
Definition to_Q (f : spec_float) : Q :=
  match f with
  | S754_finite s m e =>
      let v := if s then Zneg m else Zpos m in
      if 0 <=? e then inject_Z (v * 2 ^ e)
      else Qmake v (Z.to_pos (2 ^ (- e)))
  | _ => 0%Q
  end.

End Py.
(** ** Cell values

    What a cell of a [DataFrame] holds: [pd.NA], a string, a float or an
    integer.  [pd.read_html] already turns the cells it can read as numbers
    into numbers, and leaves a float NaN where a cell is missing. *)

Inductive value : Type :=
| NA
| VStr (s : string)
| VFloat (f : spec_float)
| VInt (z : Z).

(** [pd.isna(x)] on a scalar *)
Definition isna (x : value) : bool :=
  match x with
  | NA => true
  | VFloat f => Py.is_nan f
  | _ => false
  end.

Definition notna (x : value) : bool := negb (isna x).

(** ** Field normalisation: [task2_PSX.py] and [task5_GoodReads.py] *)

Section Normalizer.

(** [repr] of a finite float, the shortest numeral that reads back as the
    same float; the three other floats print as below. *)
Variable float_repr : spec_float -> string.

Definition str_float (f : spec_float) : string :=
  match f with
  | S754_nan => "nan"
  | S754_infinity false => "inf"
  | S754_infinity true => "-inf"
  | _ => float_repr f
  end.

(** [str(x)] *)
Definition str (x : value) : string :=
  match x with
  | NA => "<NA>"
  | VStr s => s
  | VFloat f => str_float f
  | VInt z => Py.str_int z
  end.

(** [_num_cleaner = re.compile(r"[^0-9+\-\.eE]")] *)
Definition num_char (c : ascii) : bool :=
  Str.is_digit c || Ascii.eqb c "+" || Ascii.eqb c "-" || Ascii.eqb c "."
  || Ascii.eqb c "e" || Ascii.eqb c "E".

Definition _num_cleaner : Re.regex := Re.Cls (fun c => negb (num_char c)).

Definition _to_float (x : value) : outcome value :=
  if isna x then Return NA
  else
    let s := Str.strip (str x) in
    if Str.among s [""; "-"; "--"] then Return NA
    else
      let s := Str.replace "," "" s in
      let s := Re.sub _num_cleaner "" s in
      if Str.among s [""; "+"; "-"] then Return NA
      else
        try_except
          (bind (Py.float s) (fun f => Return (VFloat f)))
          (fun _ => Return NA).

(** The pattern of [_to_percent]: a signed decimal in group 1, optional
    white space, a percent sign. *)
Definition percent_re : Re.regex :=
  Re.Cat
    (Re.Grp (Re.Cat (Re.Opt (Re.Chr "-"))
               (Re.Cat (Re.Plus Re.digit)
                  (Re.Opt (Re.Cat (Re.Chr ".") (Re.Plus Re.digit))))))
    (Re.Cat (Re.Star Re.space) (Re.Chr "%")).

(** [m.group(1)] of a match whose group 1 took part. *)
Definition group1 (m : Re.rmatch) : string :=
  match Re.m_group1 m with
  | Some g => g
  | None => ""
  end.

Definition _to_percent (x : value) : outcome value :=
  if isna x then Return NA
  else
    let s := str x in
    match Re.search percent_re s with
    | Some m =>
        try_except
          (bind (Py.float (group1 m)) (fun f => Return (VFloat f)))
          (fun _ => Return NA)
    | None => _to_float (VStr s)
    end.

End Normalizer.

(** [r"\d[\d,]*"] *)
Definition int_group_re : Re.regex :=
  Re.Cat Re.digit (Re.Star (Re.Cls (fun c => Str.is_digit c || Ascii.eqb c ","))).

(** [r"(\d+\.\d+|\d+)"] *)
Definition float_re : Re.regex :=
  Re.Grp (Re.Alt (Re.Cat (Re.Plus Re.digit) (Re.Cat (Re.Chr ".") (Re.Plus Re.digit)))
            (Re.Plus Re.digit)).

(** The no-break space U+00A0. *)
Definition nbsp : string := String (ascii_of_N 160) "".

(** [parse_int]; [None] is Python's [None].  The first [replace] of the
    source removes U+202F, a code point no string here holds, so it is the
    identity. *)
Definition parse_int (s : string) : outcome (option Z) :=
  if String.eqb s "" then Return None
  else
    let m := Re.findall int_group_re (Str.replace nbsp " " s) in
    match m with
    | [] => Return None
    | _ =>
        try_except
          (bind (Py.int (Str.replace "," "" (last m ""))) (fun z => Return (Some z)))
          (fun _ => Return None)
    end.

Definition parse_float (s : string) : outcome (option spec_float) :=
  if String.eqb s "" then Return None
  else
    match Re.search float_re s with
    | None => Return None
    | Some m =>
        try_except
          (bind (Py.float (group1 m)) (fun f => Return (Some f)))
          (fun _ => Return None)
    end.

(** ** The Fetcher: [get_html] of [task1_dawn.py] and [task2_PSX.py]

    The two copies differ in the default [timeout] only.  The state of a run
    is the number of GET requests sent so far and the trace of what it did;
    the network is the answer to each request, by its rank in the run. *)

Inductive answer : Type :=
| Response (status_code : Z) (text : string)
| Failed (e : request_error).      (* [requests.get] raised *)

Inductive event : Type :=
| EvGet (url : string)
| EvSleep (backoff : Q) (attempt : nat) (jitter_max : Q)
    (* [time.sleep(backoff ** attempt + random.uniform(0, jitter_max))] *)
| EvWarn (url : string) (e : exn).  (* [print(f"[warn] {u}: {e}")] *)

Record io : Type := MkIO {
  sent : nat;
  trace : list event
}.

Definition emit (ev : event) (w : io) : io := MkIO (sent w) (trace w ++ [ev]).

(** [r.raise_for_status()] *)
Definition raise_for_status (status_code : Z) : outcome unit :=
  if (400 <=? status_code) && (status_code <? 600)
  then Raise (RequestException (HTTPError status_code))
  else Return tt.

Definition transient : list Z := [403; 429; 502; 503; 504].

Section Fetcher.

Variable net : nat -> string -> answer.

(** [requests.get(url, headers=HEADERS, timeout=timeout)] *)
Definition requests_get (url : string) (w : io) : answer * io :=
  (net (sent w) url, MkIO (S (sent w)) (trace w ++ [EvGet url])).

(** The [for attempt in range(retries)] loop of [get_html], [todo] attempts
    being left. *)
Fixpoint get_html_loop (url : string) (backoff : Q) (todo attempt : nat)
  (last_err : option request_error) (w : io) {struct todo} : outcome string * io :=
  match todo with
  | O => (Raise (RuntimeError (FailedToFetch url last_err)), w)
  | S todo' =>
      let (r, w1) := requests_get url w in
      match r with
      | Response status_code text =>
          if status_code =? 200 then (Return text, w1)
          else if existsb (Z.eqb status_code) transient then
            get_html_loop url backoff todo' (S attempt) last_err
              (emit (EvSleep backoff attempt (4 # 10)) w1)
          else
            match raise_for_status status_code with
            | Raise (RequestException e) =>
                get_html_loop url backoff todo' (S attempt) (Some e)
                  (emit (EvSleep backoff attempt (3 # 10)) w1)
            | Raise e => (Raise e, w1)
            | Return _ =>
                get_html_loop url backoff todo' (S attempt) last_err w1
            end
      | Failed e =>
          get_html_loop url backoff todo' (S attempt) (Some e)
            (emit (EvSleep backoff attempt (3 # 10)) w1)
      end
  end.

Definition get_html (url : string) (retries : nat) (backoff : Q) (w : io)
  : outcome string * io :=
  get_html_loop url backoff retries O None w.

(** ** The Dawn collector: [task1_dawn.py] *)

Definition BASE_URLS : list string :=
  ["https://www.dawn.com"; "https://www.dawn.com/latest-news"].

(** An [a] element picked by [soup.select]: its [href] attribute and its
    text, [a.get_text(" ", strip=True)]. *)
Record anchor : Type := MkAnchor {
  a_href : option string;
  a_text : string
}.

(** A row [{"headline": ..., "url": ...}]. *)
Record article : Type := MkArticle {
  headline : string;
  url : string
}.

(** [soup.select("h1 a[href], h2 a[href], h3 a[href]")] of the parsed page,
    and [urllib.parse.urljoin], which raises [ValueError] on some
    references. *)
Variable select_anchors : string -> list anchor.
Variable urljoin : string -> string -> outcome string.

(** The first loop of [parse_dawn_articles]. *)
Fixpoint dawn_rows (base : string) (anchors : list anchor) : outcome (list article) :=
  match anchors with
  | [] => Return []
  | a :: rest =>
      let href := Str.strip (match a_href a with Some h => h | None => "" end) in
      if negb (Str.contains "/news/" href) then dawn_rows base rest
      else
        let headline := Str.strip (Str.replace "Image:" "" (a_text a)) in
        if String.eqb headline "" || (String.length headline <? 5)%nat then dawn_rows base rest
        else
          bind (urljoin base href) (fun url =>
          bind (dawn_rows base rest) (fun rows =>
          Return (MkArticle headline url :: rows)))
  end.

(** The second loop: [seen] is the set of URLs met, [unique_rows] is
    returned in the order of appending. *)
Fixpoint dawn_unique (seen : list string) (rows : list article) : list article :=
  match rows with
  | [] => []
  | row :: rest =>
      if negb (existsb (String.eqb (url row)) seen)
      then row :: dawn_unique (url row :: seen) rest
      else dawn_unique seen rest
  end.

Definition parse_dawn_articles (html base : string) : outcome (list article) :=
  bind (dawn_rows base (select_anchors html)) (fun rows =>
  Return (dawn_unique [] rows)).

(** [l[:n]] *)
Definition slice_to {A : Type} (n : Z) (l : list A) : list A :=
  if 0 <=? n then firstn (Z.to_nat n) l
  else firstn (List.length l - Z.to_nat (- n)) l.

(** A row of the frame [collect_dawn_headlines] returns. *)
Record dawn_record : Type := MkDawnRecord {
  r_headline : value;
  r_url : value;
  r_scraped_at : string;
  r_source : string
}.

(** [Series.fillna(v)] on one cell *)
Definition fillna (v x : value) : value := if isna x then v else x.

(** The loop over the endpoints: [collected] is the buffer. *)
Fixpoint collect_loop (urls : list string) (n : Z) (collected : list article) (w : io)
  {struct urls} : list article * io :=
  match urls with
  | [] => (collected, w)
  | u :: rest =>
      let (r, w1) := get_html u 3 (16 # 10) w in
      match bind r (fun html => parse_dawn_articles html "https://www.dawn.com") with
      | Return rows =>
          let collected' := (collected ++ rows)%list in
          if Z.of_nat (List.length collected') >=? n then (collected', w1)
          else collect_loop rest n collected' w1
      | Raise e => collect_loop rest n collected (emit (EvWarn u e) w1)
      end
  end.

(** [collect_dawn_headlines], over a list of endpoints and with the clock
    reading [now]; the script runs it on [BASE_URLS]. *)
Definition collect_from (urls : list string) (n : Z) (now : string) (w : io)
  : outcome (list dawn_record) * io :=
  let (collected, w1) := collect_loop urls n [] w in
  let df :=
    List.map (fun row => MkDawnRecord (VStr (headline row)) (VStr (url row)) "" "")
      (slice_to n collected) in
  let df := List.map (fun r => MkDawnRecord (r_headline r)
                                (fillna (VStr "No URL available") (r_url r))
                                (r_scraped_at r) (r_source r)) df in
  let df := List.map (fun r => MkDawnRecord (r_headline r) (r_url r) now (r_source r)) df in
  let df := List.map (fun r => MkDawnRecord (r_headline r) (r_url r)
                                (r_scraped_at r) "dawn.com") df in
  (Return df, w1).

Definition collect_dawn_headlines (n : Z) (now : string) (w : io)
  : outcome (list dawn_record) * io :=
  collect_from BASE_URLS n now w.

End Fetcher.

(** ** The Daraz result page: [parse_results_page_html] of [task4_Daraz.py] *)

(** A product card, as far as the loop reads it: the [href] of its link
    ([None] without a link or attribute), and the title, price, ratings and
    delivery texts the loop extracts from it. *)
Record card : Type := MkCard {
  c_href : option string;
  c_title : string;
  c_price : option string;
  c_ratings : option string;
  c_delivery : option string
}.

Record Item : Type := MkItem {
  Title : string;
  Price : option string;
  Seller : option string;
  Ratings : option string;
  DeliveryOptions : option string;
  ProductURL : string
}.

(** The [href] the loop works with: [""] without one, and made absolute. *)
Definition card_href (c : card) : string :=
  let href := match c_href c with Some h => h | None => "" end in
  if negb (String.eqb href "") && negb (Str.startswith "http" href)
  then "https://www.daraz.pk" ++ href
  else href.

Definition card_item (c : card) : Item :=
  MkItem (c_title c) (c_price c) None (c_ratings c) (c_delivery c) (card_href c).

(** The loop over the cards, [seen] being the set of links met. *)
Fixpoint results_loop (seen : list string) (cards : list card) : list Item :=
  match cards with
  | [] => []
  | c :: rest =>
      let href := card_href c in
      if negb (String.eqb href "") && existsb (String.eqb href) seen
      then results_loop seen rest
      else
        let seen' := if negb (String.eqb href "") then href :: seen else seen in
        if String.eqb (c_title c) "" && String.eqb href ""
        then results_loop seen' rest
        else card_item c :: results_loop seen' rest
  end.

Section Daraz.

(** The cards [soup.select] finds in the page. *)
Variable select_cards : string -> list card.

Definition parse_results_page_html (html : string) : list Item :=
  results_loop [] (select_cards html).

End Daraz.

(** ** Data frames

    A frame is its column labels and its rows, each row holding one cell per
    column.  Labels are strings; the operations below are those of pandas on
    a frame whose labels are distinct. *)

Record DataFrame : Type := MkFrame {
  columns : list string;
  data : list (list value)
}.

(** [len(df)] and [df.empty] *)
Definition len (df : DataFrame) : nat := List.length (data df).

Definition empty (df : DataFrame) : bool :=
  (List.length (columns df) =? 0)%nat || (len df =? 0)%nat.

(** The position of a label. *)
Fixpoint col_index (name : string) (cols : list string) : option nat :=
  match cols with
  | [] => None
  | c :: rest =>
      if String.eqb name c then Some O
      else option_map S (col_index name rest)
  end.

Fixpoint set_nth (i : nat) (v : value) (row : list value) : list value :=
  match row, i with
  | [], _ => []
  | _ :: t, O => v :: t
  | x :: t, S j => x :: set_nth j v t
  end.

(** [row.get(name, default)] for a row of the frame *)
Definition row_get (cols : list string) (row : list value) (name : string)
  (default : value) : value :=
  match col_index name cols with
  | Some i => nth i row default
  | None => default
  end.

(** All the cells of each row computed, or the first exception. *)
Fixpoint map_rows (f : list value -> outcome (list value)) (rows : list (list value))
  : outcome (list (list value)) :=
  match rows with
  | [] => Return []
  | r :: rest =>
      bind (f r) (fun r' =>
      bind (map_rows f rest) (fun rest' => Return (r' :: rest')))
  end.

(** [df[name] = f(row)] for each row: the column is replaced where it is,
    or added last. *)
Definition assign (name : string) (f : list value -> outcome value) (df : DataFrame)
  : outcome DataFrame :=
  match col_index name (columns df) with
  | Some i =>
      bind (map_rows (fun r => bind (f r) (fun v => Return (set_nth i v r))) (data df))
        (fun rows => Return (MkFrame (columns df) rows))
  | None =>
      bind (map_rows (fun r => bind (f r) (fun v => Return (r ++ [v])%list)) (data df))
        (fun rows => Return (MkFrame (columns df ++ [name]) rows))
  end.

(** [df[name] = v] for a scalar [v] *)
Definition assign_const (name : string) (v : value) (df : DataFrame) : outcome DataFrame :=
  assign name (fun _ => Return v) df.

(** [df[name] = df[name].map(f)] *)
Definition map_column (name : string) (f : value -> outcome value) (df : DataFrame)
  : outcome DataFrame :=
  assign name (fun r => f (row_get (columns df) r name NA)) df.

(** [df.rename(columns=rename)], the renaming given as a function *)
Definition rename_columns (rename : string -> string) (df : DataFrame) : DataFrame :=
  MkFrame (List.map rename (columns df)) (data df).

(** [df[[names]]]: the columns named, in that order. *)
Definition select (names : list string) (df : DataFrame) : DataFrame :=
  MkFrame names
    (List.map (fun r => List.map (fun name => row_get (columns df) r name NA) names)
       (data df)).

(** ** The Table Selector: [_pick_indices_table] of [task2_PSX.py] *)

(** [sum(int(tok in c) for c in cols)] *)
Definition count_in (tok : string) (cols : list string) : Z :=
  Z.of_nat (List.length (List.filter (Str.contains tok) cols)).

Definition header_tokens : list string :=
  ["index"; "high"; "low"; "current"; "change"; "%"].

Definition score (df : DataFrame) : Z :=
  let cols := List.map (fun c => Str.lower (Str.strip c)) (columns df) in
  count_in "index" cols + count_in "high" cols + count_in "low" cols
  + count_in "current" cols + count_in "change" cols + count_in "%" cols.

(** The loop over the tables, from the best so far. *)
Fixpoint pick_loop (tables : list DataFrame) (best_df : option DataFrame) (best_score : Z)
  : option DataFrame * Z :=
  match tables with
  | [] => (best_df, best_score)
  | df :: rest =>
      if (score df >? best_score) && (0 <? len df)%nat
      then pick_loop rest (Some df) (score df)
      else pick_loop rest best_df best_score
  end.

(** [_pick_indices_table] once [pd.read_html] has given the tables. *)
Definition pick_best (tables : list DataFrame) : outcome DataFrame :=
  match fst (pick_loop tables None (-1)) with
  | None => Raise (RuntimeError NoIndicesTable)
  | Some best_df =>
      if empty best_df then Raise (RuntimeError NoIndicesTable)
      else Return best_df
  end.

Section Indices.

(** [pd.read_html(html, flavor="lxml")]: the tables of the page, or
    [ValueError] when it has none. *)
Variable read_html : string -> outcome (list DataFrame).

Definition _pick_indices_table (html : string) : outcome DataFrame :=
  bind (read_html html) pick_best.

(** ** The Schema Reconciler: [collect_indices_from_dps] of [task2_PSX.py] *)

Variable float_repr : spec_float -> string.

(** [float(x)] for a cell *)
Definition float_of (x : value) : outcome spec_float :=
  match x with
  | VFloat f => Return f
  | VInt z =>
      let f := binary_normalize Py.prec Py.emax z 0 false in
      if Py.is_finite f then Return f else Raise OverflowError
  | VStr s => Py.float s
  | NA => Raise TypeError
  end.

Definition derive_ldcp (cols : list string) (row : list value) : outcome value :=
  let cur := row_get cols row "Current" NA in
  let chg := row_get cols row "Change" NA in
  if notna cur && notna chg then
    try_except
      (bind (float_of cur) (fun a =>
       bind (float_of chg) (fun b =>
       Return (VFloat (SFsub Py.prec Py.emax a b)))))
      (fun _ => Return NA)
  else Return NA.

(** The label a column of the picked table is renamed to. *)
Definition rename_label (c : string) : string :=
  let lc := Str.lower (Str.strip c) in
  if Str.among lc ["index"; "indices"] then "Index Name"
  else if String.eqb lc "high" then "High"
  else if String.eqb lc "low" then "Low"
  else if Str.contains "current" lc then "Current"
  else if Str.contains "change%" lc || Str.contains "%" lc then "Change %"
  else if String.eqb lc "change" then "Change"
  else c.

Definition target : list string :=
  ["Index Name"; "LDCP"; "Open"; "High"; "Low"; "Current"; "Change"; "Change %";
   "Volume"].

(** [for col in cols: if col not in df.columns: df[col] = pd.NA] *)
Fixpoint ensure_columns (cols : list string) (df : DataFrame) : outcome DataFrame :=
  match cols with
  | [] => Return df
  | col :: rest =>
      if existsb (String.eqb col) (columns df) then ensure_columns rest df
      else bind (assign_const col NA df) (ensure_columns rest)
  end.

(** [for col in cols: df[col] = df[col].map(f)] *)
Fixpoint map_columns (cols : list string) (f : value -> outcome value) (df : DataFrame)
  : outcome DataFrame :=
  match cols with
  | [] => Return df
  | col :: rest => bind (map_column col f df) (map_columns rest f)
  end.

(** The body of [collect_indices_from_dps] from the picked table [raw] on:
    renaming, full schema, normalisation, derivation, stamping and the final
    choice of columns.  [now] is what [now_iso()] reads and [asof] the
    date found in the page, if any. *)
Definition reconcile (now : string) (asof : option string) (raw : DataFrame)
  : outcome DataFrame :=
  let df := rename_columns rename_label raw in
  bind (ensure_columns target df) (fun df =>
  bind (map_columns ["High"; "Low"; "Current"; "Change"] (_to_float float_repr) df) (fun df =>
  bind (map_column "Change %" (_to_percent float_repr) df) (fun df =>
  bind (assign "LDCP" (derive_ldcp (columns df)) df) (fun df =>
  bind (assign_const "Open" NA df) (fun df =>
  bind (assign_const "Volume" NA df) (fun df =>
  bind (assign_const "scraped_at" (VStr now) df) (fun df =>
  bind (assign_const "source" (VStr "dps.psx.com.pk/indices") df) (fun df =>
  bind (match asof with
        | Some d => if String.eqb d "" then Return df
                    else assign_const "source_as_of" (VStr d) df
        | None => Return df
        end) (fun df =>
  Return (select (["Index Name"; "LDCP"; "Open"; "High"; "Low"; "Current"; "Change";
                   "Change %"; "Volume"; "scraped_at"; "source"]
                  ++ match asof with
                     | Some d => if String.eqb d "" then [] else ["source_as_of"]
                     | None => []
                     end)%list df)))))))))).

Definition PSX_INDICES_URL : string := "https://dps.psx.com.pk/indices".

(** The date after "As of" in the text of the page, if the page has one. *)
Variable page_asof : string -> option string.

Definition collect_indices_from_dps (net : nat -> string -> answer) (now : string)
  (w : io) : outcome DataFrame * io :=
  let (r, w1) := get_html net PSX_INDICES_URL 3 (16 # 10) w in
  (bind r (fun html =>
   bind (_pick_indices_table html) (fun raw =>
   reconcile now (page_asof html) raw)), w1).

End Indices.

(** ** The main board: [collect_mainboard_from_market_summary] of [task2_PSX.py] *)

Definition PSX_MARKET_SUMMARY_URL : string := "https://www.psx.com.pk/market-summary/".

Definition board_columns : list string :=
  ["Index Name"; "LDCP"; "Open"; "High"; "Low"; "Current"; "Change"; "Volume"].

Definition board_keys : list string :=
  ["LDCP"; "OPEN"; "HIGH"; "LOW"; "CURRENT"; "CHANGE"; "VOLUME"].

(** [pd.DataFrame(columns=[...])], what the function returns without a
    table. *)
Definition empty_board : DataFrame := MkFrame board_columns [].

Section Mainboard.

Variable read_html : string -> outcome (list DataFrame).
Variable float_repr : spec_float -> string.

(** [str.upper], and [pd.concat(frames, ignore_index=True)]. *)
Variable upper : string -> string.
Variable concat : list DataFrame -> DataFrame.

(** [" ".join(cols)] for the upper-cased labels of a table *)
Definition board_header (df : DataFrame) : string :=
  Str.join " " (List.map (fun c => upper (Str.strip c)) (columns df)).

(** The test that picks a table. *)
Definition board_table (df : DataFrame) : bool :=
  let header := board_header df in
  Str.contains "SCRIP" header
  && (Z.of_nat (List.length (List.filter (fun k => Str.contains k header) board_keys)) >=? 5).

(** The label a column of the concatenated table is renamed to. *)
Definition board_label (c : string) : string :=
  let u := upper (Str.strip c) in
  if String.eqb u "SCRIP" then "Index Name"
  else if String.eqb u "LDCP" then "LDCP"
  else if String.eqb u "OPEN" then "Open"
  else if String.eqb u "HIGH" then "High"
  else if String.eqb u "LOW" then "Low"
  else if String.eqb u "CURRENT" then "Current"
  else if String.eqb u "CHANGE" then "Change"
  else if String.eqb u "VOLUME" then "Volume"
  else c.

(** The body of the function once [pd.read_html] has given the tables. *)
Definition mainboard (now : string) (all_tables : list DataFrame) : outcome DataFrame :=
  let picked := List.filter board_table all_tables in
  match picked with
  | [] => Return empty_board
  | _ =>
      let big := rename_columns board_label (concat picked) in
      bind (ensure_columns board_columns big) (fun big =>
      bind (map_columns ["LDCP"; "Open"; "High"; "Low"; "Current"; "Change"; "Volume"]
              (_to_float float_repr) big) (fun big =>
      bind (assign_const "scraped_at" (VStr now) big) (fun big =>
      bind (assign_const "source" (VStr "psx.com.pk/market-summary") big) (fun big =>
      Return (select ["Index Name"; "LDCP"; "Open"; "High"; "Low"; "Current"; "Change";
                      "Volume"; "scraped_at"; "source"] big)))))
  end.

Definition collect_mainboard_from_market_summary (net : nat -> string -> answer)
  (now : string) (w : io) : outcome DataFrame * io :=
  let (r, w1) := get_html net PSX_MARKET_SUMMARY_URL 3 (16 # 10) w in
  (bind r (fun html =>
   match read_html html with
   | Raise ValueError => Return empty_board
   | Raise e => Raise e
   | Return all_tables => mainboard now all_tables
   end), w1).

End Mainboard.

(** ** The browser of [task4_Daraz.py] and [task5_GoodReads.py]

    What a call of the Selenium driver raises: [TimeoutException], or
    another [WebDriverException]. *)

Inductive driver_error : Type :=
| TimeoutException
| WebDriverError (msg : string).

Inductive browsed (A : Type) : Type :=
| Done (a : A)
| Fails (e : driver_error).

Arguments Done {A} a.
Arguments Fails {A} e.

(** ** The listing pages: the page loop of [scrape_daraz_from_home] in
    [task4_Daraz.py] *)

Definition MIN_ITEMS : Z := 20.
Definition MAX_PAGES : Z := 4.

(** The loop over the items of one page: [seen_urls] and [rows] are the set
    and the list the function keeps across the pages. *)
Fixpoint page_rows (n_min : Z) (seen_urls : list string) (rows : list Item)
  (page_items : list Item) : list string * list Item :=
  match page_items with
  | [] => (seen_urls, rows)
  | it :: rest =>
      if negb (String.eqb (ProductURL it) "")
         && existsb (String.eqb (ProductURL it)) seen_urls
      then page_rows n_min seen_urls rows rest
      else
        let seen_urls := ProductURL it :: seen_urls in
        let rows := (rows ++ [it])%list in
        if Z.of_nat (List.length rows) >=? n_min then (seen_urls, rows)
        else page_rows n_min seen_urls rows rest
  end.

Section Listing.

Variable select_cards : string -> list card.

(** [driver.page_source] while the browser shows result page [page], and
    whether [find_and_click_next] moves on from that page. *)
Variable page_source : Z -> browsed string.
Variable find_and_click_next : Z -> bool.

(** The [while len(rows) < n_min and page <= MAX_PAGES] loop, [todo] turns
    being left. *)
Fixpoint listing_loop (n_min : Z) (todo : nat) (page : Z) (seen_urls : list string)
  (rows : list Item) {struct todo} : browsed (list Item) :=
  match todo with
  | O => Done rows
  | S todo' =>
      if (Z.of_nat (List.length rows) <? n_min) && (page <=? MAX_PAGES) then
        match page_source page with
        | Fails e => Fails e
        | Done html =>
            let (seen_urls, rows) :=
              page_rows n_min seen_urls rows (parse_results_page_html select_cards html) in
            if Z.of_nat (List.length rows) >=? n_min then Done rows
            else if negb (find_and_click_next page) then Done rows
            else listing_loop n_min todo' (page + 1) seen_urls rows
        end
      else Done rows
  end.

(** The base rows of [scrape_daraz_from_home], before the product pages are
    opened: [page] starts at 1 and the loop cannot take more than
    [MAX_PAGES] turns. *)
Definition base_rows (n_min : Z) : browsed (list Item) :=
  listing_loop n_min (Z.to_nat MAX_PAGES) 1 [] [].

End Listing.

(** ** Goodreads: [robust_get], [collect_book_links_from_list] and
    [norm_reviews] of [task5_GoodReads.py] *)

Inductive step : Type :=
| StGet (url : string)        (* [driver.get(url)] *)
| StStop                      (* [driver.execute_script("window.stop();")] *)
| StSleep (seconds : Q).      (* [time.sleep(seconds)] *)

(** The state of the browser in a run: the number of pages asked for so
    far, and what was done. *)
Record browser : Type := MkBrowser {
  gets : nat;
  steps : list step
}.

Definition note (st : step) (b : browser) : browser := MkBrowser (gets b) (steps b ++ [st]).

Section Goodreads.

(** What [driver.get] does with each request, by its rank in the run:
    [None] when the page loads. *)
Variable page_load : nat -> string -> option driver_error.

Definition driver_get (url : string) (b : browser) : option driver_error * browser :=
  (page_load (gets b) url, MkBrowser (S (gets b)) (steps b ++ [StGet url])).

(** The [for attempt in range(1, tries + 1)] loop of [robust_get], [todo]
    turns being left.  Falling off the loop returns [None]. *)
Fixpoint robust_get_loop (url : string) (tries : Z) (todo : nat) (attempt : Z)
  (b : browser) {struct todo} : browsed unit * browser :=
  match todo with
  | O => (Done tt, b)
  | S todo' =>
      let (r, b1) := driver_get url b in
      match r with
      | None => (Done tt, b1)
      | Some TimeoutException =>
          let b2 := note StStop b1 in
          if attempt =? tries then (Fails TimeoutException, b2)
          else robust_get_loop url tries todo' (attempt + 1) (note (StSleep (14 # 10)) b2)
      | Some e => (Fails e, b1)
      end
  end.

Definition robust_get (url : string) (tries : Z) (b : browser) : browsed unit * browser :=
  robust_get_loop url tries (Z.to_nat tries) 1 b.

End Goodreads.

(** An element of the list page as the loops read it: looking up its link
    or its [href] raised, or gave the attribute ([None] without one). *)
Inductive lookup : Type :=
| Stale
| Href (href : option string).

(** One of the two [for] loops over the elements of a page. *)
Fixpoint add_links (need : Z) (links : list string) (elements : list lookup)
  : list string :=
  match elements with
  | [] => links
  | Href (Some href) :: rest =>
      if negb (String.eqb href "") && negb (existsb (String.eqb href) links) then
        let links := (links ++ [href])%list in
        if Z.of_nat (List.length links) >=? need then links
        else add_links need links rest
      else add_links need links rest
  | _ :: rest => add_links need links rest
  end.

(** A list page as the function sees it: the rows of the old table and the
    title links (each after the scrolling, or what the driver raised), and
    whether the next page could be opened. *)
Record listing : Type := MkListing {
  l_rows : browsed (list lookup);
  l_cards : browsed (list lookup);
  l_next : bool
}.

Section BookLinks.

(** The page shown after each number of moves to the next page. *)
Variable pages : nat -> listing.

(** The [while len(links) < need and tried_pages < 6] loop, [todo] pages
    being left to try. *)
Fixpoint book_links_loop (need : Z) (todo : nat) (tried_pages : nat) (links : list string)
  {struct todo} : browsed (list string) :=
  match todo with
  | O => Done links
  | S todo' =>
      if Z.of_nat (List.length links) <? need then
        match l_rows (pages tried_pages) with
        | Fails e => Fails e
        | Done rows =>
            let links := add_links need links rows in
            match (if Z.of_nat (List.length links) <? need then
                     match l_cards (pages tried_pages) with
                     | Fails e => Fails e
                     | Done cards => Done (add_links need links cards)
                     end
                   else Done links) with
            | Fails e => Fails e
            | Done links =>
                if Z.of_nat (List.length links) >=? need then Done links
                else if l_next (pages tried_pages)
                     then book_links_loop need todo' (S tried_pages) links
                     else Done links
            end
        end
      else Done links
  end.

Definition collect_book_links_from_list (need : Z) : browsed (list string) :=
  match book_links_loop need 6 0 [] with
  | Done links => Done (slice_to need links)
  | Fails e => Fails e
  end.

End BookLinks.

(** [norm_reviews], applied to each cell of the column. *)
Definition norm_reviews (x : value) : outcome value :=
  match x with
  | VInt z => Return (VInt z)
  | VStr s =>
      bind (parse_int s) (fun xi =>
      match xi with
      | Some z => Return (VInt z)
      | None => Return (VStr "Not Available")
      end)
  | _ => Return (VStr "Not Available")
  end.

(** ** Goodreads: [open_genre_list] of [task5_GoodReads.py] *)

Definition GOODREADS_HOME : string := "https://www.goodreads.com/?utm_source=chatgpt.com".

(** The two list pages tried for a genre, in this order. *)
Definition list_page (genre : string) : string :=
  "https://www.goodreads.com/list/tag/" ++ genre.

Definition shelf_page (genre : string) : string :=
  "https://www.goodreads.com/shelf/show/" ++ genre ++ "?page=1".

Section GenreList.

Variable page_load : nat -> string -> option driver_error.

(** The [WebDriverWait(...).until(...)] for the list, by the number of
    pages asked for so far: [None] when the list is there, else what the
    wait raises. *)
Variable list_shown : nat -> option driver_error.

(** The body of the [try]: the page, the banners (that never raise), the
    wait. *)
Definition try_candidate (url : string) (b : browser) : browsed unit * browser :=
  let (r, b1) := robust_get page_load url 3 b in
  match r with
  | Fails e => (Fails e, b1)
  | Done _ =>
      match list_shown (gets b1) with
      | None => (Done tt, b1)
      | Some e => (Fails e, b1)
      end
  end.

(** The [for url in candidates] loop, [last_err] being the last exception
    caught; the loop is over one candidate at least, so that [last_err] is
    an exception when it ends. *)
Fixpoint candidates_loop (url : string) (others : list string) (b : browser)
  : browsed unit * browser :=
  let (r, b1) := try_candidate url b in
  match r with
  | Done _ => (Done tt, b1)
  | Fails last_err =>
      match others with
      | [] => (Fails last_err, b1)
      | next :: rest => candidates_loop next rest b1
      end
  end.

Definition open_genre_list (genre : string) (b : browser) : browsed unit * browser :=
  let (r, b1) := robust_get page_load GOODREADS_HOME 3 b in
  match r with
  | Fails e => (Fails e, b1)
  | Done _ => candidates_loop (list_page genre) [shelf_page genre] b1
  end.

End GenreList.

(** ** Goodreads: [extract_book_details] of [task5_GoodReads.py] *)

(** An element the driver found, as far as the function reads it: its
    text, its tag name and its [content] attribute, each [None] when
    reading it raises; the attribute may be absent. *)
Record element : Type := MkElement {
  el_text : option string;
  el_tag : option string;
  el_content : option (option string)
}.

(** [safe_text(el)] *)
Definition safe_text (el : element) : string :=
  match el_text el with
  | Some t => Str.strip t
  | None => ""
  end.

(** The page the browser shows: [driver.current_url] and
    [driver.page_source], whether the wait for a heading succeeds, and what
    [find_element] and [find_elements] give for a selector, [None] when
    they raise. *)
Record book_page : Type := MkBookPage {
  bp_url : browsed string;
  bp_source : browsed string;
  bp_heading : bool;
  bp_find : string -> option element;
  bp_find_all : string -> option (list element)
}.

(** The dictionary [d]; "Rating" is a float, [np.nan] at first, and
    "Number of Reviews" an integer or a text. *)
Record book : Type := MkBook {
  b_title : string;
  b_author : string;
  b_rating : spec_float;
  b_reviews : value;
  b_published : string;
  b_url : string
}.

Definition looks_like_captcha (source : string) : bool :=
  let html := Str.lower source in
  Str.contains "are you human" html || Str.contains "unusual traffic" html
  || Str.contains "captcha" html.

Definition title_selectors : list string :=
  ["h1#bookTitle"; "h1[data-testid='bookTitle']"; "//h1"].

Definition author_selectors : list string :=
  ["a.authorName span[itemprop='name']"; "span.ContributorLink__name";
   "a[data-testid='name']"; "a.authorName"].

Definition rating_selectors : list string :=
  ["span[itemprop='ratingValue']"; "div.RatingStatistics__rating";
   "[data-testid='ratingValue']"].

Definition reviews_selectors : list string :=
  ["meta[itemprop='reviewCount']"; "[data-testid='reviewsCount']";
   "//*[contains(translate(., 'REVIEWS', 'reviews'),'reviews')]"].

Definition published_selectors : list string :=
  ["#details .row"; "p[data-testid='publicationInfo']";
   "//*[contains(., 'Published') and not(self::script) and not(self::style)]"].

(** The loops for the title and for the author: the first selector whose
    element has a text gives it. *)
Fixpoint first_text (find : string -> option element) (selectors : list string)
  (current : string) : string :=
  match selectors with
  | [] => current
  | sel :: rest =>
      match find sel with
      | Some el =>
          let t := safe_text el in
          if negb (String.eqb t "") then t else first_text find rest current
      | None => first_text find rest current
      end
  end.

(** The loop for the rating. *)
Fixpoint first_rating (find : string -> option element) (selectors : list string)
  (current : spec_float) : spec_float :=
  match selectors with
  | [] => current
  | sel :: rest =>
      match find sel with
      | Some el =>
          match parse_float (safe_text el) with
          | Return (Some val) => val
          | _ => first_rating find rest current
          end
      | None => first_rating find rest current
      end
  end.

(** The loop for the number of reviews: [None] when no selector gives
    one. *)
Fixpoint first_reviews (find : string -> option element) (selectors : list string)
  : option Z :=
  match selectors with
  | [] => None
  | sel :: rest =>
      match find sel with
      | Some el =>
          match el_tag el with
          | Some tag =>
              if String.eqb (Str.lower tag) "meta" then
                match el_content el with
                | Some content =>
                    match parse_int (match content with Some c => c | None => "" end) with
                    | Return (Some cnt) => Some cnt
                    | _ => first_reviews find rest
                    end
                | None => first_reviews find rest
                end
              else
                match parse_int (safe_text el) with
                | Return (Some cnt) => Some cnt
                | _ => first_reviews find rest
                end
          | None => first_reviews find rest
          end
      | None => first_reviews find rest
      end
  end.

(** The loops for the publication date: the first element, of the first
    selector that has one, whose text holds "publish", white space being
    squeezed by [re.sub(r"\s+", " ", txt)]. *)
Fixpoint published_in (els : list element) : option string :=
  match els with
  | [] => None
  | el :: rest =>
      let txt := safe_text el in
      if Str.contains "publish" (Str.lower txt)
      then Some (Re.sub (Re.Plus Re.space) " " txt)
      else published_in rest
  end.

Fixpoint first_published (find_all : string -> option (list element))
  (selectors : list string) (current : string) : string :=
  match selectors with
  | [] => current
  | sel :: rest =>
      match find_all sel with
      | Some els =>
          match published_in els with
          | Some p => p
          | None => first_published find_all rest current
          end
      | None => first_published find_all rest current
      end
  end.

Definition extract_book_details (p : book_page) : browsed book :=
  match bp_url p with
  | Fails e => Fails e
  | Done url =>
      let d := MkBook "Not Available" "Not Available" S754_nan (VStr "Not Available")
                 "Not Available" url in
      match bp_source p with
      | Fails e => Fails e
      | Done source =>
          if looks_like_captcha source then Done d
          else if negb (bp_heading p) then Done d
          else
            Done (MkBook
                    (first_text (bp_find p) title_selectors (b_title d))
                    (first_text (bp_find p) author_selectors (b_author d))
                    (first_rating (bp_find p) rating_selectors (b_rating d))
                    (match first_reviews (bp_find p) reviews_selectors with
                     | Some cnt => VInt cnt
                     | None => VStr "Not Available"
                     end)
                    (first_published (bp_find_all p) published_selectors (b_published d))
                    url)
      end
  end.

(** * Vocabulary of the properties

    The definitions the statements below are written with: sample inputs,
    the predicates of the statements, and the functions the proofs compare
    the code with. *)

(** The floats 1234.5, the nearest to -3.2, and 3.0. *)
Definition f_1234_5 : spec_float := S754_finite false 5429388417957888 (-42).
Definition f_neg_3_2 : spec_float := S754_finite true 7205759403792794 (-51).
Definition f_3_0 : spec_float := S754_finite false 6755399441055744 (-51).

(** [f] is a binary64 within half a unit in its last place of [q]. *)
Definition rounds (q : Q) (f : spec_float) : Prop :=
  valid_binary Py.prec Py.emax f = true /\
  match f with
  | S754_finite _ _ e => (Qabs (Py.to_Q f - q) * 2 <= Qpower 2 e)%Q
  | _ => False
  end.

(** The answer is a response with status 200. *)
Definition ok200 (a : answer) : bool :=
  match a with
  | Response status_code _ => status_code =? 200
  | Failed _ => false
  end.

(** A server that answers 404 to everything. *)
Definition net_404 : nat -> string -> answer := fun _ _ => Response 404 "".

(** The start of a run: nothing sent, nothing done. *)
Definition io0 : io := MkIO O [].

(** A server whose first answer is a 404 and whose second is the page. *)
Definition net_404_then_page : nat -> string -> answer :=
  fun k _ => match k with
             | O => Response 404 ""
             | _ => Response 200 "<html></html>"
             end.

(** A server whose first answer is the page and whose later answers are
    404s. *)
Definition net_page_then_404 : nat -> string -> answer :=
  fun k _ => match k with
             | O => Response 200 "<html></html>"
             | _ => Response 404 ""
             end.

(** The endpoints warned about, in the order of the warnings. *)
Fixpoint warned (tr : list event) : list string :=
  match tr with
  | [] => []
  | EvWarn u _ :: rest => u :: warned rest
  | _ :: rest => warned rest
  end.

(** A page without headlines, and a [urljoin] that only concatenates. *)
Definition no_anchors : string -> list anchor := fun _ => [].
Definition join_plain : string -> string -> outcome string :=
  fun base href => Return (base ++ href).

(** [len(df) > 0] *)
Definition has_rows (df : DataFrame) : bool := (0 <? len df)%nat.

(** Sample tables, each of one row unless said otherwise. *)
Definition one_row : list (list value) := [[VStr "x"; VStr "y"]].

Definition table_name_value : DataFrame := MkFrame ["Name"; "Value"] one_row.

Definition table_index_high : DataFrame :=
  MkFrame ["Index"; "High"; "Low"] [[VStr "KSE100"; VStr "1"; VStr "2"]].

(** The score in the words of the specification: the number of expected
    tokens found, as a substring and whatever the case, in some header label
    of the candidate. *)
Definition spec_score (tokens : list string) (df : DataFrame) : Z :=
  Z.of_nat
    (List.length
       (List.filter
          (fun tok => existsb (fun c => Str.contains tok (Str.lower c)) (columns df))
          tokens)).

Definition table_high_high : DataFrame := MkFrame ["High"; "High 52w"] one_row.
Definition table_high_low : DataFrame := MkFrame ["High"; "Low"] one_row.
Definition table_no_rows : DataFrame :=
  MkFrame ["Index"; "High"; "Low"; "Current"; "Change"] [].

(** The floats 100.0, 2.5 and 97.5. *)
Definition f_100 : spec_float := S754_finite false 7036874417766400 (-46).
Definition f_2_5 : spec_float := S754_finite false 5629499534213120 (-51).
Definition f_97_5 : spec_float := S754_finite false 6860952557322240 (-46).

(** [l1] is [l2] with some elements left out, the order kept. *)
Inductive sublist {A : Type} : list A -> list A -> Prop :=
| sublist_nil : sublist [] []
| sublist_skip : forall x l1 l2, sublist l1 l2 -> sublist l1 (x :: l2)
| sublist_keep : forall x l1 l2, sublist l1 l2 -> sublist (x :: l1) (x :: l2).

(** Both loops of deduplication in one: keep a record unless its key was
    seen; with [keyless_unique], a record whose key is empty is never looked
    up in [seen] nor added to it. *)
Section DedupBy.

Context {A : Type}.
Variable key : A -> string.
Variable keyless_unique : bool.

Definition tracked (k : string) : bool := negb (keyless_unique && String.eqb k "").

Fixpoint dedup (seen : list string) (xs : list A) : list A :=
  match xs with
  | [] => []
  | x :: rest =>
      if tracked (key x) && existsb (String.eqb (key x)) seen
      then dedup seen rest
      else x :: dedup (if tracked (key x) then key x :: seen else seen) rest
  end.

Definition has_key (k : string) (x : A) : bool := String.eqb (key x) k.

End DedupBy.

(** The cards that make a record: those with a title or a link. *)
Definition makes_item (c : card) : bool :=
  negb (String.eqb (c_title c) "" && String.eqb (card_href c) "").

(** The records of a given key. *)
Definition by_url (k : string) (r : article) : bool := String.eqb (url r) k.
Definition by_product_url (k : string) (it : Item) : bool := String.eqb (ProductURL it) k.
Definition keyless (it : Item) : bool := String.eqb (ProductURL it) "".

(** What the Dawn parser owes its rows: [out] is what is left of the
    [rows] of the first loop. *)
Definition dawn_deduplicated (rows out : list article) : Prop :=
  (List.length out <= List.length rows)%nat
  /\ sublist out rows
  /\ NoDup (List.map url out)
  /\ (forall k, find (by_url k) out = find (by_url k) rows)
  /\ (forall r, In r rows -> url r <> "").

(** What the Daraz parser owes the records its cards make. *)
Definition daraz_deduplicated (records out : list Item) : Prop :=
  (List.length out <= List.length records)%nat
  /\ sublist out records
  /\ NoDup (List.filter (fun k => negb (String.eqb k "")) (List.map ProductURL out))
  /\ (forall k, k <> "" -> find (by_product_url k) out = find (by_product_url k) records)
  /\ List.filter keyless out = List.filter keyless records.

(** A page whose second headline repeats the link of the first, and a
    result page with a repeated link and two cards without link. *)
Definition three_anchors : string -> list anchor :=
  fun _ => [MkAnchor (Some "/news/1") "Budget passed";
            MkAnchor (Some "/news/1") "Budget passed, again";
            MkAnchor (Some "/news/2") "Rain in Karachi"].

Definition three_cards : string -> list card :=
  fun _ => [MkCard (Some "/products/a") "Phone" None None None;
            MkCard None "Case" None None None;
            MkCard (Some "/products/a") "Phone, promoted" None None None;
            MkCard None "Case" None None None].

(** No character of the string is an n or an N. *)
Definition no_n (s : string) : bool :=
  Str.forallb (fun c => negb (Ascii.eqb (Str.lower_char c) "n")) s.

(** The characters a pattern can consume. *)
Fixpoint alphabet (r : Re.regex) (c : ascii) : bool :=
  match r with
  | Re.Eps => false
  | Re.Cls p => p c
  | Re.Cat r1 r2 | Re.Alt r1 r2 => alphabet r1 c || alphabet r2 c
  | Re.Opt r1 | Re.Star r1 | Re.Grp r1 => alphabet r1 c
  end.

(** From [s] with group [g] to [s1] with group [g1], consuming characters of
    the class [q] only. *)
Definition consumed (q : ascii -> bool) (s : string) (g : option string)
  (s1 : string) (g1 : option string) : Prop :=
  (exists w, s = (w ++ s1)%string /\ Str.forallb q w = true)
  /\ (g1 = g \/ exists t, g1 = Some t /\ Str.forallb q t = true).

(** A matcher that succeeds does so through its continuation, having
    consumed characters of [q]. *)
Definition sound {A : Type} (q : ascii -> bool)
  (body : string -> option string -> Re.cont A -> option A) : Prop :=
  forall s g k a,
    body s g k = Some a ->
    exists s1 g1, k s1 g1 = Some a /\ consumed q s g s1 g1.

(** A finite number, or absent: what the coercions are said to return. *)
Definition finite_or_absent (v : value) : Prop :=
  match v with
  | NA => True
  | VFloat f => Py.is_finite f = true
  | VInt _ => True
  | VStr _ => False
  end.

(** A float that is a number, finite or infinite, or absent. *)
Definition number_or_absent (v : value) : Prop :=
  match v with
  | NA => True
  | VFloat f => Py.is_nan f = false
  | _ => False
  end.

(** A [repr] that prints nothing, for inputs that hold no finite float. *)
Definition repr_none : spec_float -> string := fun _ => "".

(** The longest prefix in the class [p], and what follows it. *)
Fixpoint take_while (p : ascii -> bool) (s : string) : string :=
  match s with
  | String c t => if p c then String c (take_while p t) else ""
  | EmptyString => ""
  end.

Fixpoint drop_while (p : ascii -> bool) (s : string) : string :=
  match s with
  | String c t => if p c then drop_while p t else s
  | EmptyString => ""
  end.

(** The head of the string, if any, is outside the class. *)
Definition stops (p : ascii -> bool) (s : string) : bool :=
  match s with
  | String c _ => negb (p c)
  | EmptyString => true
  end.

(** [s'] is [s] less some characters of the class [p] at its head. *)
Inductive shortened (p : ascii -> bool) : string -> string -> Prop :=
| shortened_here : forall s, shortened p s s
| shortened_next : forall c t s',
    p c = true -> shortened p t s' -> shortened p (String c t) s'.

(** The characters of a digit group after its first digit. *)
Definition group_char (c : ascii) : bool := Str.is_digit c || Ascii.eqb c ",".

(** The string does not end inside a group: it is empty or its last
    character is neither a digit nor a comma. *)
Fixpoint ends_free (s : string) : bool :=
  match s with
  | EmptyString => true
  | String c EmptyString => negb (group_char c)
  | String _ t => ends_free t
  end.

(** The no-break space made a space. *)
Definition unbreak (c : ascii) : ascii :=
  if Ascii.eqb (ascii_of_N 160) c then " "%char else c.

(** A numeral [ip] or [ip.fp]. *)
Definition numeral (ip fp : string) : string :=
  (ip ++ match fp with
         | EmptyString => ""
         | _ => String "." fp
         end)%string.

(** The string goes on with a point and a digit. *)
Definition frac_follows (post : string) : bool :=
  match post with
  | String "." (String c _) => Str.is_digit c
  | _ => false
  end.

(** [g] is the last digit group of [s]: a digit followed by digits and
    commas, after which no digit comes and no comma goes on, and which does
    not go on a group begun before it. *)
Definition last_group (s g : string) : Prop :=
  exists before d g' after,
    g = String d g'
    /\ s = (before ++ g ++ after)%string
    /\ ends_free before = true
    /\ Str.is_digit d = true
    /\ Str.forallb group_char g' = true
    /\ Str.forallb (fun c => negb (Str.is_digit c)) after = true
    /\ Str.startswith "," after = false.

(** [ip], or [ip.fp] when [fp] is not empty, is the first numeral of [s]:
    no digit comes before it, and it is as long as can be. *)
Definition first_numeral (s ip fp : string) : Prop :=
  exists pre d ip' post,
    ip = String d ip'
    /\ s = (pre ++ numeral ip fp ++ post)%string
    /\ Str.forallb (fun c => negb (Str.is_digit c)) pre = true
    /\ Str.is_digit d = true
    /\ Str.forallb Str.is_digit ip' = true
    /\ Str.forallb Str.is_digit fp = true
    /\ stops Str.is_digit post = true
    /\ (fp = "" -> frac_follows post = false).

(** Every row has one cell for each column. *)
Definition aligned (df : DataFrame) : Prop :=
  Forall (fun r => List.length r = List.length (columns df)) (data df).

(** The row of a frame as a function of the label, [pd.NA] where the frame
    has no such column. *)
Definition view (cols : list string) (r : list value) : string -> value :=
  fun n => row_get cols r n NA.

(** The row read by label once [name] holds [v]. *)
Definition upd (g : string -> value) (name : string) (v : value) : string -> value :=
  fun n => if String.eqb n name then v else g n.

(** [derive_ldcp] reads two cells of the row. *)
Definition derive_cells (cur chg : value) : outcome value :=
  if notna cur && notna chg then
    try_except
      (bind (float_of cur) (fun a =>
       bind (float_of chg) (fun b =>
       Return (VFloat (SFsub Py.prec Py.emax a b)))))
      (fun _ => Return NA)
  else Return NA.

(** The date of the page when the script finds one: [if asof]. *)
Definition asof_given (asof : option string) : option string :=
  match asof with
  | Some d => if String.eqb d "" then None else Some d
  | None => None
  end.

(** The columns of the frame returned. *)
Definition canonical (asof : option string) : list string :=
  (["Index Name"; "LDCP"; "Open"; "High"; "Low"; "Current"; "Change"; "Change %";
    "Volume"; "scraped_at"; "source"]
   ++ match asof_given asof with Some _ => ["source_as_of"] | None => [] end)%list.

(** The rows of a reconciled frame. *)
Section ReconciledRows.

Variable float_repr : spec_float -> string.
Variables (now : string) (asof : option string).

(** [v] is a value [_to_float], or [_to_percent], returns. *)
Definition normal (v : value) : Prop := exists x, _to_float float_repr x = Return v.
Definition normal_pct (v : value) : Prop := exists x, _to_percent float_repr x = Return v.

(** A row as [reconcile] leaves it. *)
Definition reconciled_row (r : list value) : Prop :=
  exists idx ldcp high low cur chg chgp,
    r = ([idx; ldcp; NA; high; low; cur; chg; chgp; NA; VStr now;
          VStr "dps.psx.com.pk/indices"]
         ++ match asof_given asof with Some d => [VStr d] | None => [] end)%list
    /\ normal high /\ normal low /\ normal cur /\ normal chg /\ normal_pct chgp
    /\ derive_cells cur chg = Return ldcp.

(** A frame as [reconcile] leaves it. *)
Definition reconciled (df : DataFrame) : Prop :=
  columns df = canonical asof /\ Forall reconciled_row (data df).

(** What is known of a row, read by label, after each step of
    [reconcile]. *)
Definition Q1 (g : string -> value) : Prop := normal (g "High").
Definition Q2 (g : string -> value) : Prop := Q1 g /\ normal (g "Low").
Definition Q3 (g : string -> value) : Prop := Q2 g /\ normal (g "Current").
Definition Q4 (g : string -> value) : Prop := Q3 g /\ normal (g "Change").
Definition Q5 (g : string -> value) : Prop := Q4 g /\ normal_pct (g "Change %").
Definition Q6 (g : string -> value) : Prop :=
  Q5 g /\ derive_cells (g "Current") (g "Change") = Return (g "LDCP").
Definition Q7 (g : string -> value) : Prop := Q6 g /\ g "Open" = NA.
Definition Q8 (g : string -> value) : Prop := Q7 g /\ g "Volume" = NA.
Definition Q9 (g : string -> value) : Prop := Q8 g /\ g "scraped_at" = VStr now.
Definition Q10 (g : string -> value) : Prop :=
  Q9 g /\ g "source" = VStr "dps.psx.com.pk/indices".

End ReconciledRows.

(** The text [float_repr] prints for [f] reads back as [f], and is made of
    the characters of a numeral. *)
Definition prints_back (float_repr : spec_float -> string) (f : spec_float) : Prop :=
  Py.is_finite f = true
  /\ Py.float (float_repr f) = Return f
  /\ Str.forallb num_char (float_repr f) = true.

Section StableRows.

Variable float_repr : spec_float -> string.
Variable now : string.

(** A row that each step of [reconcile] leaves as it is. *)
Definition stable_row (asof : option string) (r : list value) : Prop :=
  exists idx ldcp high low cur chg chgp,
    r = ([idx; ldcp; NA; high; low; cur; chg; chgp; NA; VStr now;
          VStr "dps.psx.com.pk/indices"]
         ++ match asof_given asof with Some d => [VStr d] | None => [] end)%list
    /\ _to_float float_repr high = Return high
    /\ _to_float float_repr low = Return low
    /\ _to_float float_repr cur = Return cur
    /\ _to_float float_repr chg = Return chg
    /\ _to_percent float_repr chgp = Return chgp
    /\ derive_cells cur chg = Return ldcp.

(** The columns [reconcile] normalises. *)
Definition numeric_columns : list string :=
  ["High"; "Low"; "Current"; "Change"; "Change %"].

End StableRows.

(** A picked table whose Current cell overflows binary64. *)
Definition table_overflow : DataFrame :=
  MkFrame ["Index"; "Current"; "Change"] [[VStr "KSE100"; VStr "1e999 pts"; VStr "1"]].

(** A picked table of finite values, and the frame [reconcile] makes of
    it. *)
Definition table_finite : DataFrame :=
  MkFrame ["Index"; "Current"; "Change"] [[VStr "KSE100"; VStr "100.0"; VStr "2.5"]].

(** What [repr] prints for the two floats of the sample frame. *)
Definition repr_sample (f : spec_float) : string :=
  match f with
  | S754_finite false m e =>
      if Pos.eqb m 7036874417766400 && Z.eqb e (-46) then "100.0"
      else if Pos.eqb m 5629499534213120 && Z.eqb e (-51) then "2.5"
      else ""
  | _ => ""
  end.

Definition frame_finite : DataFrame :=
  MkFrame (canonical None)
    [[VStr "KSE100"; VFloat f_97_5; NA; NA; NA; VFloat f_100; VFloat f_2_5; NA; NA;
      VStr "2025-01-01T00:00:00+05:00"; VStr "dps.psx.com.pk/indices"]].

(** The float 1.0, a [repr] that prints it, the frame [reconcile] makes of
    the table whose Current cell overflows, and the frame it makes of that
    frame: Current and LDCP, infinite, have become absent, and Change is
    still 1.0. *)
Definition f_1_0 : spec_float := S754_finite false 4503599627370496 (-52).

Definition repr_one (f : spec_float) : string :=
  match f with
  | S754_finite false m e =>
      if Pos.eqb m 4503599627370496 && Z.eqb e (-52) then "1.0" else ""
  | _ => ""
  end.

Definition frame_overflow : DataFrame :=
  MkFrame (canonical None)
    [[VStr "KSE100"; VFloat (S754_infinity false); NA; NA; NA;
      VFloat (S754_infinity false); VFloat f_1_0; NA; NA;
      VStr "2025-01-01T00:00:00+05:00"; VStr "dps.psx.com.pk/indices"]].

Definition frame_overflow_twice : DataFrame :=
  MkFrame (canonical None)
    [[VStr "KSE100"; NA; NA; NA; NA; NA; VFloat f_1_0; NA; NA;
      VStr "2025-01-01T00:00:00+05:00"; VStr "dps.psx.com.pk/indices"]].

(** The error [get_html] reports once its attempts are used up: that of the
    last attempt that raised one, from [last_err] on. *)
Fixpoint reported (answers : list answer) (last_err : option request_error)
  : option request_error :=
  match answers with
  | [] => last_err
  | Failed e :: rest => reported rest (Some e)
  | Response status_code _ :: rest =>
      if existsb (Z.eqb status_code) transient then reported rest last_err
      else if (400 <=? status_code) && (status_code <? 600)
           then reported rest (Some (HTTPError status_code))
           else reported rest last_err
  end.

(** The answers to the [k] requests from the [i]-th on. *)
Definition answers_from (net : nat -> string -> answer) (url : string) (i k : nat)
  : list answer :=
  List.map (fun j => net j url) (seq i k).

(** A server that answers 503 to everything. *)
Definition net_503 : nat -> string -> answer := fun _ _ => Response 503 "".

(** The number of pauses of a run of the browser. *)
Definition naps (b : browser) : nat :=
  List.length
    (List.filter (fun st => match st with StSleep _ => true | _ => false end) (steps b)).

(** A browser that has done nothing yet, a site whose first two loads time
    out, one that always times out and one whose driver breaks at once. *)
Definition browser0 : browser := MkBrowser 0 [].

Definition load_third : nat -> string -> option driver_error :=
  fun i _ => if (i <? 2)%nat then Some TimeoutException else None.

Definition load_never : nat -> string -> option driver_error :=
  fun _ _ => Some TimeoutException.

Definition load_broken : nat -> string -> option driver_error :=
  fun _ _ => Some (WebDriverError "invalid session id").

(** The links a page offers: the [href] of its rows and of its title
    links. *)
Definition offers (p : listing) (href : string) : Prop :=
  (exists rows, l_rows p = Done rows /\ In (Href (Some href)) rows)
  \/ (exists cards, l_cards p = Done cards /\ In (Href (Some href)) cards).

(** A list page of three books, the second linked twice, whose table rows
    start with a header row. *)
Definition shelf : nat -> listing :=
  fun _ => MkListing (Done [Stale; Href (Some "/book/1"); Href (Some "/book/2")])
             (Done [Href (Some "/book/2"); Href None; Href (Some "/book/3")])
             false.

(** The sign bit of a float; a NaN has none here. *)
Definition sign_of (f : spec_float) : bool :=
  match f with
  | S754_zero s | S754_infinity s | S754_finite s _ _ => s
  | S754_nan => false
  end.

(** The float 4.5. *)
Definition f_4_5 : spec_float := S754_finite false 5066549580791808 (-50).

(** The links of the records that have one. *)
Definition product_links (rows : list Item) : list string :=
  List.filter (fun k => negb (String.eqb k "")) (List.map ProductURL rows).

(** The record was read from one of the first [MAX_PAGES] result pages. *)
Definition listed (select_cards : string -> list card) (page_source : Z -> browsed string)
  (it : Item) : Prop :=
  exists page html,
    1 <= page <= MAX_PAGES
    /\ page_source page = Done html
    /\ In it (parse_results_page_html select_cards html).

(** Result pages that all show the same three cards, and a browser that
    always finds a next page. *)
Definition same_page : Z -> browsed string := fun _ => Done "<html></html>".
Definition always_next : Z -> bool := fun _ => true.

(** The row of the Dawn frame made of an article. *)
Definition stamped (now : string) (a : article) : dawn_record :=
  MkDawnRecord (VStr (headline a)) (VStr (url a)) now "dawn.com".

(** The article was parsed from a page that answered, with status 200, a
    request for one of the endpoints. *)
Definition from_endpoint (net : nat -> string -> answer)
  (select_anchors : string -> list anchor) (urljoin : string -> string -> outcome string)
  (urls : list string) (a : article) : Prop :=
  exists u k html rows,
    In u urls
    /\ net k u = Response 200 html
    /\ parse_dawn_articles select_anchors urljoin html "https://www.dawn.com" = Return rows
    /\ In a rows.

(** The endpoints, each with the page that answers it and the articles of
    that page: the [i]-th request of the run from [w] on gets the [i]-th
    page. *)
Definition served (net : nat -> string -> answer)
  (select_anchors : string -> list anchor) (urljoin : string -> string -> outcome string)
  (w : io) (pages : list (string * string * list article)) : Prop :=
  forall i u html rows,
    nth_error pages i = Some (u, html, rows) ->
    net (sent w + i)%nat u = Response 200 html
    /\ parse_dawn_articles select_anchors urljoin html "https://www.dawn.com" = Return rows.

(** The anchor a Dawn row is made of. *)
Definition row_of (urljoin : string -> string -> outcome string) (base : string)
  (a : anchor) (r : article) : Prop :=
  let href := Str.strip (match a_href a with Some h => h | None => "" end) in
  Str.contains "/news/" href = true
  /\ headline r = Str.strip (Str.replace "Image:" "" (a_text a))
  /\ (5 <= String.length (headline r))%nat
  /\ urljoin base href = Return (url r).

(** A server that answers every request with the same page. *)
Definition net_page : nat -> string -> answer := fun _ _ => Response 200 "<html></html>".

(** A [urljoin] that refuses one reference, as the library does for a
    malformed host, and a page with a headline linked to it. *)
Definition join_strict : string -> string -> outcome string :=
  fun base href =>
    if Str.startswith "//[" href then Raise ValueError else Return (base ++ href).

Definition bad_anchor : string -> list anchor :=
  fun _ => [MkAnchor (Some "/news/1") "Budget passed";
            MkAnchor (Some "//[/news/2") "Rain in Karachi"].

(** The cells of the columns [names] are values the function [f] returns. *)
Definition image_on (f : value -> outcome value) (names : list string)
  (g : string -> value) : Prop :=
  forall n, In n names -> exists x, f x = Return (g n).

(** The columns of a main-board frame that has rows, and a row of it. *)
Definition board_stamped : list string :=
  ["Index Name"; "LDCP"; "Open"; "High"; "Low"; "Current"; "Change"; "Volume";
   "scraped_at"; "source"].

Definition board_row (float_repr : spec_float -> string) (now : string) (r : list value)
  : Prop :=
  exists idx ldcp open high low cur chg vol,
    r = [idx; ldcp; open; high; low; cur; chg; vol; VStr now;
         VStr "psx.com.pk/market-summary"]
    /\ Forall (normal float_repr) [ldcp; open; high; low; cur; chg; vol].

(** What the pandas functions owe [collect_mainboard_from_market_summary]:
    the concatenation of the picked tables has one cell per column in each
    row, and labels that stay distinct once renamed. *)
Definition well_formed_boards (read_html : string -> outcome (list DataFrame))
  (upper : string -> string) (concat : list DataFrame -> DataFrame) : Prop :=
  forall html tables,
    read_html html = Return tables ->
    aligned (concat (List.filter (board_table upper) tables))
    /\ NoDup (List.map (board_label upper)
                (columns (concat (List.filter (board_table upper) tables)))).

(** [str.upper] on the letters a-z, other characters left as they are, and
    a concatenation that knows the list of one table only. *)
Definition upper_az (s : string) : string :=
  Str.map (fun c => if Str.in_range 97 122 c then ascii_of_N (Str.code c - 32) else c) s.

Definition concat_single (frames : list DataFrame) : DataFrame :=
  match frames with
  | [df] => df
  | _ => MkFrame [] []
  end.

(** A page with one main-board table, and a page without tables. *)
Definition board_sample : DataFrame :=
  MkFrame ["SCRIP"; "LDCP"; "OPEN"; "HIGH"; "LOW"; "CURRENT"; "CHANGE"; "VOLUME"]
    [[VStr "HBL"; VStr "100.0"; VStr "100.0"; VStr "100.0"; VStr "100.0"; VStr "100.0";
      VStr "2.5"; VStr "1,000"]].

(** The frame made of that table at the clock reading below. *)
Definition board_sample_frame : DataFrame :=
  MkFrame board_stamped
    [[VStr "HBL"; VFloat f_100; VFloat f_100; VFloat f_100; VFloat f_100; VFloat f_100;
      VFloat f_2_5; VFloat (S754_finite false 8796093022208000 (-43));
      VStr "2025-01-01T00:00:00+05:00"; VStr "psx.com.pk/market-summary"]].

Definition read_board : string -> outcome (list DataFrame) :=
  fun _ => Return [table_name_value; board_sample].

Definition read_nothing : string -> outcome (list DataFrame) :=
  fun _ => Raise ValueError.

(** What [pd.read_html] owes [collect_indices_from_dps]: tables whose rows
    have one cell per column and whose labels stay distinct once renamed. *)
Definition well_formed_tables (read_html : string -> outcome (list DataFrame)) : Prop :=
  forall html tables,
    read_html html = Return tables ->
    Forall (fun t => aligned t /\ NoDup (List.map rename_label (columns t))) tables.

(** A page whose tables are one without rows and the sample table, and a
    page that shows no date. *)
Definition read_indices : string -> outcome (list DataFrame) :=
  fun _ => Return [MkFrame ["Index"; "High"; "Low"; "Current"; "Change"] []; table_finite].

Definition no_date : string -> option string := fun _ => None.

(** A numeral with its sign. *)
Definition signed (neg : bool) (t : string) : string :=
  if neg then String "-" t else t.

(** The float nearest to -1.25. *)
Definition f_neg_1_25 : spec_float := S754_finite true 5629499534213120 (-52).

(** The pauses of a run: for each [time.sleep] of the fetcher, the attempt
    it follows and the bound of its random part. *)
Fixpoint pauses (tr : list event) : list (nat * Q) :=
  match tr with
  | [] => []
  | EvSleep _ attempt jitter_max :: rest => (attempt, jitter_max) :: pauses rest
  | _ :: rest => pauses rest
  end.

(** The pause an answer other than a 200 is followed by, if any. *)
Definition pause_after (a : answer) : option Q :=
  match a with
  | Failed _ => Some (3 # 10)
  | Response status_code _ =>
      if existsb (Z.eqb status_code) transient then Some (4 # 10)
      else if (400 <=? status_code) && (status_code <? 600) then Some (3 # 10)
      else None
  end.

(** The pauses after the [n] answers from the [k]-th on, the first of them
    being that of attempt [attempt]. *)
Fixpoint pauses_after (net : nat -> string -> answer) (url : string) (k attempt n : nat)
  : list (nat * Q) :=
  match n with
  | O => []
  | S n' =>
      (match pause_after (net k url) with
       | Some q => [(attempt, q)]
       | None => []
       end ++ pauses_after net url (S k) (S attempt) n')%list
  end.

(** A server that answers 204 to everything. *)
Definition net_204 : nat -> string -> answer := fun _ _ => Response 204 "".

(** A site where every page loads, and list pages that are there or never
    come. *)
Definition load_fine : nat -> string -> option driver_error := fun _ _ => None.
Definition list_there : nat -> option driver_error := fun _ => None.
Definition list_missing : nat -> option driver_error := fun _ => Some TimeoutException.

(** A record of a book as the frame wants it: a title and an author, a
    rating that is missing or not negative, a number of reviews that is an
    integer, not negative, or the text "Not Available". *)
Definition well_formed_book (d : book) : Prop :=
  b_title d <> ""
  /\ b_author d <> ""
  /\ (Py.is_nan (b_rating d) = true
      \/ (sign_of (b_rating d) = false /\ Py.is_nan (b_rating d) = false))
  /\ (b_reviews d = VStr "Not Available"
      \/ exists cnt, b_reviews d = VInt cnt /\ 0 <= cnt).

(** A book page that gives a title, a rating of -4.5 as its text has it,
    and a number of reviews in a [meta] element. *)
Definition page_of_book : book_page :=
  MkBookPage (Done "https://www.goodreads.com/book/show/1")
    (Done "<html><h1>Dune</h1></html>") true
    (fun sel =>
       if String.eqb sel "//h1" then Some (MkElement (Some " Dune ") (Some "h1") (Some None))
       else if String.eqb sel "div.RatingStatistics__rating"
            then Some (MkElement (Some "-4.5") (Some "div") (Some None))
       else if String.eqb sel "meta[itemprop='reviewCount']"
            then Some (MkElement (Some "") (Some "META") (Some (Some "1,204")))
       else None)
    (fun _ => None).

(** * Properties *)

(** ** Values of the coercions *)

Lemma rounds_1234_5 : rounds (2469 # 2) f_1234_5.
Proof. split; [reflexivity | vm_compute; discriminate]. Qed.

Lemma rounds_neg_3_2 : rounds (- (32 # 10)) f_neg_3_2.
Proof. split; [reflexivity | vm_compute; discriminate]. Qed.

Lemma rounds_3_0 : rounds 3 f_3_0.
Proof. split; [reflexivity | vm_compute; discriminate]. Qed.

(** C6: the values the coercions give on the five sample inputs:
    [_to_float("1,234.50")] is 1234.5, [_to_percent("-3.2%")] is the float
    nearest -3.2, [parse_int("12,000")] is 12000, and [_to_float] of ["--"]
    and of [""] is [pd.NA]. *)
Theorem coercion_sample_values :
  forall float_repr : spec_float -> string,
    _to_float float_repr (VStr "1,234.50") = Return (VFloat f_1234_5)
    /\ (Py.to_Q f_1234_5 == 2469 # 2)%Q
    /\ _to_percent float_repr (VStr "-3.2%") = Return (VFloat f_neg_3_2)
    /\ rounds (- (32 # 10)) f_neg_3_2
    /\ parse_int "12,000" = Return (Some 12000)
    /\ _to_float float_repr (VStr "--") = Return NA
    /\ _to_float float_repr (VStr "") = Return NA.
Proof.
  intro float_repr.
  repeat split; try (vm_compute; reflexivity); try (vm_compute; discriminate).
Qed.

(** ** The Fetcher retries every failure *)

Lemma sent_emit : forall ev w, sent (emit ev w) = sent w.
Proof. reflexivity. Qed.

(** When none of the [todo] answers still to come is a 200, the loop sends
    all [todo] requests and raises. *)
Lemma get_html_loop_exhausts :
  forall net url backoff todo attempt last_err w,
    (forall i, (i < todo)%nat -> ok200 (net (sent w + i)%nat url) = false) ->
    exists last_err' w',
      get_html_loop net url backoff todo attempt last_err w
      = (Raise (RuntimeError (FailedToFetch url last_err')), w')
      /\ sent w' = (sent w + todo)%nat.
Proof.
  intros net url backoff todo.
  induction todo as [|todo IH]; intros attempt last_err w Hfail.
  - exists last_err, w. simpl. split; [reflexivity | lia].
  - assert (H0 : ok200 (net (sent w) url) = false).
    { specialize (Hfail O). rewrite Nat.add_0_r in Hfail. apply Hfail. lia. }
    assert (Hrest : forall w1, sent w1 = S (sent w) ->
              forall i, (i < todo)%nat -> ok200 (net (sent w1 + i)%nat url) = false).
    { intros w1 Hw1 i Hi. rewrite Hw1.
      replace (S (sent w) + i)%nat with (sent w + S i)%nat by lia.
      apply Hfail. lia. }
    assert (Hnext : forall a l w1, sent w1 = S (sent w) ->
              exists last_err' w',
                get_html_loop net url backoff todo a l w1
                = (Raise (RuntimeError (FailedToFetch url last_err')), w')
                /\ sent w' = (sent w + S todo)%nat).
    { intros a l w1 Hw1.
      destruct (IH a l w1 (Hrest w1 Hw1)) as (l' & w' & Heq & Hs).
      exists l', w'. split; [exact Heq | lia]. }
    cbn [get_html_loop requests_get].
    destruct (net (sent w) url) as [status_code text | e].
    + simpl in H0. rewrite H0.
      destruct (existsb (Z.eqb status_code) transient); [apply Hnext; reflexivity |].
      unfold raise_for_status.
      destruct ((400 <=? status_code) && (status_code <? 600));
        apply Hnext; reflexivity.
    + apply Hnext; reflexivity.
Qed.

(** When the first 200 among the answers to come is the [i]-th, the loop
    sends [i + 1] requests and returns its text. *)
Lemma get_html_loop_succeeds :
  forall net url backoff i todo attempt last_err w text,
    (i < todo)%nat ->
    (forall j, (j < i)%nat -> ok200 (net (sent w + j)%nat url) = false) ->
    net (sent w + i)%nat url = Response 200 text ->
    exists w',
      get_html_loop net url backoff todo attempt last_err w = (Return text, w')
      /\ sent w' = (sent w + i + 1)%nat.
Proof.
  intros net url backoff i.
  induction i as [|i IH]; intros todo attempt last_err w text Hlt Hfail Hok.
  - destruct todo as [|todo]; [lia |].
    cbn [get_html_loop requests_get].
    rewrite Nat.add_0_r in Hok. rewrite Hok. simpl.
    eexists. split; [reflexivity | simpl; lia].
  - destruct todo as [|todo]; [lia |].
    assert (H0 : ok200 (net (sent w) url) = false).
    { specialize (Hfail O). rewrite Nat.add_0_r in Hfail. apply Hfail. lia. }
    assert (Hnext : forall a l w1, sent w1 = S (sent w) ->
              exists w',
                get_html_loop net url backoff todo a l w1 = (Return text, w')
                /\ sent w' = (sent w + S i + 1)%nat).
    { intros a l w1 Hw1.
      destruct (IH todo a l w1 text) as (w' & Heq & Hs).
      - lia.
      - intros j Hj. rewrite Hw1.
        replace (S (sent w) + j)%nat with (sent w + S j)%nat by lia.
        apply Hfail. lia.
      - rewrite Hw1.
        replace (S (sent w) + i)%nat with (sent w + S i)%nat by lia. exact Hok.
      - exists w'. split; [exact Heq | lia]. }
    cbn [get_html_loop requests_get].
    destruct (net (sent w) url) as [status_code t | e].
    + simpl in H0. rewrite H0.
      destruct (existsb (Z.eqb status_code) transient); [apply Hnext; reflexivity |].
      unfold raise_for_status.
      destruct ((400 <=? status_code) && (status_code <? 600));
        apply Hnext; reflexivity.
    + apply Hnext; reflexivity.
Qed.

(** C2, refuted as stated: a status that is neither 200 nor transient does
    not end the fetch at once.  Against a server that always answers 404,
    [get_html] with three tries sends three requests, not one. *)
Lemma get_html_retries_404 :
  ~ (forall net url retries backoff w status_code text,
        net (sent w) url = Response status_code text ->
        status_code <> 200 ->
        ~ In status_code transient ->
        (0 < retries)%nat ->
        sent (snd (get_html net url retries backoff w)) = S (sent w)).
Proof.
  intro H.
  specialize (H net_404 "https://www.dawn.com" 3%nat (16 # 10)%Q io0 404 "").
  assert (Hs : sent (snd (get_html net_404 "https://www.dawn.com" 3 (16 # 10) io0)) = 3%nat)
    by reflexivity.
  rewrite Hs in H. simpl in H.
  assert (3 = 1)%nat; [| discriminate].
  apply H; [reflexivity | discriminate | | lia].
  unfold transient. simpl. intuition discriminate.
Qed.

(** C2, amended: every attempt that does not get a 200 is followed by the
    next attempt, whatever the status or error.  If none of the [retries]
    answers is a 200, [get_html] sends all [retries] requests and only then
    raises its [RuntimeError]; if the first 200 is the answer to attempt [i],
    it sends [i + 1] requests and returns that text. *)
Theorem get_html_retries_until_200 :
  forall net url retries backoff w,
    ((forall i, (i < retries)%nat -> ok200 (net (sent w + i)%nat url) = false) ->
     exists last_err w',
       get_html net url retries backoff w
       = (Raise (RuntimeError (FailedToFetch url last_err)), w')
       /\ sent w' = (sent w + retries)%nat)
    /\
    (forall i text,
       (i < retries)%nat ->
       (forall j, (j < i)%nat -> ok200 (net (sent w + j)%nat url) = false) ->
       net (sent w + i)%nat url = Response 200 text ->
       exists w',
         get_html net url retries backoff w = (Return text, w')
         /\ sent w' = (sent w + i + 1)%nat).
Proof.
  intros net url retries backoff w. split.
  - intro Hfail. unfold get_html. apply get_html_loop_exhausts. exact Hfail.
  - intros i text Hlt Hfail Hok. unfold get_html.
    apply get_html_loop_succeeds; assumption.
Qed.

Lemma get_html_retries_until_200_witness :
  (exists last_err w',
      get_html net_404 "u" 3 (16 # 10) io0
      = (Raise (RuntimeError (FailedToFetch "u" last_err)), w')
      /\ sent w' = 3%nat)
  /\ (exists w',
        get_html net_404_then_page "u" 3 (16 # 10) io0 = (Return "<html></html>", w')
        /\ sent w' = 2%nat).
Proof.
  split.
  - apply (proj1 (get_html_retries_until_200 net_404 "u" 3 (16 # 10) io0)).
    intros i _. reflexivity.
  - apply (proj2 (get_html_retries_until_200 net_404_then_page "u" 3 (16 # 10) io0)
             1%nat "<html></html>").
    + lia.
    + intros j Hj. assert (j = O) by lia. subst j. reflexivity.
    + reflexivity.
Defined.

(** ** The Dawn collector contains the failure of an endpoint *)

Lemma warned_app : forall t1 t2, warned (t1 ++ t2) = (warned t1 ++ warned t2)%list.
Proof.
  induction t1 as [|ev t1 IH]; intro t2; [reflexivity |].
  destruct ev; simpl; rewrite IH; reflexivity.
Qed.

(** [get_html] itself warns about nothing. *)
Lemma get_html_loop_warned :
  forall net url backoff todo attempt last_err w,
    warned (trace (snd (get_html_loop net url backoff todo attempt last_err w)))
    = warned (trace w).
Proof.
  intros net url backoff todo.
  induction todo as [|todo IH]; intros attempt last_err w; [reflexivity |].
  cbn [get_html_loop requests_get].
  destruct (net (sent w) url) as [status_code text | e].
  - destruct (status_code =? 200).
    + simpl. rewrite warned_app. simpl. apply app_nil_r.
    + destruct (existsb (Z.eqb status_code) transient).
      * rewrite IH. unfold emit. simpl. rewrite !warned_app. simpl.
        rewrite !app_nil_r. reflexivity.
      * unfold raise_for_status.
        destruct ((400 <=? status_code) && (status_code <? 600)); rewrite IH;
          unfold emit; simpl; rewrite !warned_app; simpl; rewrite !app_nil_r;
          reflexivity.
  - rewrite IH. unfold emit. simpl. rewrite !warned_app. simpl.
    rewrite !app_nil_r. reflexivity.
Qed.

(** An endpoint none of whose three answers is a 200 is skipped: one
    warning, and the loop goes on with the buffer as it was. *)
Lemma collect_loop_skips :
  forall net sel uj u rest n collected w,
    (forall i, (i < 3)%nat -> ok200 (net (sent w + i)%nat u) = false) ->
    exists e w1,
      sent w1 = (sent w + 3)%nat
      /\ warned (trace w1) = warned (trace w)
      /\ collect_loop net sel uj (u :: rest) n collected w
         = collect_loop net sel uj rest n collected (emit (EvWarn u e) w1).
Proof.
  intros net sel uj u rest n collected w Hfail.
  destruct (get_html_loop_exhausts net u (16 # 10) 3 O None w Hfail)
    as (l & w1 & Heq & Hs).
  exists (RuntimeError (FailedToFetch u l)), w1.
  split; [exact Hs | split].
  - pose proof (get_html_loop_warned net u (16 # 10) 3 O None w) as Hw.
    rewrite Heq in Hw. exact Hw.
  - cbn [collect_loop]. unfold get_html. rewrite Heq. reflexivity.
Qed.

Lemma collect_loop_all_fail :
  forall net sel uj n urls collected w,
    (forall k u, ok200 (net k u) = false) ->
    exists w',
      collect_loop net sel uj urls n collected w = (collected, w')
      /\ sent w' = (sent w + 3 * List.length urls)%nat
      /\ warned (trace w') = (warned (trace w) ++ urls)%list.
Proof.
  intros net sel uj n urls.
  induction urls as [|u rest IH]; intros collected w Hfail.
  - exists w. simpl. rewrite app_nil_r. repeat split; lia.
  - destruct (collect_loop_skips net sel uj u rest n collected w) as (e & w1 & Hs & Hw & Heq).
    { intros i _. apply Hfail. }
    destruct (IH collected (emit (EvWarn u e) w1) Hfail) as (w' & Heq' & Hs' & Hw').
    exists w'. rewrite Heq, Heq'. split; [reflexivity | split].
    + rewrite Hs', sent_emit, Hs. simpl. lia.
    + rewrite Hw'. unfold emit. simpl. rewrite warned_app, Hw. simpl.
      rewrite <- app_assoc. reflexivity.
Qed.

(** C1, refuted as stated: when every endpoint fails the collector does not
    raise.  Against a server that always answers 404 both fetches of
    [BASE_URLS] fail, and [collect_dawn_headlines] returns the empty frame. *)
Lemma collect_all_fail_returns :
  ~ (forall net sel uj n now w,
        (forall u w0, In u BASE_URLS ->
                      returns (fst (get_html net u 3 (16 # 10) w0)) = false) ->
        exists e, fst (collect_dawn_headlines net sel uj n now w) = Raise e).
Proof.
  intro H.
  destruct (H net_404 no_anchors join_plain 30 "2025-01-01 00:00:00" io0) as (e & He).
  - intros u w0 _. reflexivity.
  - vm_compute in He. discriminate.
Qed.

(** C1, amended: the failure of an endpoint, in the fetch or in the parsing
    of its page, is caught, logged as one warning, and the collector goes on
    with the next endpoint, and the collector itself never raises.  For
    every list of endpoints it returns a frame.  An endpoint whose fetch or
    parse raises leaves the run as the run over the remaining endpoints, one
    warning later: at the head of the list; at any turn of the loop,
    whatever the buffer holds then, the buffer being passed on as it is; and
    so, when the run reaches an endpoint anywhere in the list with some rows
    in the buffer and that endpoint fails, the frame returned is made of
    these rows and of those of the endpoints after it.  When every fetch
    fails the frame returned is empty, each endpoint having been tried three
    times and warned about once, in order. *)
Theorem collect_contains_failures :
  forall net sel uj urls n now w,
    (exists df w', collect_from net sel uj urls n now w = (Return df, w'))
    /\ (forall u rest r w1 e,
          urls = u :: rest ->
          get_html net u 3 (16 # 10) w = (r, w1) ->
          bind r (fun html => parse_dawn_articles sel uj html "https://www.dawn.com")
          = Raise e ->
          collect_from net sel uj urls n now w
          = collect_from net sel uj rest n now (emit (EvWarn u e) w1))
    /\ (forall u rest collected w0 r w1 e,
          get_html net u 3 (16 # 10) w0 = (r, w1) ->
          bind r (fun html => parse_dawn_articles sel uj html "https://www.dawn.com")
          = Raise e ->
          collect_loop net sel uj (u :: rest) n collected w0
          = collect_loop net sel uj rest n collected (emit (EvWarn u e) w1))
    /\ (forall pre u post collected w0 r w1 e,
          urls = (pre ++ u :: post)%list ->
          collect_loop net sel uj urls n [] w
          = collect_loop net sel uj (u :: post) n collected w0 ->
          get_html net u 3 (16 # 10) w0 = (r, w1) ->
          bind r (fun html => parse_dawn_articles sel uj html "https://www.dawn.com")
          = Raise e ->
          collect_from net sel uj urls n now w
          = (Return
               (List.map (stamped now)
                  (slice_to n
                     (fst (collect_loop net sel uj post n collected
                             (emit (EvWarn u e) w1))))),
             snd (collect_loop net sel uj post n collected (emit (EvWarn u e) w1))))
    /\ ((forall k u, ok200 (net k u) = false) ->
        exists w',
          collect_from net sel uj urls n now w = (Return [], w')
          /\ sent w' = (sent w + 3 * List.length urls)%nat
          /\ warned (trace w') = (warned (trace w) ++ urls)%list).
Proof.
  intros net sel uj urls n now w. split; [| split; [| split; [| split]]].
  - unfold collect_from.
    destruct (collect_loop net sel uj urls n [] w) as [collected w1].
    eexists. eexists. reflexivity.
  - intros u rest r w1 e -> Hget Hraise.
    unfold collect_from. cbn [collect_loop]. rewrite Hget, Hraise. reflexivity.
  - intros u rest collected w0 r w1 e Hget Hraise.
    cbn [collect_loop]. rewrite Hget, Hraise. reflexivity.
  - intros pre u post collected w0 r w1 e _ Hreach Hget Hraise.
    unfold collect_from. rewrite Hreach. cbn [collect_loop]. rewrite Hget, Hraise.
    destruct (collect_loop net sel uj post n collected (emit (EvWarn u e) w1))
      as [kept w']. cbn [fst snd]. rewrite !List.map_map. reflexivity.
  - intro Hfail.
    destruct (collect_loop_all_fail net sel uj n urls [] w Hfail) as (w' & Heq & Hs & Hw).
    exists w'. split; [| split; assumption].
    unfold collect_from. rewrite Heq.
    unfold slice_to. destruct (0 <=? n); simpl; rewrite ?firstn_nil; reflexivity.
Qed.

Lemma collect_contains_failures_witness :
  (exists e w1,
      collect_from net_404 no_anchors join_plain BASE_URLS 30 "" io0
      = collect_from net_404 no_anchors join_plain
          ["https://www.dawn.com/latest-news"] 30 ""
          (emit (EvWarn "https://www.dawn.com" e) w1))
  /\ (exists w',
        collect_from net_404 no_anchors join_plain BASE_URLS 30 "" io0 = (Return [], w')
        /\ sent w' = 6%nat
        /\ warned (trace w') = BASE_URLS)
  /\ (exists w',
        collect_from net_page_then_404 three_anchors join_plain BASE_URLS 30 "" io0
        = (Return (List.map (stamped "")
                     [MkArticle "Budget passed" "https://www.dawn.com/news/1";
                      MkArticle "Rain in Karachi" "https://www.dawn.com/news/2"]), w')
        /\ sent w' = 4%nat
        /\ warned (trace w') = ["https://www.dawn.com/latest-news"]).
Proof.
  pose proof (collect_contains_failures net_404 no_anchors join_plain
                BASE_URLS 30 "" io0) as (_ & Hskip & _ & _ & Hall).
  pose proof (collect_contains_failures net_page_then_404 three_anchors join_plain
                BASE_URLS 30 "" io0) as (_ & _ & _ & Hlater & _).
  split; [| split].
  - eexists. eexists.
    eapply (Hskip "https://www.dawn.com" ["https://www.dawn.com/latest-news"]).
    + reflexivity.
    + vm_compute. reflexivity.
    + reflexivity.
  - apply Hall. intros k u. reflexivity.
  - eexists. split; [| split].
    + eapply (Hlater ["https://www.dawn.com"] "https://www.dawn.com/latest-news" []
                [MkArticle "Budget passed" "https://www.dawn.com/news/1";
                 MkArticle "Rain in Karachi" "https://www.dawn.com/news/2"]
                (MkIO 1 [EvGet "https://www.dawn.com"])).
      * reflexivity.
      * vm_compute. reflexivity.
      * vm_compute. reflexivity.
      * reflexivity.
    + reflexivity.
    + reflexivity.
Defined.

(** ** The Table Selector *)

Lemma count_in_nonneg : forall tok cols, 0 <= count_in tok cols.
Proof. intros. unfold count_in. lia. Qed.

Lemma score_nonneg : forall df, 0 <= score df.
Proof.
  intro df. unfold score.
  repeat match goal with
         | |- context [count_in ?t ?c] =>
             pose proof (count_in_nonneg t c); generalize dependent (count_in t c); intros
         end.
  lia.
Qed.

(** What the loop returns: either nothing beat the best so far, or the
    table returned is the first of the highest score among those with rows. *)
Lemma pick_loop_spec :
  forall tables best_df best_score,
    (pick_loop tables best_df best_score = (best_df, best_score)
     /\ forall d, In d tables -> has_rows d = true -> score d <= best_score)
    \/
    (exists pre d post,
        tables = (pre ++ d :: post)%list
        /\ pick_loop tables best_df best_score = (Some d, score d)
        /\ has_rows d = true
        /\ best_score < score d
        /\ (forall d', In d' pre -> has_rows d' = true -> score d' < score d)
        /\ (forall d', In d' post -> has_rows d' = true -> score d' <= score d)).
Proof.
  induction tables as [|df rest IH]; intros best_df best_score.
  - left. split; [reflexivity | intros d []].
  - cbn [pick_loop]. fold (has_rows df).
    destruct ((score df >? best_score) && has_rows df) eqn:Htake.
    + apply andb_true_iff in Htake as [Hgt Hrows].
      apply Z.gtb_lt in Hgt.
      destruct (IH (Some df) (score df)) as [[Heq Hle] | (pre & d & post & Ht & Heq & Hr & Hlt & Hpre & Hpost)].
      * right. exists [], df, rest. repeat split; try assumption.
        intros d' [].
      * right. exists (df :: pre), d, post. subst rest.
        repeat split; try assumption; try lia.
        intros d' [<- | Hin] Hr'; [lia | apply Hpre; assumption].
    + assert (Hhead : has_rows df = true -> score df <= best_score).
      { intro Hr. rewrite Hr, andb_true_r in Htake.
        destruct (Z.gtb_spec (score df) best_score); [discriminate | lia]. }
      destruct (IH best_df best_score) as [[Heq Hle] | (pre & d & post & Ht & Heq & Hr & Hlt & Hpre & Hpost)].
      * left. split; [exact Heq |].
        intros d [<- | Hin] Hr; [apply Hhead; exact Hr | apply Hle; assumption].
      * right. exists (df :: pre), d, post. subst rest.
        repeat split; try assumption.
        intros d' [<- | Hin] Hr'; [specialize (Hhead Hr'); lia | apply Hpre; assumption].
Qed.

(** From the start of the loop: nothing is picked exactly when no table has
    rows. *)
Lemma pick_loop_start :
  forall tables,
    (fst (pick_loop tables None (-1)) = None
     /\ forall d, In d tables -> has_rows d = false)
    \/
    (exists pre d post,
        tables = (pre ++ d :: post)%list
        /\ fst (pick_loop tables None (-1)) = Some d
        /\ has_rows d = true
        /\ (forall d', In d' pre -> has_rows d' = true -> score d' < score d)
        /\ (forall d', In d' post -> has_rows d' = true -> score d' <= score d)).
Proof.
  intro tables.
  destruct (pick_loop_spec tables None (-1))
    as [[Heq Hle] | (pre & d & post & Ht & Heq & Hr & Hlt & Hpre & Hpost)].
  - left. rewrite Heq. split; [reflexivity |].
    intros d Hin. destruct (has_rows d) eqn:Hr; [| reflexivity].
    specialize (Hle d Hin Hr). pose proof (score_nonneg d). lia.
  - right. exists pre, d, post. rewrite Heq. repeat split; assumption.
Qed.

(** C3, refuted as stated: the selector does not fail when every candidate
    matches no token.  A table with headers Name and Value and one row
    scores 0 and is returned. *)
Lemma pick_best_returns_unmatched :
  ~ (forall tables,
        (exists e, pick_best tables = Raise e)
        <-> (tables = [] \/ forall d, In d tables -> score d = 0)).
Proof.
  intro H.
  destruct (proj2 (H [table_name_value])) as (e & He).
  - right. intros d [<- | []]. reflexivity.
  - vm_compute in He. discriminate.
Qed.

(** C3, amended: the selector fails, with its [RuntimeError], exactly when
    no candidate has a row, or when every candidate with rows scores 0 and
    the first of them has no column; a candidate with rows and columns is
    returned even when no token matches.  In particular it returns a
    candidate whenever one with rows matches a token. *)
Theorem pick_best_fails_iff :
  forall tables,
    (pick_best tables = Raise (RuntimeError NoIndicesTable)
     <-> ((forall d, In d tables -> has_rows d = false)
          \/ (exists d, find has_rows tables = Some d
                        /\ columns d = []
                        /\ forall d', In d' tables -> has_rows d' = true -> score d' = 0)))
    /\ ((exists d, In d tables /\ has_rows d = true /\ 0 < score d) ->
        exists best, pick_best tables = Return best).
Proof.
  intro tables.
  assert (Hcols : forall d, columns d = [] -> score d = 0).
  { intros d Hc. unfold score. rewrite Hc. reflexivity. }
  assert (Hempty : forall d, has_rows d = true -> empty d = true -> columns d = []).
  { intros d Hr He. unfold empty in He. unfold has_rows in Hr.
    apply Nat.ltb_lt in Hr. apply orb_true_iff in He as [He | He].
    - apply Nat.eqb_eq in He. destruct (columns d); [reflexivity | discriminate].
    - apply Nat.eqb_eq in He. lia. }
  assert (Hfind : forall pre d post,
             has_rows d = true ->
             (forall d', In d' pre -> has_rows d' = true -> score d' < score d) ->
             score d = 0 ->
             find has_rows (pre ++ d :: post) = Some d).
  { induction pre as [|x pre IH]; intros d post Hr Hpre H0; simpl.
    - rewrite Hr. reflexivity.
    - destruct (has_rows x) eqn:Hx.
      + specialize (Hpre x (or_introl eq_refl) Hx). pose proof (score_nonneg x). lia.
      + apply IH; auto. intros d' Hin. apply Hpre. right. exact Hin. }
  destruct (pick_loop_start tables)
    as [[Hnone Hno] | (pre & d & post & Ht & Hsome & Hr & Hpre & Hpost)].
  - split.
    + unfold pick_best. rewrite Hnone. split; [intros _; left; exact Hno | reflexivity].
    + intros (d & Hin & Hr & _). rewrite (Hno d Hin) in Hr. discriminate.
  - assert (Hmax : forall d', In d' tables -> has_rows d' = true -> score d' <= score d).
    { intros d' Hin Hr'. subst tables. apply in_app_or in Hin as [Hin | [<- | Hin]].
      - specialize (Hpre d' Hin Hr'). lia.
      - lia.
      - apply Hpost; assumption. }
    assert (Hind : In d tables).
    { subst tables. apply in_or_app. right. left. reflexivity. }
    split.
    + unfold pick_best. rewrite Hsome. split.
      * intro Hraise. destruct (empty d) eqn:He; [| discriminate].
        right. exists d.
        pose proof (Hempty d Hr He) as Hc. pose proof (Hcols d Hc) as H0.
        split; [| split].
        -- subst tables. apply Hfind; assumption.
        -- exact Hc.
        -- intros d' Hin Hr'. specialize (Hmax d' Hin Hr').
           pose proof (score_nonneg d'). lia.
      * intros [Hno | (d0 & Hf & Hc & Hz)].
        -- rewrite (Hno d Hind) in Hr. discriminate.
        -- assert (d0 = d).
           { subst tables. rewrite Hfind in Hf; [congruence | assumption | assumption |].
             apply Hz; assumption. }
           subst d0. unfold empty. rewrite Hc. reflexivity.
    + intros (d1 & Hin & Hr1 & Hpos).
      unfold pick_best. rewrite Hsome.
      destruct (empty d) eqn:He; [| exists d; reflexivity].
      pose proof (Hcols d (Hempty d Hr He)) as H0.
      specialize (Hmax d1 Hin Hr1). lia.
Qed.

Lemma pick_best_fails_iff_witness :
  exists best, pick_best [table_name_value; table_index_high] = Return best.
Proof.
  apply (proj2 (pick_best_fails_iff [table_name_value; table_index_high])).
  exists table_index_high. split; [right; left; reflexivity | split; reflexivity].
Defined.

(** C4, refuted as stated: the candidate returned need not have the most
    expected tokens among its headers.  A label is counted once for every
    token it holds and a token once for every label holding it, so the
    headers High, High 52w score 2, as much as High, Low, and being first
    they win, with one token found against two. *)
Lemma pick_best_not_most_tokens :
  ~ (forall tables best,
        pick_best tables = Return best ->
        forall d, In d tables ->
                  spec_score header_tokens d <= spec_score header_tokens best).
Proof.
  intro H.
  specialize (H [table_high_high; table_high_low] table_high_high eq_refl
                table_high_low (or_intror (or_introl eq_refl))).
  vm_compute in H. apply H. reflexivity.
Qed.

(** A candidate without rows is passed over, whatever its score. *)
Lemma pick_best_skips_no_rows :
  pick_best [table_name_value; table_no_rows] = Return table_name_value
  /\ score table_name_value < score table_no_rows.
Proof. split; reflexivity. Qed.

Lemma score_sum :
  forall df,
    score df
    = fold_right Z.add 0
        (List.map
           (fun tok => count_in tok (List.map (fun c => Str.lower (Str.strip c)) (columns df)))
           header_tokens).
Proof. intro df. unfold score, header_tokens. simpl. lia. Qed.

(** C4, amended: the score of a candidate is the number of pairs of one of
    the six tokens and a header label, lower-cased, that holds it; the
    candidate returned has at least one row, scores at least as much as
    every candidate with rows, and strictly more than every candidate with
    rows before it.  The selector being a function of the list, a second call
    returns the same candidate. *)
Theorem pick_best_first_max_with_rows :
  forall tables best,
    pick_best tables = Return best ->
    score best
    = fold_right Z.add 0
        (List.map
           (fun tok => count_in tok (List.map (fun c => Str.lower (Str.strip c)) (columns best)))
           header_tokens)
    /\ exists pre post,
        tables = (pre ++ best :: post)%list
        /\ has_rows best = true
        /\ (forall d, In d pre -> has_rows d = true -> score d < score best)
        /\ (forall d, In d post -> has_rows d = true -> score d <= score best).
Proof.
  intros tables best Hpick. split; [apply score_sum |].
  unfold pick_best in Hpick.
  destruct (pick_loop_start tables)
    as [[Hnone _] | (pre & d & post & Ht & Hsome & Hr & Hpre & Hpost)].
  - rewrite Hnone in Hpick. discriminate.
  - rewrite Hsome in Hpick. destruct (empty d); [discriminate |].
    injection Hpick as <-. exists pre, post. repeat split; assumption.
Qed.

Lemma pick_best_first_max_with_rows_witness :
  score table_high_high
  = fold_right Z.add 0
      (List.map
         (fun tok => count_in tok
                       (List.map (fun c => Str.lower (Str.strip c)) (columns table_high_high)))
         header_tokens)
  /\ exists pre post,
      [table_name_value; table_high_high; table_high_low]
      = (pre ++ table_high_high :: post)%list
      /\ has_rows table_high_high = true
      /\ (forall d, In d pre -> has_rows d = true -> score d < score table_high_high)
      /\ (forall d, In d post -> has_rows d = true -> score d <= score table_high_high).
Proof.
  apply (pick_best_first_max_with_rows
           [table_name_value; table_high_high; table_high_low] table_high_high).
  reflexivity.
Defined.

(** ** The derived column *)

(** C7: for every record, [derive_ldcp] gives Current minus Change, the
    binary64 difference of the two cells read as floats, when both are
    present, and [pd.NA] when either is absent. *)
Theorem derive_ldcp_difference :
  forall cols row,
    let cur := row_get cols row "Current" NA in
    let chg := row_get cols row "Change" NA in
    (forall a b,
        notna cur = true -> notna chg = true ->
        float_of cur = Return a -> float_of chg = Return b ->
        derive_ldcp cols row = Return (VFloat (SFsub Py.prec Py.emax a b)))
    /\ (isna cur = true \/ isna chg = true -> derive_ldcp cols row = Return NA).
Proof.
  intros cols row cur chg. split.
  - intros a b Hcur Hchg Ha Hb. unfold derive_ldcp.
    fold cur. fold chg. rewrite Hcur, Hchg, Ha, Hb. reflexivity.
  - intros H. unfold derive_ldcp. fold cur. fold chg. unfold notna.
    destruct H as [H | H]; rewrite H; simpl; rewrite ?andb_false_r; reflexivity.
Qed.

Lemma derive_ldcp_difference_witness :
  derive_ldcp ["Current"; "Change"] [VFloat f_100; VFloat f_2_5] = Return (VFloat f_97_5)
  /\ derive_ldcp ["Current"; "Change"] [VFloat f_100; NA] = Return NA.
Proof.
  split.
  - apply (proj1 (derive_ldcp_difference ["Current"; "Change"] [VFloat f_100; VFloat f_2_5])
             f_100 f_2_5); reflexivity.
  - apply (proj2 (derive_ldcp_difference ["Current"; "Change"] [VFloat f_100; NA])).
    right. reflexivity.
Defined.

(** ** The Deduplicators *)

Lemma sublist_length :
  forall (A : Type) (l1 l2 : list A), sublist l1 l2 -> (List.length l1 <= List.length l2)%nat.
Proof. induction 1; simpl; lia. Qed.

Lemma sublist_map :
  forall (A B : Type) (f : A -> B) l1 l2, sublist l1 l2 -> sublist (List.map f l1) (List.map f l2).
Proof. induction 1; simpl; constructor; assumption. Qed.

Lemma sublist_filter :
  forall (A : Type) (p : A -> bool) l, sublist (List.filter p l) l.
Proof.
  induction l as [|x l IH]; simpl; [constructor |].
  destruct (p x); constructor; assumption.
Qed.

Lemma sublist_trans :
  forall (A : Type) (l2 l3 : list A),
    sublist l2 l3 -> forall l1, sublist l1 l2 -> sublist l1 l3.
Proof.
  induction 1; intros l0 H0.
  - exact H0.
  - constructor. apply IHsublist. exact H0.
  - inversion H0; subst.
    + constructor. apply IHsublist. assumption.
    + apply sublist_keep. apply IHsublist. assumption.
Qed.

Section Dedup.

Context {A : Type}.
Variable key : A -> string.

Variable keyless_unique : bool.

Lemma dedup_sublist : forall xs seen, sublist (dedup key keyless_unique seen xs) xs.
Proof.
  induction xs as [|x rest IH]; intro seen; simpl; [constructor |].
  destruct (tracked keyless_unique (key x) && existsb (String.eqb (key x)) seen);
    constructor; apply IH.
Qed.

Lemma existsb_eqb_cons :
  forall k k' seen,
    existsb (String.eqb k) (k' :: seen) = String.eqb k k' || existsb (String.eqb k) seen.
Proof. reflexivity. Qed.

(** The first record of each tracked keyless_unique key is the first one of the input,
    unless the key had been seen before. *)
Lemma dedup_find :
  forall xs seen k,
    tracked keyless_unique k = true ->
    find (has_key key k) (dedup key keyless_unique seen xs)
    = if existsb (String.eqb k) seen then None else find (has_key key k) xs.
Proof.
  induction xs as [|x rest IH]; intros seen k Hk; simpl.
  - destruct (existsb (String.eqb k) seen); reflexivity.
  - unfold has_key at 2. destruct (String.eqb_spec (key x) k) as [Heq | Hne].
    + subst k. rewrite Hk. simpl.
      destruct (existsb (String.eqb (key x)) seen) eqn:Hseen.
      * rewrite IH by exact Hk. rewrite Hseen. reflexivity.
      * simpl. unfold has_key at 1. rewrite String.eqb_refl. reflexivity.
    + destruct (tracked keyless_unique (key x) && existsb (String.eqb (key x)) seen) eqn:Hskip.
      * apply IH. exact Hk.
      * simpl. unfold has_key at 1.
        destruct (String.eqb_spec (key x) k) as [Heq | _]; [contradiction |].
        rewrite IH by exact Hk.
        destruct (tracked keyless_unique (key x)); [| reflexivity].
        rewrite existsb_eqb_cons.
        destruct (String.eqb_spec k (key x)) as [Heq | _]; [symmetry in Heq; contradiction |].
        reflexivity.
Qed.

(** The records whose key is not tracked keyless_unique are all kept. *)
Lemma dedup_untracked :
  forall xs seen,
    List.filter (fun x => negb (tracked keyless_unique (key x))) (dedup key keyless_unique seen xs)
    = List.filter (fun x => negb (tracked keyless_unique (key x))) xs.
Proof.
  induction xs as [|x rest IH]; intro seen; simpl; [reflexivity |].
  destruct (tracked keyless_unique (key x)) eqn:Ht; simpl.
  - destruct (existsb (String.eqb (key x)) seen); simpl; rewrite ?Ht; simpl; apply IH.
  - rewrite Ht. simpl. f_equal. apply IH.
Qed.

(** No tracked keyless_unique key is kept twice, and none that had been seen. *)
Lemma dedup_nodup :
  forall xs seen,
    NoDup (List.filter (tracked keyless_unique) (List.map key (dedup key keyless_unique seen xs)))
    /\ forall k, In k (List.filter (tracked keyless_unique) (List.map key (dedup key keyless_unique seen xs))) ->
                 existsb (String.eqb k) seen = false.
Proof.
  induction xs as [|x rest IH]; intro seen; simpl.
  - split; [constructor | intros k []].
  - destruct (tracked keyless_unique (key x)) eqn:Ht; simpl.
    + destruct (existsb (String.eqb (key x)) seen) eqn:Hseen; simpl.
      * apply IH.
      * rewrite Ht. destruct (IH (key x :: seen)) as [Hnd Hin]. split.
        -- constructor; [| exact Hnd].
           intro Hc. specialize (Hin _ Hc). rewrite existsb_eqb_cons in Hin.
           rewrite String.eqb_refl in Hin. discriminate.
        -- intros k [<- | Hk]; [exact Hseen |].
           specialize (Hin _ Hk). rewrite existsb_eqb_cons in Hin.
           apply orb_false_iff in Hin. apply Hin.
    + rewrite Ht. apply IH.
Qed.

End Dedup.

Lemma dawn_unique_dedup :
  forall rows seen, dawn_unique seen rows = dedup url false seen rows.
Proof.
  induction rows as [|row rest IH]; intro seen; simpl; [reflexivity |].
  unfold tracked. simpl.
  destruct (existsb (String.eqb (url row)) seen); simpl; rewrite IH; reflexivity.
Qed.

Lemma results_loop_dedup :
  forall cards seen,
    results_loop seen cards
    = List.map card_item (dedup card_href true seen (List.filter makes_item cards)).
Proof.
  induction cards as [|c rest IH]; intro seen; simpl; [reflexivity |].
  unfold makes_item, tracked. simpl.
  destruct (String.eqb (card_href c) "") eqn:Hh; simpl.
  - destruct (String.eqb (c_title c) ""); simpl.
    + apply IH.
    + unfold tracked. rewrite Hh. simpl. rewrite IH. reflexivity.
  - rewrite andb_false_r. simpl. unfold tracked. rewrite Hh. simpl.
    destruct (existsb (String.eqb (card_href c)) seen); simpl; rewrite IH; reflexivity.
Qed.

Lemma find_map :
  forall (A B : Type) (f : A -> B) (p : B -> bool) l,
    find p (List.map f l) = option_map f (find (fun x => p (f x)) l).
Proof.
  induction l as [|x l IH]; simpl; [reflexivity |].
  destruct (p (f x)); [reflexivity | exact IH].
Qed.

Lemma filter_map_comm :
  forall (A B : Type) (f : A -> B) (p : B -> bool) l,
    List.filter p (List.map f l) = List.map f (List.filter (fun x => p (f x)) l).
Proof.
  induction l as [|x l IH]; simpl; [reflexivity |].
  destruct (p (f x)); simpl; rewrite IH; reflexivity.
Qed.

Lemma filter_all :
  forall (A : Type) (p : A -> bool) l,
    (forall x, In x l -> p x = true) -> List.filter p l = l.
Proof.
  induction l as [|x l IH]; intros H; simpl; [reflexivity |].
  rewrite (H x (or_introl eq_refl)). f_equal. apply IH.
  intros y Hy. apply H. right. exact Hy.
Qed.

(** The rows of the first Dawn loop all have a URL, provided [urljoin]
    gives one for a reference that holds /news/. *)
Lemma dawn_rows_url :
  forall (uj : string -> string -> outcome string) base,
    (forall href u, Str.contains "/news/" href = true ->
                    uj base href = Return u -> u <> "") ->
    forall anchors rows,
      dawn_rows uj base anchors = Return rows ->
      forall r, In r rows -> url r <> "".
Proof.
  intros uj base Huj.
  induction anchors as [|a rest IH]; intros rows Hrows r Hin; simpl in Hrows.
  - injection Hrows as <-. destruct Hin.
  - destruct (Str.contains "/news/" (Str.strip match a_href a with Some h => h | None => "" end))
      eqn:Hnews; simpl in Hrows; [| eapply IH; eassumption].
    match type of Hrows with
    | (if ?c then _ else _) = _ => destruct c
    end; [eapply IH; eassumption |].
    destruct (uj base _) as [u | e] eqn:Hu; simpl in Hrows; [| discriminate].
    destruct (dawn_rows uj base rest) as [rows' | e]; simpl in Hrows; [| discriminate].
    injection Hrows as <-. destruct Hin as [<- | Hin].
    + simpl. eapply Huj; eassumption.
    + eapply IH; [reflexivity | exact Hin].
Qed.

(** C8: both deduplicators return at most as many records as they are
    given, in the order met, one record for each identity key, which is the
    first record of that key with its field values.  The Dawn parser keys
    its rows by URL, and every row has one; the Daraz parser keys its items
    by link and looks up and records only links that are not empty, so that
    the items without a link are all kept, identical or not. *)
Theorem dedup_keeps_first_occurrence :
  forall (sel : string -> list anchor) (uj : string -> string -> outcome string)
         (select_cards : string -> list card) (html base : string),
    (forall href u, Str.contains "/news/" href = true ->
                    uj base href = Return u -> u <> "") ->
    (forall out,
        parse_dawn_articles sel uj html base = Return out ->
        exists rows,
          dawn_rows uj base (sel html) = Return rows /\ dawn_deduplicated rows out)
    /\ daraz_deduplicated
         (List.map card_item (List.filter makes_item (select_cards html)))
         (parse_results_page_html select_cards html).
Proof.
  intros sel uj select_cards html base Huj. split.
  - intros out Hout. unfold parse_dawn_articles in Hout.
    destruct (dawn_rows uj base (sel html)) as [rows | e] eqn:Hrows; [| discriminate].
    simpl in Hout. injection Hout as <-. exists rows.
    unfold dawn_deduplicated. rewrite dawn_unique_dedup.
    pose proof (dedup_sublist url false rows []) as Hsub.
    split; [reflexivity |].
    split; [apply sublist_length; exact Hsub |].
    split; [exact Hsub |].
    split; [| split].
    + destruct (dedup_nodup url false rows []) as [Hnd _].
      rewrite filter_all in Hnd; [exact Hnd | reflexivity].
    + intro k. apply (dedup_find url false rows [] k). reflexivity.
    + eapply dawn_rows_url; eassumption.
  - unfold daraz_deduplicated, parse_results_page_html. rewrite results_loop_dedup.
    set (cs := List.filter makes_item (select_cards html)).
    pose proof (dedup_sublist card_href true cs []) as Hsub.
    split; [rewrite !length_map; apply sublist_length; exact Hsub |].
    split; [apply sublist_map; exact Hsub |].
    split; [| split].
    + rewrite map_map.
      destruct (dedup_nodup card_href true cs []) as [Hnd _].
      exact Hnd.
    + intros k Hk. rewrite !find_map.
      change (fun x : card => by_product_url k (card_item x)) with (has_key card_href k).
      rewrite (dedup_find card_href true cs [] k); [reflexivity |].
      unfold tracked. simpl. destruct (String.eqb_spec k ""); [contradiction | reflexivity].
    + rewrite !filter_map_comm. f_equal.
      pose proof (dedup_untracked card_href true cs []) as Hun.
      unfold tracked in Hun. simpl in Hun.
      assert (Hext : forall l,
                 List.filter (fun x : card => keyless (card_item x)) l
                 = List.filter (fun x : card => negb (negb (String.eqb (card_href x) ""))) l).
      { intro l. apply filter_ext. intro c. unfold keyless. simpl.
        rewrite negb_involutive. reflexivity. }
      rewrite !Hext. exact Hun.
Qed.

Lemma dedup_keeps_first_occurrence_witness :
  (exists rows,
      dawn_rows join_plain "https://www.dawn.com" (three_anchors "") = Return rows
      /\ dawn_deduplicated rows
           [MkArticle "Budget passed" "https://www.dawn.com/news/1";
            MkArticle "Rain in Karachi" "https://www.dawn.com/news/2"])
  /\ daraz_deduplicated
       (List.map card_item (List.filter makes_item (three_cards "")))
       (parse_results_page_html three_cards "").
Proof.
  destruct (dedup_keeps_first_occurrence three_anchors join_plain three_cards ""
              "https://www.dawn.com") as [Hdawn Hdaraz].
  - intros href u _ Hu. unfold join_plain in Hu. injection Hu as <-. discriminate.
  - split; [apply Hdawn; reflexivity | exact Hdaraz].
Defined.

(** ** Facts on strings *)

Lemma forallb_app :
  forall p s t, Str.forallb p (s ++ t) = Str.forallb p s && Str.forallb p t.
Proof.
  induction s as [|c s IH]; intro t; simpl; [reflexivity |].
  rewrite IH. apply andb_assoc.
Qed.

Lemma forallb_impl :
  forall (p q : ascii -> bool),
    (forall c, p c = true -> q c = true) ->
    forall s, Str.forallb p s = true -> Str.forallb q s = true.
Proof.
  intros p q Hpq. induction s as [|c s IH]; simpl; [reflexivity |].
  intro H. apply andb_true_iff in H as [Hc Hs].
  rewrite (Hpq c Hc), (IH Hs). reflexivity.
Qed.

Lemma forallb_filter : forall p s, Str.forallb p (Str.filter p s) = true.
Proof.
  induction s as [|c s IH]; simpl; [reflexivity |].
  destruct (p c) eqn:Hc; simpl; [rewrite Hc |]; exact IH.
Qed.

Lemma filter_forallb : forall p s, Str.forallb p s = true -> Str.filter p s = s.
Proof.
  induction s as [|c s IH]; simpl; [reflexivity |].
  intro H. apply andb_true_iff in H as [Hc Hs]. rewrite Hc, (IH Hs). reflexivity.
Qed.

Lemma filter_app :
  forall p s t, Str.filter p (s ++ t) = (Str.filter p s ++ Str.filter p t)%string.
Proof.
  induction s as [|c s IH]; intro t; simpl; [reflexivity |].
  destruct (p c); simpl; rewrite IH; reflexivity.
Qed.

Lemma length_app : forall s t, length (s ++ t) = (length s + length t)%nat.
Proof. induction s as [|c s IH]; intro t; simpl; [reflexivity | rewrite IH; reflexivity]. Qed.

Lemma app_empty_r : forall s : string, (s ++ "")%string = s.
Proof. induction s as [|c s IH]; simpl; [reflexivity | rewrite IH; reflexivity]. Qed.

Lemma app_assoc_s : forall s t u : string, ((s ++ t) ++ u = s ++ (t ++ u))%string.
Proof. induction s as [|c s IH]; intros; simpl; [reflexivity | rewrite IH; reflexivity]. Qed.

(** The text consumed between a subject and what is left of it. *)
Lemma substring_consumed :
  forall w t, substring 0 (length (w ++ t) - length t) (w ++ t) = w.
Proof.
  intros w t. rewrite length_app.
  replace (length w + length t - length t)%nat with (length w) by lia.
  induction w as [|c w IH]; simpl.
  - destruct t; reflexivity.
  - rewrite IH. reflexivity.
Qed.

Lemma forallb_lstrip :
  forall p s, Str.forallb p s = true -> Str.forallb p (Str.lstrip s) = true.
Proof.
  induction s as [|c s IH]; simpl; [reflexivity |].
  intro H. destruct (Str.is_space c); [| exact H].
  apply andb_true_iff in H as [_ Hs]. apply IH. exact Hs.
Qed.

Lemma forallb_rstrip :
  forall p s, Str.forallb p s = true -> Str.forallb p (Str.rstrip s) = true.
Proof.
  induction s as [|c s IH]; simpl; [reflexivity |].
  intro H. apply andb_true_iff in H as [Hc Hs]. specialize (IH Hs).
  destruct (Str.rstrip s).
  - destruct (Str.is_space c); simpl; [reflexivity | rewrite Hc; reflexivity].
  - simpl in *. rewrite Hc. exact IH.
Qed.

Lemma forallb_strip :
  forall p s, Str.forallb p s = true -> Str.forallb p (Str.strip s) = true.
Proof. intros. unfold Str.strip. apply forallb_rstrip, forallb_lstrip. assumption. Qed.

(** A string without white space is its own [strip]. *)
Lemma lstrip_id :
  forall s, Str.forallb (fun c => negb (Str.is_space c)) s = true -> Str.lstrip s = s.
Proof.
  destruct s as [|c s]; simpl; [reflexivity |].
  intro H. apply andb_true_iff in H as [Hc _].
  apply negb_true_iff in Hc. rewrite Hc. reflexivity.
Qed.

Lemma rstrip_id :
  forall s, Str.forallb (fun c => negb (Str.is_space c)) s = true -> Str.rstrip s = s.
Proof.
  induction s as [|c s IH]; simpl; [reflexivity |].
  intro H. apply andb_true_iff in H as [Hc Hs].
  rewrite (IH Hs). apply negb_true_iff in Hc. rewrite Hc.
  destruct s; reflexivity.
Qed.

Lemma strip_id :
  forall s, Str.forallb (fun c => negb (Str.is_space c)) s = true -> Str.strip s = s.
Proof.
  intros s H. unfold Str.strip. rewrite (lstrip_id s H). apply rstrip_id. exact H.
Qed.

Lemma forallb_drop_underscores :
  forall p s prev t,
    Str.forallb p s = true -> Py.drop_underscores prev s = Some t ->
    Str.forallb p t = true.
Proof.
  induction s as [|c s IH]; intros prev t Hs Hd; simpl in Hd.
  - destruct prev as [[[] [] [] [] [] [] [] []]|]; try discriminate;
      injection Hd as <-; reflexivity.
  - simpl in Hs. apply andb_true_iff in Hs as [Hc Hs].
    assert (Hnext : forall r, option_map (String c) (Py.drop_underscores (Some c) s) = Some r ->
                              Str.forallb p r = true).
    { intros r Hr. destruct (Py.drop_underscores (Some c) s) as [t'|] eqn:Ht; [| discriminate].
      injection Hr as <-. simpl. rewrite Hc. eapply IH; eassumption. }
    destruct (Ascii.eqb c "_").
    + destruct prev as [q|]; [| discriminate].
      destruct (Str.is_space q); destruct (Str.is_digit q); try discriminate;
        eapply IH; eassumption.
    + destruct prev as [[[] [] [] [] [] [] [] []]|]; try (apply Hnext; exact Hd).
      destruct (Str.is_digit c); [apply Hnext; exact Hd | discriminate].
Qed.

(** Without an underscore nothing is dropped. *)
Lemma drop_underscores_id :
  forall s prev,
    Str.forallb (fun c => negb (Ascii.eqb c "_")) s = true ->
    prev <> Some "_"%char ->
    Py.drop_underscores prev s = Some s.
Proof.
  induction s as [|c s IH]; intros prev Hs Hprev; simpl.
  - destruct prev as [[[] [] [] [] [] [] [] []]|]; try reflexivity.
    exfalso. apply Hprev. reflexivity.
  - simpl in Hs. apply andb_true_iff in Hs as [Hc Hs].
    apply negb_true_iff in Hc. rewrite Hc.
    assert (Hn : Py.drop_underscores (Some c) s = Some s).
    { apply IH; [exact Hs |]. intro H. injection H as ->. discriminate. }
    destruct prev as [[[] [] [] [] [] [] [] []]|]; rewrite ?Hn; try reflexivity.
    exfalso. apply Hprev. reflexivity.
Qed.

Lemma forallb_split_sign :
  forall p s, Str.forallb p s = true -> Str.forallb p (snd (Py.split_sign s)) = true.
Proof.
  intros p s H. destruct s as [|c s]; [reflexivity |].
  simpl in H. apply andb_true_iff in H as [Hc Hs].
  unfold Py.split_sign.
  destruct c as [[] [] [] [] [] [] [] []]; simpl; try exact Hs; rewrite ?Hc, ?Hs;
    try reflexivity; simpl in Hc; rewrite ?Hc; reflexivity.
Qed.

(** ** [float(s)] gives a NaN only for the word nan *)

Lemma shr_1_nonneg : forall mrs, 0 <= shr_m mrs -> 0 <= shr_m (shr_1 mrs).
Proof.
  intros [m r s] H. simpl in *.
  destruct m as [|[p|p|]|[p|p|]]; simpl; lia.
Qed.

Lemma iter_pos_invariant :
  forall (A : Type) (f : A -> A) (P : A -> Prop),
    (forall x, P x -> P (f x)) ->
    forall n x, P x -> P (iter_pos f n x).
Proof.
  intros A f P Hf. induction n as [n IH | n IH |]; intros x Hx; simpl.
  - apply IH, IH, Hf, Hx.
  - apply IH, IH, Hx.
  - apply Hf, Hx.
Qed.

Lemma shr_fexp_nonneg :
  forall m e l, 0 <= m -> 0 <= shr_m (fst (shr_fexp Py.prec Py.emax m e l)).
Proof.
  intros m e l Hm. unfold shr_fexp, shr.
  assert (H0 : 0 <= shr_m (shr_record_of_loc m l)).
  { destruct l as [|[]]; simpl; exact Hm. }
  destruct (fexp Py.prec Py.emax (Zdigits2 m + e) - e); simpl; try exact H0.
  apply iter_pos_invariant; [apply shr_1_nonneg | exact H0].
Qed.

Lemma round_nearest_even_nonneg :
  forall m l, 0 <= m -> 0 <= round_nearest_even m l.
Proof.
  intros m l Hm. unfold round_nearest_even.
  destruct l as [|[]]; try lia. destruct (Z.even m); lia.
Qed.

Lemma binary_round_aux_not_nan :
  forall s m e l, 0 <= m -> Py.is_nan (binary_round_aux Py.prec Py.emax s m e l) = false.
Proof.
  intros s m e l Hm. unfold binary_round_aux.
  pose proof (shr_fexp_nonneg m e l Hm) as H1.
  destruct (shr_fexp Py.prec Py.emax m e l) as [mrs' e'].
  simpl in H1.
  pose proof (shr_fexp_nonneg _ e' loc_Exact
                (round_nearest_even_nonneg _ (loc_of_shr_record mrs') H1)) as H2.
  destruct (shr_fexp Py.prec Py.emax
              (round_nearest_even (shr_m mrs') (loc_of_shr_record mrs')) e' loc_Exact)
    as [mrs'' e''].
  simpl in H2.
  destruct (shr_m mrs'') as [|p|p]; [reflexivity | | lia].
  destruct (e'' <=? Py.emax - Py.prec); reflexivity.
Qed.

Lemma binary_normalize_not_nan :
  forall m e sz, Py.is_nan (binary_normalize Py.prec Py.emax m e sz) = false.
Proof.
  intros m e sz. unfold binary_normalize, binary_round.
  destruct m as [|p|p]; [reflexivity | |].
  - destruct (shl_align p e _) as [mz ez]. apply binary_round_aux_not_nan. lia.
  - destruct (shl_align p e _) as [mz ez]. apply binary_round_aux_not_nan. lia.
Qed.

Lemma dec_to_float_not_nan :
  forall neg m e, 0 <= m -> Py.is_nan (Py.dec_to_float neg m e) = false.
Proof.
  intros neg m e Hm. unfold Py.dec_to_float.
  destruct m as [|p|p]; [reflexivity | | lia].
  destruct (0 <=? e).
  - apply binary_normalize_not_nan.
  - unfold SFdiv_core_binary.
    set (m' := match _ - _ with Z0 => _ | Zpos _ => _ | Zneg _ => _ end).
    assert (Hm' : 0 <= m').
    { subst m'. destruct (0 - 0 - _); [lia | | lia].
      apply Z.shiftl_nonneg. lia. }
    assert (Hq : 0 <= fst (Z.div_eucl m' (10 ^ (- e)))).
    { pose proof (Z.div_eucl_eq m' (10 ^ (- e))) as Heq.
      change (fst (Z.div_eucl m' (10 ^ (- e)))) with (m' / 10 ^ (- e)).
      destruct (Z.eq_dec (10 ^ (- e)) 0) as [H0 | H0].
      - rewrite H0. rewrite Z.div_0_r_ext by reflexivity. lia.
      - apply Z.div_pos; [exact Hm' |].
        pose proof (Z.pow_nonneg 10 (- e)). lia. }
    destruct (Z.div_eucl m' (10 ^ (- e))) as [q r]. simpl in Hq.
    apply binary_round_aux_not_nan. exact Hq.
Qed.

Lemma digit_val_nonneg : forall c, Str.is_digit c = true -> 0 <= Py.digit_val c.
Proof.
  intros c H. unfold Str.is_digit, Str.in_range in H. unfold Py.digit_val.
  apply andb_true_iff in H as [H _]. apply N.leb_le in H. lia.
Qed.

(** The digits a numeral is read from are what [span_digits] splits off. *)
Lemma span_digits_digits :
  forall s d r, Py.span_digits s = (d, r) -> Str.forallb Str.is_digit d = true.
Proof.
  induction s as [|c s IH]; intros d r H; simpl in H.
  - injection H as <- <-. reflexivity.
  - destruct (Str.is_digit c) eqn:Hc.
    + destruct (Py.span_digits s) as [d' r'] eqn:Hs. injection H as <- <-.
      simpl. rewrite Hc. eapply IH. reflexivity.
    + injection H as <- <-. reflexivity.
Qed.

Lemma digits_val_nonneg :
  forall s, Str.forallb Str.is_digit s = true -> 0 <= Py.digits_val s.
Proof.
  intro s. unfold Py.digits_val.
  assert (H : forall acc, 0 <= acc -> Str.forallb Str.is_digit s = true ->
            0 <= (fix go (acc : Z) (s : string) {struct s} : Z :=
                    match s with
                    | "" => acc
                    | String c s' => go (10 * acc + Py.digit_val c) s'
                    end) acc s).
  { induction s as [|c s IH]; intros acc Hacc Hs; [exact Hacc |].
    simpl in Hs. apply andb_true_iff in Hs as [Hc Hs].
    apply IH; [| exact Hs]. pose proof (digit_val_nonneg c Hc). lia. }
  apply H. lia.
Qed.

Lemma parse_decimal_nonneg :
  forall s m e, Py.parse_decimal s = Some (m, e) -> 0 <= m.
Proof.
  intros s m e H. unfold Py.parse_decimal in H.
  destruct (Py.span_digits s) as [ip r1] eqn:Hip.
  assert (Hfp : exists fp r2,
             (match r1 with
              | String "." r => Py.span_digits r
              | _ => (EmptyString, r1)
              end) = (fp, r2) /\ Str.forallb Str.is_digit fp = true).
  { destruct r1 as [|c r]; [exists "", ""; split; reflexivity |].
    destruct (Ascii.eqb_spec c ".") as [-> | Hne].
    - destruct (Py.span_digits r) as [fp r2] eqn:Hs. exists fp, r2.
      split; [reflexivity | eapply span_digits_digits; eassumption].
    - exists "", (String c r). split; [| reflexivity].
      destruct c as [[] [] [] [] [] [] [] []]; try reflexivity.
      exfalso. apply Hne. reflexivity. }
  destruct Hfp as (fp & r2 & Heq & Hd). rewrite Heq in H.
  assert (Hall : Str.forallb Str.is_digit (ip ++ fp) = true).
  { rewrite forallb_app, Hd, (span_digits_digits _ _ _ Hip). reflexivity. }
  destruct (ip ++ fp)%string as [|c ds] eqn:Hds; [discriminate |].
  destruct (Py.parse_exponent r2); [| discriminate].
  injection H as <- <-. apply digits_val_nonneg. exact Hall.
Qed.

Lemma float_not_nan :
  forall s f, no_n s = true -> Py.float s = Return f -> Py.is_nan f = false.
Proof.
  intros s f Hn Hf. unfold Py.float in Hf.
  destruct (Py.drop_underscores None (Str.strip s)) as [t|] eqn:Ht; [| discriminate].
  assert (Hnt : no_n t = true).
  { unfold no_n. eapply forallb_drop_underscores; [| exact Ht].
    apply forallb_strip. exact Hn. }
  pose proof (forallb_split_sign _ _ Hnt) as Hb.
  destruct (Py.split_sign t) as [neg body]. simpl in Hb.
  destruct (Str.among (Str.lower body) ["inf"; "infinity"]).
  - injection Hf as <-. reflexivity.
  - destruct (String.eqb_spec (Str.lower body) "nan") as [Hnan | _].
    + exfalso. destruct body as [|c body]; [discriminate |].
      simpl in Hnan. injection Hnan as Hc _.
      simpl in Hb. rewrite Hc in Hb. discriminate.
    + destruct (Py.parse_decimal body) as [[m e]|] eqn:Hp; [| discriminate].
      injection Hf as <-. apply dec_to_float_not_nan.
      eapply parse_decimal_nonneg. exact Hp.
Qed.

(** ** Facts on the matcher *)

Section ClassPattern.

Variable p : ascii -> bool.

Lemma match_here_cls :
  forall c t,
    Re.match_here (Re.Cls p) (String c t)
    = if p c then Some (Re.MkMatch "" (String c "") None t) else None.
Proof.
  intros c t. unfold Re.match_here. cbn [Re.run].
  destruct (p c); [| reflexivity].
  do 2 f_equal. apply (substring_consumed (String c "") t).
Qed.

Lemma search_cls_none :
  forall s, Re.search (Re.Cls p) s = None ->
            Str.forallb (fun c => negb (p c)) s = true.
Proof.
  induction s as [|c s IH]; intro H; [reflexivity |].
  cbn [Re.search] in H. rewrite match_here_cls in H.
  destruct (p c) eqn:Hc; [discriminate |].
  destruct (Re.search (Re.Cls p) s); [discriminate |].
  simpl. rewrite Hc. apply IH. reflexivity.
Qed.

Lemma search_cls_some :
  forall s m,
    Re.search (Re.Cls p) s = Some m ->
    exists c,
      Re.m_text m = String c ""
      /\ p c = true
      /\ s = (Re.m_before m ++ String c (Re.m_after m))%string
      /\ Str.forallb (fun c => negb (p c)) (Re.m_before m) = true.
Proof.
  induction s as [|c s IH]; intros m H.
  - discriminate.
  - cbn [Re.search] in H. rewrite match_here_cls in H.
    destruct (p c) eqn:Hc.
    + injection H as <-. exists c. repeat split. exact Hc.
    + destruct (Re.search (Re.Cls p) s) as [m'|] eqn:Hs; [| discriminate].
      injection H as <-. destruct (IH m' eq_refl) as (c' & Ht & Hp & Heq & Hb).
      exists c'. simpl. rewrite Hc. repeat split; try assumption.
      rewrite Heq at 1. reflexivity.
Qed.

(** Deleting the characters of a class is filtering them out. *)
Lemma sub_cls_filter :
  forall n s,
    (length s < n)%nat ->
    Re.sub_fuel n (Re.Cls p) "" s = Str.filter (fun c => negb (p c)) s.
Proof.
  induction n as [|n IH]; intros s Hn; [lia |].
  cbn [Re.sub_fuel].
  destruct (Re.search (Re.Cls p) s) as [m|] eqn:Hs.
  - destruct (search_cls_some s m Hs) as (c & Ht & Hp & Heq & Hb).
    rewrite Ht. simpl.
    rewrite Heq. rewrite filter_app. simpl. rewrite Hp. simpl.
    rewrite (filter_forallb _ _ Hb). f_equal.
    apply IH. rewrite Heq, length_app in Hn. simpl in Hn. lia.
  - symmetry. apply filter_forallb. apply search_cls_none. exact Hs.
Qed.

End ClassPattern.

Lemma num_cleaner_filter :
  forall s, Re.sub _num_cleaner "" s = Str.filter num_char s.
Proof.
  intro s. unfold Re.sub, _num_cleaner. rewrite sub_cls_filter by lia.
  induction s as [|c s IH]; simpl; [reflexivity |].
  rewrite negb_involutive, IH. reflexivity.
Qed.

Lemma consumed_refl : forall q s g, consumed q s g s g.
Proof. intros. split; [exists ""; split; reflexivity | left; reflexivity]. Qed.

Lemma consumed_trans :
  forall q s g s1 g1 s2 g2,
    consumed q s g s1 g1 -> consumed q s1 g1 s2 g2 -> consumed q s g s2 g2.
Proof.
  intros q s g s1 g1 s2 g2 [(w1 & -> & H1) Hg1] [(w2 & -> & H2) Hg2]. split.
  - exists (w1 ++ w2)%string. split; [symmetry; apply app_assoc_s |].
    rewrite forallb_app, H1, H2. reflexivity.
  - destruct Hg2 as [-> | Hg2]; [exact Hg1 | right; exact Hg2].
Qed.

Lemma consumed_weaken :
  forall (q q' : ascii -> bool),
    (forall c, q c = true -> q' c = true) ->
    forall s g s1 g1, consumed q s g s1 g1 -> consumed q' s g s1 g1.
Proof.
  intros q q' Hq s g s1 g1 [(w & Hs & Hw) Hg]. split.
  - exists w. split; [exact Hs | eapply forallb_impl; eassumption].
  - destruct Hg as [-> | (t & -> & Ht)]; [left; reflexivity |].
    right. exists t. split; [reflexivity | eapply forallb_impl; eassumption].
Qed.

Lemma star_loop_consumed :
  forall (A : Type) q (body : string -> option string -> Re.cont A -> option A),
    sound q body ->
    forall n s g (k : Re.cont A) a,
      Re.star_loop body k n s g = Some a ->
      exists s1 g1, k s1 g1 = Some a /\ consumed q s g s1 g1.
Proof.
  intros A q body Hbody.
  induction n as [|n IH]; intros s g k a H; cbn [Re.star_loop] in H.
  - exists s, g. split; [exact H | apply consumed_refl].
  - match type of H with
    | match ?b with _ => _ end = _ => destruct b as [a'|] eqn:Hb
    end.
    + injection H as ->.
      apply Hbody in Hb. destruct Hb as (s1 & g1 & Hk & Hc).
      destruct (length s1 <? length s)%nat; [| discriminate].
      apply IH in Hk. destruct Hk as (s2 & g2 & Hk & Hc2).
      exists s2, g2. split; [exact Hk | eapply consumed_trans; eassumption].
    + exists s, g. split; [exact H | apply consumed_refl].
Qed.

Lemma run_consumed :
  forall (A : Type) r fuel, sound (A := A) (alphabet r) (Re.run r fuel).
Proof.
  intros A r fuel. induction r as [|p|r1 IH1 r2 IH2|r1 IH1 r2 IH2|r1 IH1|r1 IH1|r1 IH1];
    intros s g k a H; cbn [Re.run] in H.
  - exists s, g. split; [exact H | apply consumed_refl].
  - destruct s as [|c s]; [discriminate |].
    destruct (p c) eqn:Hc; [| discriminate].
    exists s, g. split; [exact H |]. split; [| left; reflexivity].
    exists (String c ""). split; [reflexivity |]. simpl. rewrite Hc. reflexivity.
  - apply IH1 in H. destruct H as (s1 & g1 & H & Hc1).
    apply IH2 in H. destruct H as (s2 & g2 & H & Hc2).
    exists s2, g2. split; [exact H |].
    eapply consumed_trans.
    + eapply consumed_weaken; [| exact Hc1]. intros c Hc. simpl. rewrite Hc. reflexivity.
    + eapply consumed_weaken; [| exact Hc2]. intros c Hc. simpl. rewrite Hc.
      apply orb_true_r.
  - destruct (Re.run r1 fuel s g k) as [a'|] eqn:H1.
    + injection H as ->. apply IH1 in H1. destruct H1 as (s1 & g1 & H & Hc1).
      exists s1, g1. split; [exact H |].
      eapply consumed_weaken; [| exact Hc1]. intros c Hc. simpl. rewrite Hc. reflexivity.
    + apply IH2 in H. destruct H as (s1 & g1 & H & Hc1).
      exists s1, g1. split; [exact H |].
      eapply consumed_weaken; [| exact Hc1]. intros c Hc. simpl. rewrite Hc.
      apply orb_true_r.
  - destruct (Re.run r1 fuel s g k) as [a'|] eqn:H1.
    + injection H as ->. apply IH1 in H1. exact H1.
    + exists s, g. split; [exact H | apply consumed_refl].
  - eapply star_loop_consumed; [exact IH1 | exact H].
  - apply IH1 in H. destruct H as (s1 & g1 & H & [(w & -> & Hw) _]).
    eexists. eexists. split; [exact H |]. split.
    + exists w. split; [reflexivity | exact Hw].
    + right. exists w. split; [| exact Hw].
      rewrite substring_consumed. reflexivity.
Qed.

(** Group 1 of a match holds characters of the pattern only. *)
Lemma match_here_group :
  forall r s m,
    Re.match_here r s = Some m ->
    Str.forallb (alphabet r) (group1 m) = true.
Proof.
  intros r s m H. unfold Re.match_here in H.
  apply run_consumed in H. destruct H as (s1 & g1 & Hk & [_ Hg]).
  injection Hk as <-. unfold group1. simpl.
  destruct Hg as [-> | (t & -> & Ht)]; [reflexivity | exact Ht].
Qed.

Lemma search_group :
  forall r s m,
    Re.search r s = Some m ->
    Str.forallb (alphabet r) (group1 m) = true.
Proof.
  intros r. induction s as [|c s IH]; intros m H; cbn [Re.search] in H.
  - destruct (Re.match_here r "") as [m'|] eqn:Hm; [| discriminate].
    injection H as <-. eapply match_here_group. exact Hm.
  - destruct (Re.match_here r (String c s)) as [m'|] eqn:Hm.
    + injection H as <-. eapply match_here_group. exact Hm.
    + destruct (Re.search r s) as [m'|] eqn:Hs; [| discriminate].
      injection H as <-. unfold group1. simpl. apply (IH m' eq_refl).
Qed.

Lemma percent_alphabet_no_n :
  forall c, alphabet percent_re c = true ->
            negb (Ascii.eqb (Str.lower_char c) "n") = true.
Proof.
  intros c. destruct c as [[] [] [] [] [] [] [] []]; vm_compute; intro H;
    first [reflexivity | discriminate].
Qed.

Lemma num_char_no_n :
  forall c, num_char c = true -> negb (Ascii.eqb (Str.lower_char c) "n") = true.
Proof.
  intros c. destruct c as [[] [] [] [] [] [] [] []]; vm_compute; intro H;
    first [reflexivity | discriminate].
Qed.

(** ** The coercions are total *)

(** C5, refuted as stated: the value returned is not always finite.  The
    numeral 1e999 is beyond binary64, [float] reads it as infinity and
    [_to_float] returns that. *)
Lemma to_float_overflows :
  ~ (forall (float_repr : spec_float -> string) (s : string),
        exists v, _to_float float_repr (VStr s) = Return v /\ finite_or_absent v).
Proof.
  intro H. destruct (H repr_none "1e999") as (v & Hv & Hfin).
  vm_compute in Hv. injection Hv as <-. simpl in Hfin. discriminate.
Qed.

Lemma to_float_total :
  forall float_repr s,
    exists v, _to_float float_repr (VStr s) = Return v /\ number_or_absent v.
Proof.
  intros float_repr s. unfold _to_float. simpl isna. cbv iota.
  destruct (Str.among _ [""; "-"; "--"]); [exists NA; split; [reflexivity | exact I] |].
  rewrite num_cleaner_filter.
  destruct (Str.among _ [""; "+"; "-"]); [exists NA; split; [reflexivity | exact I] |].
  destruct (Py.float _) as [f | e] eqn:Hf; simpl.
  - exists (VFloat f). split; [reflexivity |]. simpl.
    eapply float_not_nan; [| exact Hf].
    unfold no_n. eapply forallb_impl; [exact num_char_no_n | apply forallb_filter].
  - exists NA. split; [reflexivity | exact I].
Qed.

(** C5, amended: for every string, [_to_float], [_to_percent] and
    [parse_int] return, without raising; the first two give [pd.NA] or a
    float that is a number, finite, or infinite when the numeral read
    exceeds binary64, and the third gives [None] or an integer. *)
Theorem coercions_total :
  forall (float_repr : spec_float -> string) (s : string),
    (exists v, _to_float float_repr (VStr s) = Return v /\ number_or_absent v)
    /\ (exists v, _to_percent float_repr (VStr s) = Return v /\ number_or_absent v)
    /\ (exists z : option Z, parse_int s = Return z).
Proof.
  intros float_repr s. split; [apply to_float_total | split].
  - unfold _to_percent. simpl isna. cbv iota. simpl str.
    destruct (Re.search percent_re s) as [m|] eqn:Hm; [| apply to_float_total].
    destruct (Py.float (group1 m)) as [f | e] eqn:Hf; simpl.
    + exists (VFloat f). split; [reflexivity |]. simpl.
      eapply float_not_nan; [| exact Hf].
      unfold no_n. eapply forallb_impl; [exact percent_alphabet_no_n |].
      eapply search_group. exact Hm.
    + exists NA. split; [reflexivity | exact I].
  - unfold parse_int.
    destruct (String.eqb s ""); [exists None; reflexivity |].
    destruct (Re.findall int_group_re _) as [|g gs]; [exists None; reflexivity |].
    destruct (Py.int _) as [z | e]; simpl; eexists; reflexivity.
Qed.

(** ** Greedy repetition of a class *)

Lemma take_drop_while : forall p s, (take_while p s ++ drop_while p s)%string = s.
Proof.
  induction s as [|c s IH]; simpl; [reflexivity |].
  destruct (p c); simpl; [rewrite IH |]; reflexivity.
Qed.

Lemma take_while_all :
  forall p w r,
    Str.forallb p w = true ->
    take_while p (w ++ r) = (w ++ take_while p r)%string
    /\ drop_while p (w ++ r) = drop_while p r.
Proof.
  induction w as [|c w IH]; intros r H; simpl; [split; reflexivity |].
  simpl in H. apply andb_true_iff in H as [Hc Hw]. rewrite Hc.
  destruct (IH r Hw) as [-> ->]. split; reflexivity.
Qed.

Lemma take_while_stops :
  forall p r, stops p r = true -> take_while p r = "" /\ drop_while p r = r.
Proof.
  intros p [|c r] H; simpl in *; [split; reflexivity |].
  apply negb_true_iff in H. rewrite H. split; reflexivity.
Qed.

Lemma span_exact :
  forall p w r,
    Str.forallb p w = true -> stops p r = true ->
    take_while p (w ++ r) = w /\ drop_while p (w ++ r) = r.
Proof.
  intros p w r Hw Hr.
  destruct (take_while_all p w r Hw) as [-> ->].
  destruct (take_while_stops p r Hr) as [-> ->].
  rewrite app_empty_r. split; reflexivity.
Qed.

Section Greedy.

Context {A : Type}.
Variable p : ascii -> bool.
Variable fuel : nat.

Lemma run_cls_cons :
  forall c t g (k : Re.cont A),
    Re.run (Re.Cls p) fuel (String c t) g k = if p c then k t g else None.
Proof. reflexivity. Qed.

Lemma run_cls_nil :
  forall g (k : Re.cont A), Re.run (Re.Cls p) fuel "" g k = None.
Proof. reflexivity. Qed.

(** If what follows the longest run of the class matches, that is the
    match. *)
Lemma star_cls_greedy :
  forall n s g (k : Re.cont A) a,
    (length s <= n)%nat ->
    k (drop_while p s) g = Some a ->
    Re.star_loop (Re.run (Re.Cls p) fuel) k n s g = Some a.
Proof.
  induction n as [|n IH]; intros s g k a Hn Hk.
  - destruct s; [exact Hk | simpl in Hn; lia].
  - cbn [Re.star_loop].
    destruct s as [|c t]; [rewrite run_cls_nil; exact Hk |].
    rewrite run_cls_cons.
    simpl in Hk. destruct (p c) eqn:Hc; [| exact Hk].
    assert (Hlt : (length t <? length (String c t))%nat = true)
      by (apply Nat.ltb_lt; simpl; lia).
    rewrite Hlt. rewrite (IH t g k a); [reflexivity | simpl in Hn; lia | exact Hk].
Qed.

(** If nothing matches after any shorter run either, nothing matches. *)
Lemma star_cls_none :
  forall n s g (k : Re.cont A),
    (forall s', shortened p s s' -> k s' g = None) ->
    Re.star_loop (Re.run (Re.Cls p) fuel) k n s g = None.
Proof.
  induction n as [|n IH]; intros s g k Hk.
  - apply Hk. constructor.
  - cbn [Re.star_loop].
    destruct s as [|c t]; [rewrite run_cls_nil; apply Hk; constructor |].
    rewrite run_cls_cons.
    destruct (p c) eqn:Hc; [| apply Hk; constructor].
    destruct (length t <? length (String c t))%nat.
    + rewrite IH; [apply Hk; constructor |].
      intros s' Hs'. apply Hk. constructor; assumption.
    + apply Hk. constructor.
Qed.

Lemma shortened_split :
  forall w r s',
    shortened p (w ++ r) s' -> stops p r = true ->
    exists w1 w2, w = (w1 ++ w2)%string /\ s' = (w2 ++ r)%string.
Proof.
  induction w as [|c w IH]; intros r s' H Hr.
  - simpl in H. inversion H as [s0 | c0 t0 s0 Hc0 Hsh]; subst.
    + exists "", "". split; reflexivity.
    + simpl in Hr. rewrite Hc0 in Hr. discriminate.
  - simpl in H. inversion H as [s0 | c0 t0 s0 Hc0 Hsh]; subst.
    + exists "", (String c w). split; reflexivity.
    + destruct (IH r s' Hsh Hr) as (w1 & w2 & -> & ->).
      exists (String c w1), w2. split; reflexivity.
Qed.

End Greedy.

Lemma run_cat :
  forall (A : Type) r1 r2 fuel s g (k : Re.cont A),
    Re.run (Re.Cat r1 r2) fuel s g k
    = Re.run r1 fuel s g (fun s1 g1 => Re.run r2 fuel s1 g1 k).
Proof. reflexivity. Qed.

Lemma run_star :
  forall (A : Type) r fuel s g (k : Re.cont A),
    Re.run (Re.Star r) fuel s g k = Re.star_loop (Re.run r fuel) k fuel s g.
Proof. reflexivity. Qed.

Lemma run_alt :
  forall (A : Type) r1 r2 fuel s g (k : Re.cont A),
    Re.run (Re.Alt r1 r2) fuel s g k
    = match Re.run r1 fuel s g k with
      | Some a => Some a
      | None => Re.run r2 fuel s g k
      end.
Proof. reflexivity. Qed.

Lemma run_grp :
  forall (A : Type) r fuel s g (k : Re.cont A),
    Re.run (Re.Grp r) fuel s g k
    = Re.run r fuel s g
        (fun s1 _ => k s1 (Some (substring 0 (length s - length s1) s))).
Proof. reflexivity. Qed.

(** The text consumed when [w] has been read off [w ++ r]. *)
Lemma substring_cons_consumed :
  forall c w r,
    substring 0 (length (String c (w ++ r)) - length r) (String c (w ++ r)) = String c w.
Proof. intros c w r. apply (substring_consumed (String c w) r). Qed.

(** ** The digit groups of [parse_int] *)

Lemma match_here_int_group :
  forall c t,
    Re.match_here int_group_re (String c t)
    = if Str.is_digit c
      then Some (Re.MkMatch "" (String c (take_while group_char t)) None
                   (drop_while group_char t))
      else None.
Proof.
  intros c t. unfold Re.match_here, int_group_re, Re.digit.
  rewrite run_cat, run_cls_cons.
  destruct (Str.is_digit c); [| reflexivity].
  rewrite run_star.
  erewrite (star_cls_greedy group_char); [reflexivity | simpl; lia |].
  do 2 f_equal.
  rewrite <- (take_drop_while group_char t) at 1 3.
  apply substring_cons_consumed.
Qed.

Lemma search_int_group_none :
  forall s, Str.forallb (fun c => negb (Str.is_digit c)) s = true ->
            Re.search int_group_re s = None.
Proof.
  induction s as [|c s IH]; intro H; [reflexivity |].
  simpl in H. apply andb_true_iff in H as [Hc Hs]. apply negb_true_iff in Hc.
  cbn [Re.search]. rewrite match_here_int_group, Hc, (IH Hs). reflexivity.
Qed.

Lemma ends_free_cons :
  forall c t, t <> "" -> ends_free (String c t) = ends_free t.
Proof. intros c [|c' t] H; [contradiction | reflexivity]. Qed.

Lemma drop_while_ends_free :
  forall b x,
    b <> "" -> ends_free b = true ->
    drop_while group_char (b ++ x) = (drop_while group_char b ++ x)%string
    /\ ends_free (drop_while group_char b) = true
    /\ (length (drop_while group_char b) <= length b)%nat.
Proof.
  induction b as [|c b IH]; intros x Hne Hfree; [contradiction |].
  destruct b as [|c' b].
  - simpl in Hfree. apply negb_true_iff in Hfree. simpl. rewrite Hfree.
    simpl. rewrite Hfree. repeat split; lia.
  - rewrite ends_free_cons in Hfree by discriminate.
    destruct (IH x ltac:(discriminate) Hfree) as (H1 & H2 & H3).
    cbn [append drop_while] in *.
    destruct (group_char c).
    + repeat split; [exact H1 | exact H2 | simpl in *; lia].
    + repeat split; [exact Hfree | simpl; lia].
Qed.

Section LastGroup.

(** [g] is a digit group followed by [after], which holds no digit and
    does not go on with a comma. *)
Variables (d : ascii) (g' after : string).
Hypothesis Hd : Str.is_digit d = true.
Hypothesis Hg' : Str.forallb group_char g' = true.
Hypothesis Hafter : Str.forallb (fun c => negb (Str.is_digit c)) after = true.
Hypothesis Hcomma : Str.startswith "," after = false.

Lemma after_stops : stops group_char after = true.
Proof.
  destruct after as [|c t]; [reflexivity |].
  simpl in Hafter. apply andb_true_iff in Hafter as [Hc _].
  apply negb_true_iff in Hc. simpl. unfold group_char. rewrite Hc. simpl.
  unfold Str.startswith in Hcomma. simpl in Hcomma.
  destruct (Ascii.eqb_spec c ",") as [-> | Hne]; [| reflexivity].
  simpl in Hcomma. destruct t; discriminate.
Qed.

(** The first match in [before ++ g ++ after] is [g] itself, or a group
    that ends inside [before]. *)
Lemma search_int_group_step :
  forall before,
    ends_free before = true ->
    exists m,
      Re.search int_group_re (before ++ String d g' ++ after) = Some m
      /\ Re.m_text m <> ""
      /\ ((Re.m_text m = String d g' /\ Re.m_after m = after)
          \/ exists before',
               Re.m_after m = (before' ++ String d g' ++ after)%string
               /\ ends_free before' = true
               /\ (length before' < length before)%nat).
Proof.
  set (g := String d g').
  induction before as [|c b IH]; intro Hfree.
  - cbn [append]. unfold g. cbn [append Re.search].
    rewrite match_here_int_group, Hd.
    destruct (span_exact group_char g' after Hg' after_stops) as [-> ->].
    eexists. split; [reflexivity |]. split; [discriminate |].
    left. split; reflexivity.
  - cbn [append Re.search]. rewrite match_here_int_group.
    destruct (Str.is_digit c) eqn:Hc.
    + assert (Hb : b <> "").
      { intros ->. simpl in Hfree. unfold group_char in Hfree. rewrite Hc in Hfree.
        discriminate. }
      rewrite ends_free_cons in Hfree by exact Hb.
      destruct (drop_while_ends_free b (g ++ after) Hb Hfree) as (H1 & H2 & H3).
      eexists. split; [reflexivity |]. split; [discriminate |].
      right. exists (drop_while group_char b). simpl.
      split; [exact H1 | split; [exact H2 | lia]].
    + assert (Hfb : ends_free b = true).
      { destruct b; [reflexivity | exact Hfree]. }
      destruct (IH Hfb) as (m & Hs & Hne & Hcase).
      rewrite Hs. eexists. split; [reflexivity |]. simpl.
      split; [exact Hne |].
      destruct Hcase as [Hl | (b' & Ha & Hf' & Hlen)]; [left; exact Hl |].
      right. exists b'. split; [exact Ha | split; [exact Hf' | lia]].
Qed.

Lemma findall_last_group :
  forall n before,
    (length (before ++ String d g' ++ after) < n)%nat ->
    ends_free before = true ->
    exists l, Re.findall_fuel n int_group_re (before ++ String d g' ++ after) = (l ++ [String d g'])%list.
Proof.
  induction n as [|n IH]; intros before Hn Hfree; [lia |].
  destruct (search_int_group_step before Hfree) as (m & Hs & Hne & Hcase).
  cbn [Re.findall_fuel]. rewrite Hs.
  assert (Hrest : (match Re.m_text m, Re.m_after m with
                   | EmptyString, EmptyString => []
                   | EmptyString, String _ t => Re.findall_fuel n int_group_re t
                   | _, t => Re.findall_fuel n int_group_re t
                   end) = Re.findall_fuel n int_group_re (Re.m_after m)).
  { destruct (Re.m_text m); [contradiction | reflexivity]. }
  rewrite Hrest.
  destruct Hcase as [[Ht Ha] | (b' & Ha & Hf' & Hlen)].
  - exists []. rewrite Ht, Ha. simpl. f_equal.
    destruct n; [reflexivity |].
    cbn [Re.findall_fuel]. rewrite (search_int_group_none after Hafter). reflexivity.
  - rewrite Ha. destruct (IH b') as (l & Hl).
    + rewrite !length_app in *. lia.
    + exact Hf'.
    + exists (Re.m_text m :: l). rewrite Hl. reflexivity.
Qed.

End LastGroup.

(** Replacing one character by another, or by nothing. *)
Lemma prefix_char :
  forall a c t, prefix (String a "") (String c t) = Ascii.eqb a c.
Proof.
  intros a c t. simpl. destruct (ascii_dec a c) as [-> | Hne].
  - rewrite Ascii.eqb_refl. destruct t; reflexivity.
  - symmetry. apply Ascii.eqb_neq. exact Hne.
Qed.

Lemma replace_char_map :
  forall a b s,
    Str.replace (String a "") (String b "") s
    = Str.map (fun c => if Ascii.eqb a c then b else c) s.
Proof.
  intros a b. unfold Str.replace.
  induction s as [|c s IH]; [reflexivity |].
  cbn [Str.replace_from Str.map]. rewrite prefix_char.
  destruct (Ascii.eqb a c); simpl; rewrite IH; reflexivity.
Qed.

Lemma replace_char_filter :
  forall a s,
    Str.replace (String a "") "" s = Str.filter (fun c => negb (Ascii.eqb a c)) s.
Proof.
  intros a. unfold Str.replace.
  induction s as [|c s IH]; [reflexivity |].
  cbn [Str.replace_from Str.filter]. rewrite prefix_char.
  destruct (Ascii.eqb a c); simpl; rewrite IH; reflexivity.
Qed.

Lemma map_app :
  forall f s t, Str.map f (s ++ t) = (Str.map f s ++ Str.map f t)%string.
Proof.
  induction s as [|c s IH]; intro t; simpl; [reflexivity | rewrite IH; reflexivity].
Qed.

Lemma map_id_on :
  forall (f : ascii -> ascii) (p : ascii -> bool),
    (forall c, p c = true -> f c = c) ->
    forall s, Str.forallb p s = true -> Str.map f s = s.
Proof.
  intros f p Hf. induction s as [|c s IH]; simpl; [reflexivity |].
  intro H. apply andb_true_iff in H as [Hc Hs]. rewrite (Hf c Hc), (IH Hs). reflexivity.
Qed.

Lemma forallb_map :
  forall (f : ascii -> ascii) (p : ascii -> bool),
    (forall c, p (f c) = p c) ->
    forall s, Str.forallb p (Str.map f s) = Str.forallb p s.
Proof.
  intros f p Hf. induction s as [|c s IH]; simpl; [reflexivity |].
  rewrite Hf, IH. reflexivity.
Qed.

Lemma length_map_s : forall f s, length (Str.map f s) = length s.
Proof. induction s as [|c s IH]; simpl; [reflexivity | rewrite IH; reflexivity]. Qed.

Lemma unbreak_digit : forall c, Str.is_digit (unbreak c) = Str.is_digit c.
Proof. intro c. destruct c as [[] [] [] [] [] [] [] []]; reflexivity. Qed.

Lemma unbreak_group_char : forall c, group_char (unbreak c) = group_char c.
Proof. intro c. destruct c as [[] [] [] [] [] [] [] []]; reflexivity. Qed.

Lemma unbreak_comma : forall c, Ascii.eqb "," (unbreak c) = Ascii.eqb "," c.
Proof. intro c. destruct c as [[] [] [] [] [] [] [] []]; reflexivity. Qed.

Lemma unbreak_group : forall c, group_char c = true -> unbreak c = c.
Proof.
  intro c. destruct c as [[] [] [] [] [] [] [] []]; intro H;
    first [reflexivity | discriminate H].
Qed.

Lemma ends_free_unbreak :
  forall s, ends_free (Str.map unbreak s) = ends_free s.
Proof.
  induction s as [|c s IH]; [reflexivity |].
  destruct s as [|c' s].
  - simpl. rewrite unbreak_group_char. reflexivity.
  - exact IH.
Qed.

Lemma startswith_comma_unbreak :
  forall s, Str.startswith "," (Str.map unbreak s) = Str.startswith "," s.
Proof.
  intros [|c s]; [reflexivity |].
  unfold Str.startswith. cbn [Str.map]. rewrite !prefix_char. apply unbreak_comma.
Qed.

(** [int] of a string of digits. *)
Lemma digit_not_space :
  forall c, Str.is_digit c = true -> negb (Str.is_space c) = true.
Proof.
  intro c. destruct c as [[] [] [] [] [] [] [] []]; intro H;
    first [reflexivity | discriminate H].
Qed.

Lemma digit_not_underscore :
  forall c, Str.is_digit c = true -> negb (Ascii.eqb c "_") = true.
Proof.
  intro c. destruct c as [[] [] [] [] [] [] [] []]; intro H;
    first [reflexivity | discriminate H].
Qed.

Lemma split_sign_digit :
  forall c t, Str.is_digit c = true -> Py.split_sign (String c t) = (false, String c t).
Proof.
  intros c t. destruct c as [[] [] [] [] [] [] [] []]; intro H;
    first [reflexivity | discriminate H].
Qed.

Lemma int_of_digits :
  forall ds,
    ds <> "" ->
    Str.forallb Str.is_digit ds = true ->
    (length ds <= Py.int_max_str_digits)%nat ->
    Py.int ds = Return (Py.digits_val ds).
Proof.
  intros ds Hne Hall Hlen. unfold Py.int.
  rewrite (strip_id ds) by (eapply forallb_impl; [exact digit_not_space | exact Hall]).
  destruct ds as [|c t]; [contradiction |].
  assert (Hc : Str.is_digit c = true).
  { simpl in Hall. apply andb_true_iff in Hall. apply Hall. }
  rewrite (split_sign_digit c t Hc). cbn [fst snd].
  rewrite drop_underscores_id;
    [| eapply forallb_impl; [exact digit_not_underscore | exact Hall] | discriminate].
  rewrite Hall. apply Nat.leb_le in Hlen. rewrite Hlen. reflexivity.
Qed.

Lemma group_commas_removed :
  forall g, Str.forallb group_char g = true ->
            Str.replace "," "" g = Str.filter Str.is_digit g.
Proof.
  intros g Hg. rewrite replace_char_filter.
  induction g as [|c g IH]; [reflexivity |].
  simpl in Hg. apply andb_true_iff in Hg as [Hc Hg]. cbn [Str.filter]. rewrite (IH Hg).
  replace (negb (Ascii.eqb "," c)) with (Str.is_digit c); [reflexivity |].
  clear - Hc. destruct c as [[] [] [] [] [] [] [] []];
    first [reflexivity | discriminate Hc].
Qed.

(** [parse_int] reads the last digit group. *)
Lemma parse_int_last_group :
  forall before d g' after,
    Str.is_digit d = true ->
    Str.forallb group_char g' = true ->
    Str.forallb (fun c => negb (Str.is_digit c)) after = true ->
    Str.startswith "," after = false ->
    ends_free before = true ->
    (length (Str.filter Str.is_digit (String d g')) <= Py.int_max_str_digits)%nat ->
    parse_int (before ++ String d g' ++ after)
    = Return (Some (Py.digits_val (Str.filter Str.is_digit (String d g')))).
Proof.
  intros before d g' after Hd Hg' Hafter Hcomma Hfree Hlen.
  assert (Hg : Str.forallb group_char (String d g') = true).
  { simpl. unfold group_char at 1. rewrite Hd, Hg'. reflexivity. }
  unfold parse_int.
  assert (Hne : String.eqb (before ++ String d g' ++ after) "" = false).
  { destruct before; reflexivity. }
  rewrite Hne. unfold nbsp. rewrite replace_char_map.
  change (fun c : ascii => if Ascii.eqb (ascii_of_N 160) c then " "%char else c) with unbreak.
  rewrite !map_app.
  rewrite (map_id_on unbreak group_char unbreak_group (String d g') Hg).
  destruct (findall_last_group d g' (Str.map unbreak after) Hd Hg'
              ltac:(rewrite (forallb_map unbreak _ (fun c => f_equal negb (unbreak_digit c)));
                    exact Hafter)
              ltac:(rewrite startswith_comma_unbreak; exact Hcomma)
              (S (length (Str.map unbreak before ++ String d g' ++ Str.map unbreak after)))
              (Str.map unbreak before)
              ltac:(lia)
              ltac:(rewrite ends_free_unbreak; exact Hfree)) as (l & Hl).
  unfold Re.findall. rewrite Hl.
  assert (Hm : forall (B : Type) (x y : B),
             match (l ++ [String d g'])%list with [] => x | _ :: _ => y end = y).
  { intros B x y. destruct l; reflexivity. }
  rewrite Hm. rewrite last_last.
  rewrite (group_commas_removed _ Hg).
  rewrite int_of_digits; [reflexivity | | apply forallb_filter | exact Hlen].
  simpl. rewrite Hd. discriminate.
Qed.

(** ** The first numeral of [parse_float] *)

Lemma plus_digit_greedy :
  forall (A : Type) fuel d w r g (k : Re.cont A) a,
    Str.is_digit d = true ->
    Str.forallb Str.is_digit w = true ->
    stops Str.is_digit r = true ->
    (length (w ++ r) <= fuel)%nat ->
    k r g = Some a ->
    Re.run (Re.Plus Re.digit) fuel (String d (w ++ r)) g k = Some a.
Proof.
  intros A fuel d w r g k a Hd Hw Hr Hfuel Hk.
  unfold Re.Plus, Re.digit. rewrite run_cat, run_cls_cons, Hd, run_star.
  apply star_cls_greedy; [exact Hfuel |].
  destruct (span_exact Str.is_digit w r Hw Hr) as [_ ->]. exact Hk.
Qed.

Lemma plus_digit_fails :
  forall (A : Type) fuel c t g (k : Re.cont A),
    Str.is_digit c = false ->
    Re.run (Re.Plus Re.digit) fuel (String c t) g k = None.
Proof.
  intros A fuel c t g k Hc. unfold Re.Plus, Re.digit.
  rewrite run_cat, run_cls_cons, Hc. reflexivity.
Qed.

Lemma plus_digit_fails_nil :
  forall (A : Type) fuel g (k : Re.cont A),
    Re.run (Re.Plus Re.digit) fuel "" g k = None.
Proof. reflexivity. Qed.

Lemma point_then_digits :
  forall (A : Type) fuel c t g (k : Re.cont A),
    Re.run (Re.Cat (Re.Chr ".") (Re.Plus Re.digit)) fuel (String c t) g k
    = if Ascii.eqb "." c then Re.run (Re.Plus Re.digit) fuel t g k else None.
Proof. reflexivity. Qed.

Lemma digit_not_point : forall c, Str.is_digit c = true -> Ascii.eqb "." c = false.
Proof.
  intro c. destruct c as [[] [] [] [] [] [] [] []]; intro H;
    first [reflexivity | discriminate H].
Qed.

Section FirstNumeral.

Variables (d : ascii) (ip' fp post : string).
Hypothesis Hd : Str.is_digit d = true.
Hypothesis Hip' : Str.forallb Str.is_digit ip' = true.
Hypothesis Hfp : Str.forallb Str.is_digit fp = true.
Hypothesis Hpost : stops Str.is_digit post = true.
Hypothesis Hfrac : fp = "" -> frac_follows post = false.

Lemma match_here_numeral :
  Re.match_here float_re (numeral (String d ip') fp ++ post)
  = Some (Re.MkMatch "" (numeral (String d ip') fp)
            (Some (numeral (String d ip') fp)) post).
Proof.
  set (num := numeral (String d ip') fp).
  unfold Re.match_here, float_re.
  rewrite run_grp, run_alt.
  set (kG := fun (s1 : string) (_ : option string) =>
               Some (Re.MkMatch ""
                       (substring 0 (length (num ++ post) - length s1) (num ++ post))
                       (Some (substring 0 (length (num ++ post) - length s1) (num ++ post)))
                       s1)).
  assert (HkG : kG post None = Some (Re.MkMatch "" num (Some num) post)).
  { unfold kG. rewrite substring_consumed. reflexivity. }
  destruct fp as [|f fp'] eqn:Efp.
  - (* an integer numeral: the first branch fails at every split *)
    assert (Hnum : (num ++ post = String d (ip' ++ post))%string).
    { unfold num, numeral. simpl. rewrite app_empty_r. reflexivity. }
    rewrite Hnum in *.
    assert (H1 : Re.run (Re.Cat (Re.Plus Re.digit) (Re.Cat (Re.Chr ".") (Re.Plus Re.digit)))
                   (length (String d (ip' ++ post))) (String d (ip' ++ post)) None kG = None).
    { rewrite run_cat. unfold Re.Plus at 1. unfold Re.digit at 1 2.
      rewrite run_cat, run_cls_cons, Hd, run_star.
      apply star_cls_none. intros s' Hs'.
      destruct (shortened_split Str.is_digit ip' post s' Hs' Hpost) as (w1 & w2 & Hw & ->).
      destruct w2 as [|c w2].
      - cbn [append]. specialize (Hfrac eq_refl).
        destruct post as [|c t]; [reflexivity |].
        rewrite point_then_digits.
        destruct (Ascii.eqb_spec "." c) as [<- | _]; [| reflexivity].
        destruct t as [|c2 t]; [reflexivity |].
        simpl in Hfrac. apply plus_digit_fails. exact Hfrac.
      - cbn [append]. rewrite point_then_digits.
        enough (Hc : Str.is_digit c = true) by (rewrite (digit_not_point c Hc); reflexivity).
        rewrite Hw, forallb_app in Hip'. apply andb_true_iff in Hip' as [_ Hw2].
        simpl in Hw2. apply andb_true_iff in Hw2. apply Hw2. }
    rewrite H1.
    apply plus_digit_greedy; try assumption. apply Nat.le_succ_diag_r.
  - (* a numeral with a fraction *)
    assert (Hnum : (num ++ post
                    = String d (ip' ++ String "." (String f (fp' ++ post))))%string).
    { unfold num, numeral. simpl. rewrite app_assoc_s. reflexivity. }
    rewrite Hnum in *.
    simpl in Hfp. apply andb_true_iff in Hfp as [Hf Hfp'].
    assert (H1 : Re.run (Re.Cat (Re.Plus Re.digit) (Re.Cat (Re.Chr ".") (Re.Plus Re.digit)))
                   (length (String d (ip' ++ String "." (String f (fp' ++ post)))))
                   (String d (ip' ++ String "." (String f (fp' ++ post)))) None kG
                 = Some (Re.MkMatch "" num (Some num) post)).
    { rewrite run_cat.
      apply plus_digit_greedy; try assumption; [reflexivity | apply Nat.le_succ_diag_r |].
      rewrite point_then_digits. simpl Ascii.eqb. cbv iota.
      apply plus_digit_greedy; try assumption.
      cbn [length]. rewrite !length_app. cbn [length]. rewrite !length_app. lia. }
    rewrite H1. reflexivity.
Qed.

End FirstNumeral.

Lemma match_here_float_none :
  forall c t, Str.is_digit c = false -> Re.match_here float_re (String c t) = None.
Proof.
  intros c t Hc. unfold Re.match_here, float_re.
  rewrite run_grp, run_alt, run_cat, !plus_digit_fails by exact Hc. reflexivity.
Qed.

Lemma search_float_first :
  forall pre s m,
    Str.forallb (fun c => negb (Str.is_digit c)) pre = true ->
    Re.match_here float_re s = Some m ->
    Re.search float_re (pre ++ s)
    = Some (Re.MkMatch (pre ++ Re.m_before m) (Re.m_text m) (Re.m_group1 m) (Re.m_after m)).
Proof.
  induction pre as [|c pre IH]; intros s m Hpre Hm.
  - cbn [append]. destruct s; cbn [Re.search]; rewrite Hm; destruct m; reflexivity.
  - simpl in Hpre. apply andb_true_iff in Hpre as [Hc Hpre].
    apply negb_true_iff in Hc.
    cbn [append Re.search]. rewrite (match_here_float_none c _ Hc).
    rewrite (IH s m Hpre Hm). reflexivity.
Qed.

Lemma span_digits_exact :
  forall w r,
    Str.forallb Str.is_digit w = true -> stops Str.is_digit r = true ->
    Py.span_digits (w ++ r) = (w, r).
Proof.
  induction w as [|c w IH]; intros r Hw Hr.
  - destruct r as [|c r]; [reflexivity |].
    simpl in *. apply negb_true_iff in Hr. rewrite Hr. reflexivity.
  - simpl in Hw. apply andb_true_iff in Hw as [Hc Hw].
    simpl. rewrite Hc, (IH r Hw Hr). reflexivity.
Qed.

Lemma digit_or_point_plain :
  forall c, Str.is_digit c || Ascii.eqb "." c = true ->
            negb (Str.is_space c) = true /\ negb (Ascii.eqb c "_") = true.
Proof.
  intro c. destruct c as [[] [] [] [] [] [] [] []]; intro H;
    first [split; reflexivity | discriminate H].
Qed.

Lemma digit_not_word :
  forall c t,
    Str.is_digit c = true ->
    Str.among (Str.lower (String c t)) ["inf"; "infinity"] = false
    /\ String.eqb (Str.lower (String c t)) "nan" = false.
Proof.
  intros c t. destruct c as [[] [] [] [] [] [] [] []]; intro H;
    first [split; reflexivity | discriminate H].
Qed.

(** [float] of a numeral is the binary64 nearest to it. *)
Lemma float_of_numeral :
  forall d ip' fp,
    Str.is_digit d = true ->
    Str.forallb Str.is_digit ip' = true ->
    Str.forallb Str.is_digit fp = true ->
    Py.float (numeral (String d ip') fp)
    = Return (Py.dec_to_float false (Py.digits_val (String d ip' ++ fp))
                (- Z.of_nat (length fp))).
Proof.
  intros d ip' fp Hd Hip' Hfp.
  assert (Hip : Str.forallb Str.is_digit (String d ip') = true)
    by (simpl; rewrite Hd, Hip'; reflexivity).
  assert (Hchars : Str.forallb (fun c => Str.is_digit c || Ascii.eqb "." c)
                     (numeral (String d ip') fp) = true).
  { set (q := fun c => Str.is_digit c || Ascii.eqb "." c).
    assert (Hq : forall s, Str.forallb Str.is_digit s = true -> Str.forallb q s = true).
    { apply forallb_impl. intros c Hc. unfold q. rewrite Hc. reflexivity. }
    unfold numeral. rewrite forallb_app. apply andb_true_iff. split.
    - apply Hq. exact Hip.
    - destruct fp as [|f fp']; [reflexivity |].
      change (q "."%char && Str.forallb q (String f fp') = true).
      rewrite (Hq _ Hfp). reflexivity. }
  unfold Py.float.
  rewrite strip_id
    by (eapply forallb_impl; [| exact Hchars]; intros c Hc;
        apply (digit_or_point_plain c Hc)).
  rewrite drop_underscores_id;
    [| eapply forallb_impl; [| exact Hchars]; intros c Hc;
       apply (digit_or_point_plain c Hc) | discriminate].
  unfold numeral. cbn [append]. rewrite (split_sign_digit d _ Hd).
  destruct (digit_not_word d (ip' ++ match fp with "" => "" | String _ _ => String "." fp end) Hd)
    as [-> ->].
  unfold Py.parse_decimal.
  change (String d (ip' ++ match fp with "" => "" | String _ _ => String "." fp end))
    with (String d ip' ++ match fp with "" => "" | String _ _ => String "." fp end)%string.
  rewrite (span_digits_exact (String d ip')) by (try exact Hip; destruct fp; reflexivity).
  destruct fp as [|f fp'].
  - rewrite !app_empty_r. reflexivity.
  - pose proof (span_digits_exact (String f fp') "" Hfp eq_refl) as Hs.
    rewrite app_empty_r in Hs. rewrite Hs.
    cbn [append Py.parse_exponent]. rewrite Z.sub_0_l. reflexivity.
Qed.

(** [parse_float] reads the first numeral. *)
Lemma parse_float_first_numeral :
  forall pre d ip' fp post,
    Str.forallb (fun c => negb (Str.is_digit c)) pre = true ->
    Str.is_digit d = true ->
    Str.forallb Str.is_digit ip' = true ->
    Str.forallb Str.is_digit fp = true ->
    stops Str.is_digit post = true ->
    (fp = "" -> frac_follows post = false) ->
    parse_float (pre ++ numeral (String d ip') fp ++ post)
    = Return (Some (Py.dec_to_float false (Py.digits_val (String d ip' ++ fp))
                      (- Z.of_nat (length fp)))).
Proof.
  intros pre d ip' fp post Hpre Hd Hip' Hfp Hpost Hfrac.
  unfold parse_float.
  assert (Hne : String.eqb (pre ++ numeral (String d ip') fp ++ post) "" = false).
  { destruct pre; reflexivity. }
  rewrite Hne.
  rewrite (search_float_first pre _ _ Hpre
             (match_here_numeral d ip' fp post Hd Hip' Hfp Hpost Hfrac)).
  unfold group1. cbn [Re.m_group1].
  rewrite (float_of_numeral d ip' fp Hd Hip' Hfp). reflexivity.
Qed.

(** ** Last group, first numeral *)



(** ** Frames: rows read by label *)

Lemma col_index_lt :
  forall name cols i, col_index name cols = Some i -> (i < List.length cols)%nat.
Proof.
  induction cols as [|c cols IH]; intros i H; simpl in H; [discriminate |].
  destruct (String.eqb name c).
  - injection H as <-. simpl. lia.
  - destruct (col_index name cols) as [j|]; [| discriminate].
    injection H as <-. simpl. specialize (IH j eq_refl). lia.
Qed.

Lemma length_set_nth :
  forall i v r, List.length (set_nth i v r) = List.length r.
Proof.
  induction i as [|i IH]; intros v [|x r]; simpl; try reflexivity.
  rewrite IH. reflexivity.
Qed.

Lemma view_set :
  forall cols name i v r n,
    List.length r = List.length cols ->
    col_index name cols = Some i ->
    view cols (set_nth i v r) n = upd (view cols r) name v n.
Proof.
  unfold view, upd, row_get.
  induction cols as [|c cols IH]; intros name i v r n Hlen Hi; [discriminate |].
  destruct r as [|x r]; [discriminate |].
  simpl in Hlen. injection Hlen as Hlen.
  simpl in Hi. simpl col_index.
  destruct (String.eqb_spec name c) as [-> | Hne].
  - injection Hi as <-. simpl.
    destruct (String.eqb_spec n c) as [_ | Hn]; [reflexivity |].
    destruct (col_index n cols); reflexivity.
  - destruct (col_index name cols) as [j|] eqn:Hj; [| discriminate].
    injection Hi as <-. simpl.
    destruct (String.eqb_spec n c) as [-> | Hn].
    + destruct (String.eqb_spec c name) as [Hc | _]; [symmetry in Hc; contradiction |].
      reflexivity.
    + specialize (IH name j v r n Hlen Hj).
      destruct (col_index n cols) as [k|]; simpl; exact IH.
Qed.

Lemma view_append :
  forall cols name v r n,
    List.length r = List.length cols ->
    col_index name cols = None ->
    view (cols ++ [name]) (r ++ [v]) n = upd (view cols r) name v n.
Proof.
  unfold view, upd, row_get.
  induction cols as [|c cols IH]; intros name v r n Hlen Hi.
  - destruct r; [| discriminate]. simpl.
    destruct (String.eqb n name); reflexivity.
  - destruct r as [|x r]; [discriminate |].
    simpl in Hlen. injection Hlen as Hlen.
    simpl in Hi. simpl.
    destruct (String.eqb_spec name c) as [-> | Hne]; [discriminate |].
    destruct (col_index name cols) eqn:Hj; [discriminate |].
    destruct (String.eqb_spec n c) as [-> | Hn].
    + destruct (String.eqb_spec c name) as [Hc | _]; [symmetry in Hc; contradiction |].
      reflexivity.
    + specialize (IH name v r n Hlen Hj).
      destruct (col_index n (cols ++ [name])) as [k|];
        destruct (col_index n cols) as [k'|]; simpl; exact IH.
Qed.

Lemma map_rows_Forall2 :
  forall f rows rows',
    map_rows f rows = Return rows' <-> Forall2 (fun r r' => f r = Return r') rows rows'.
Proof.
  induction rows as [|r rows IH]; intros rows'; simpl.
  - split.
    + intro H. injection H as <-. constructor.
    + intro H. inversion H. reflexivity.
  - split.
    + intro H. destruct (f r) as [r1 | e] eqn:Hr; [| discriminate]. simpl in H.
      destruct (map_rows f rows) as [rest | e] eqn:Hrest; [| discriminate].
      simpl in H. injection H as <-. constructor; [exact Hr |].
      apply IH. reflexivity.
    + intro H. inversion H as [| r0 r1 l0 l1 Hr Hrest]; subst.
      rewrite Hr. simpl. apply IH in Hrest. rewrite Hrest. reflexivity.
Qed.

(** What [df[name] = f(row)] does to the rows read by label: if a property
    [Q] holds of every row and carries over to the row with [name]
    updated, the new frame is aligned and [Q'] holds of its rows. *)
Lemma assign_rows :
  forall name f df df' (Q Q' : (string -> value) -> Prop),
    aligned df ->
    assign name f df = Return df' ->
    Forall (fun r => Q (view (columns df) r)) (data df) ->
    (forall r v g',
        Q (view (columns df) r) -> f r = Return v ->
        (forall n, g' n = upd (view (columns df) r) name v n) -> Q' g') ->
    aligned df' /\ Forall (fun r' => Q' (view (columns df') r')) (data df').
Proof.
  intros name f df df' Q Q' Hal Has HQ Hstep. unfold assign in Has.
  destruct (col_index name (columns df)) as [i|] eqn:Hi.
  - destruct (map_rows _ (data df)) as [rows | e] eqn:Hrows; [| discriminate].
    simpl in Has. injection Has as <-. simpl.
    apply map_rows_Forall2 in Hrows. unfold aligned in *. simpl.
    revert Hal HQ. induction Hrows as [| r r' l l' Hr Hl IH]; intros Hal HQ.
    + split; constructor.
    + inversion Hal; subst. inversion HQ; subst.
      destruct (IH ltac:(assumption) ltac:(assumption)) as [IHa IHq].
      destruct (f r) as [v | e] eqn:Hf; [| discriminate]. simpl in Hr.
      injection Hr as <-. split; constructor; try assumption.
      * rewrite length_set_nth. assumption.
      * eapply Hstep; [eassumption | exact Hf |].
        intro n. apply view_set; assumption.
  - destruct (map_rows _ (data df)) as [rows | e] eqn:Hrows; [| discriminate].
    simpl in Has. injection Has as <-. simpl.
    apply map_rows_Forall2 in Hrows. unfold aligned in *. simpl.
    revert Hal HQ. induction Hrows as [| r r' l l' Hr Hl IH]; intros Hal HQ.
    + split; constructor.
    + inversion Hal; subst. inversion HQ; subst.
      destruct (IH ltac:(assumption) ltac:(assumption)) as [IHa IHq].
      destruct (f r) as [v | e] eqn:Hf; [| discriminate]. simpl in Hr.
      injection Hr as <-. split; constructor; try assumption.
      * rewrite !List.length_app. simpl. lia.
      * eapply Hstep; [eassumption | exact Hf |].
        intro n. apply view_append; assumption.
Qed.

(** ** Reconciled frames *)

Lemma derive_ldcp_cells :
  forall cols r,
    derive_ldcp cols r = derive_cells (view cols r "Current") (view cols r "Change").
Proof. reflexivity. Qed.

Section Reconciled.

Variable float_repr : spec_float -> string.
Variable now : string.

Lemma ensure_columns_aligned :
  forall cols df df',
    aligned df -> ensure_columns cols df = Return df' -> aligned df'.
Proof.
  induction cols as [|col cols IH]; intros df df' Hal H; simpl in H.
  - injection H as <-. exact Hal.
  - destruct (existsb (String.eqb col) (columns df)); [eapply IH; eassumption |].
    destruct (assign_const col NA df) as [df1 | e] eqn:H1; [| discriminate].
    simpl in H. eapply IH; [| exact H].
    unfold assign_const in H1.
    eapply (assign_rows col _ df df1 (fun _ => True) (fun _ => True)); eauto.
    apply Forall_forall. trivial.
Qed.

Ltac frame_step H dfn Heq :=
  cbn [map_columns bind] in H;
  lazymatch type of H with
  | bind (bind ?m _) _ = _ =>
      destruct m as [dfn | ?] eqn:Heq; cbn [bind map_columns] in H; [| discriminate H]
  | bind ?m _ = _ =>
      destruct m as [dfn | ?] eqn:Heq; cbn [bind map_columns] in H; [| discriminate H]
  end.

Ltac carry Hg :=
  unfold Q10, Q9, Q8, Q7, Q6, Q5, Q4, Q3, Q2, Q1 in *;
  rewrite ?Hg; unfold upd; simpl String.eqb; cbv iota;
  repeat split; try tauto.

(** The frame before the date of the page is added and the columns
    chosen. *)
Lemma reconcile_rows :
  forall raw df,
    aligned raw ->
    bind (ensure_columns target (rename_columns rename_label raw)) (fun df =>
    bind (map_columns ["High"; "Low"; "Current"; "Change"] (_to_float float_repr) df) (fun df =>
    bind (map_column "Change %" (_to_percent float_repr) df) (fun df =>
    bind (assign "LDCP" (derive_ldcp (columns df)) df) (fun df =>
    bind (assign_const "Open" NA df) (fun df =>
    bind (assign_const "Volume" NA df) (fun df =>
    bind (assign_const "scraped_at" (VStr now) df) (fun df =>
    assign_const "source" (VStr "dps.psx.com.pk/indices") df))))))) = Return df ->
    aligned df /\ Forall (fun r => (Q10 float_repr now) (view (columns df) r)) (data df).
Proof.
  intros raw df Hal H.
  assert (Hal0 : aligned (rename_columns rename_label raw)).
  { unfold aligned in *. simpl. rewrite length_map. exact Hal. }
  frame_step H dfA HA.
  pose proof (ensure_columns_aligned _ _ _ Hal0 HA) as HalA.
  frame_step H dfB HB. frame_step H dfC HC. frame_step H dfD HD. frame_step H dfE HE.
  frame_step H dfF HF. frame_step H dfG HG. frame_step H dfH HH. frame_step H dfI HI.
  frame_step H dfJ HJ.
  unfold map_column, assign_const in *.
  destruct (assign_rows _ _ _ _ (fun _ => True) (Q1 float_repr) HalA HB) as [HalB HQB].
  { apply Forall_forall. trivial. }
  { intros r v g' _ Hv Hg. unfold Q1. rewrite Hg. unfold upd. simpl.
    eexists. exact Hv. }
  destruct (assign_rows _ _ _ _ (Q1 float_repr) (Q2 float_repr) HalB HC HQB) as [HalC HQC].
  { intros r v g' Hq Hv Hg. assert (normal float_repr v) by (eexists; exact Hv). carry Hg. }
  destruct (assign_rows _ _ _ _ (Q2 float_repr) (Q3 float_repr) HalC HD HQC) as [HalD HQD].
  { intros r v g' Hq Hv Hg. assert (normal float_repr v) by (eexists; exact Hv). carry Hg. }
  destruct (assign_rows _ _ _ _ (Q3 float_repr) (Q4 float_repr) HalD HE HQD) as [HalE HQE].
  { intros r v g' Hq Hv Hg. assert (normal float_repr v) by (eexists; exact Hv). carry Hg. }
  destruct (assign_rows _ _ _ _ (Q4 float_repr) (Q5 float_repr) HalE HF HQE) as [HalF HQF].
  { intros r v g' Hq Hv Hg. assert (normal_pct float_repr v) by (eexists; exact Hv). carry Hg. }
  destruct (assign_rows _ _ _ _ (Q5 float_repr) (Q6 float_repr) HalF HG HQF) as [HalG HQG].
  { intros r v g' Hq Hv Hg. rewrite derive_ldcp_cells in Hv. carry Hg. }
  destruct (assign_rows _ _ _ _ (Q6 float_repr) (Q7 float_repr) HalG HH HQG) as [HalH HQH].
  { intros r v g' Hq Hv Hg. injection Hv as <-. carry Hg. }
  destruct (assign_rows _ _ _ _ (Q7 float_repr) (Q8 float_repr) HalH HI HQH) as [HalI HQI].
  { intros r v g' Hq Hv Hg. injection Hv as <-. carry Hg. }
  destruct (assign_rows _ _ _ _ (Q8 float_repr) (Q9 float_repr now) HalI HJ HQI) as [HalJ HQJ].
  { intros r v g' Hq Hv Hg. injection Hv as <-. carry Hg. }
  destruct (assign_rows _ _ _ _ (Q9 float_repr now) (Q10 float_repr now) HalJ H HQJ) as [HalK HQK].
  { intros r v g' Hq Hv Hg. injection Hv as <-. carry Hg. }
  split; assumption.
Qed.

End Reconciled.

(** ** Normalising a normalised cell *)

Lemma to_float_value :
  forall float_repr x v,
    _to_float float_repr x = Return v ->
    v = NA \/ exists f, v = VFloat f /\ Py.is_nan f = false.
Proof.
  intros float_repr x v H. unfold _to_float in H.
  destruct (isna x); [injection H as <-; left; reflexivity |].
  destruct (Str.among _ [""; "-"; "--"]); [injection H as <-; left; reflexivity |].
  rewrite num_cleaner_filter in H.
  destruct (Str.among _ [""; "+"; "-"]); [injection H as <-; left; reflexivity |].
  destruct (Py.float _) as [f | e] eqn:Hf; simpl in H; injection H as <-.
  - right. exists f. split; [reflexivity |].
    eapply float_not_nan; [| exact Hf].
    unfold no_n. eapply forallb_impl; [exact num_char_no_n | apply forallb_filter].
  - left. reflexivity.
Qed.

Lemma to_percent_value :
  forall float_repr x v,
    _to_percent float_repr x = Return v ->
    v = NA \/ exists f, v = VFloat f /\ Py.is_nan f = false.
Proof.
  intros float_repr x v H. unfold _to_percent in H.
  destruct (isna x); [injection H as <-; left; reflexivity |].
  destruct (Re.search percent_re (str float_repr x)) as [m|] eqn:Hm;
    [| eapply to_float_value; exact H].
  destruct (Py.float (group1 m)) as [f | e] eqn:Hf; simpl in H; injection H as <-.
  - right. exists f. split; [reflexivity |].
    eapply float_not_nan; [| exact Hf].
    unfold no_n. eapply forallb_impl; [exact percent_alphabet_no_n |].
    eapply search_group. exact Hm.
  - left. reflexivity.
Qed.

Lemma num_char_plain :
  forall c, num_char c = true ->
            negb (Str.is_space c) = true /\ negb (Ascii.eqb "," c) = true
            /\ negb (Ascii.eqb "%" c) = true.
Proof.
  intro c. destruct c as [[] [] [] [] [] [] [] []]; intro H;
    first [repeat split; reflexivity | discriminate H].
Qed.

Lemma to_float_of_text :
  forall float_repr s f,
    Py.float s = Return f ->
    Str.forallb num_char s = true ->
    _to_float float_repr (VStr s) = Return (VFloat f).
Proof.
  intros float_repr s f Hf Hs. unfold _to_float. simpl isna. cbv iota. simpl str.
  rewrite strip_id
    by (eapply forallb_impl; [| exact Hs]; intros c Hc; apply (num_char_plain c Hc)).
  assert (Hno : forall l, (forall t, In t l -> Py.float t <> Return f) ->
                          Str.among s l = false).
  { intros l Hl. unfold Str.among. apply not_true_is_false. intro Hex.
    apply existsb_exists in Hex. destruct Hex as (t & Hin & Heq).
    apply String.eqb_eq in Heq. subst t. exact (Hl s Hin Hf). }
  rewrite Hno by (intros t [<- | [<- | [<- | []]]]; discriminate).
  rewrite replace_char_filter.
  rewrite filter_forallb
    by (eapply forallb_impl; [| exact Hs]; intros c Hc; apply (num_char_plain c Hc)).
  rewrite num_cleaner_filter, (filter_forallb _ _ Hs).
  rewrite Hno by (intros t [<- | [<- | [<- | []]]]; discriminate).
  rewrite Hf. reflexivity.
Qed.

Lemma search_percent_none :
  forall s, Str.forallb num_char s = true -> Re.search percent_re s = None.
Proof.
  assert (Hhere : forall s, Str.forallb num_char s = true ->
                            Re.match_here percent_re s = None).
  { intros s Hs. destruct (Re.match_here percent_re s) as [m|] eqn:Hm; [| reflexivity].
    exfalso. unfold Re.match_here, percent_re in Hm.
    rewrite run_cat in Hm.
    apply run_consumed in Hm. destruct Hm as (s1 & g1 & Hm & [(w1 & -> & _) _]).
    rewrite run_cat in Hm.
    apply run_consumed in Hm. destruct Hm as (s2 & g2 & Hm & [(w2 & -> & _) _]).
    destruct s2 as [|c s2]; [discriminate |].
    unfold Re.Chr in Hm. rewrite run_cls_cons in Hm.
    destruct (Ascii.eqb_spec "%" c) as [<- | _]; [| discriminate].
    rewrite !forallb_app in Hs. simpl in Hs.
    rewrite !andb_false_r in Hs. discriminate. }
  induction s as [|c s IH]; intro Hs; cbn [Re.search]; rewrite (Hhere _ Hs);
    [reflexivity |].
  simpl in Hs. apply andb_true_iff in Hs as [_ Hs]. rewrite (IH Hs). reflexivity.
Qed.

Lemma str_float_finite :
  forall float_repr f, Py.is_finite f = true -> str_float float_repr f = float_repr f.
Proof. intros float_repr [s | s | | s m e] H; try discriminate H; reflexivity. Qed.

Lemma isna_finite : forall f, Py.is_finite f = true -> isna (VFloat f) = false.
Proof. intros [s | s | | s m e] H; try discriminate H; reflexivity. Qed.

Lemma to_float_fixed :
  forall float_repr v,
    normal float_repr v ->
    (forall f, v = VFloat f -> prints_back float_repr f) ->
    _to_float float_repr v = Return v.
Proof.
  intros float_repr v [x Hx] Hpb.
  destruct (to_float_value _ _ _ Hx) as [-> | (f & -> & _)]; [reflexivity |].
  destruct (Hpb f eq_refl) as (Hfin & Hrt & Hch).
  unfold _to_float. rewrite (isna_finite f Hfin).
  change (str float_repr (VFloat f)) with (str_float float_repr f).
  rewrite (str_float_finite _ f Hfin).
  pose proof (to_float_of_text float_repr _ f Hrt Hch) as H.
  unfold _to_float in H. simpl isna in H. cbv iota in H. exact H.
Qed.

Lemma to_percent_fixed :
  forall float_repr v,
    normal_pct float_repr v ->
    (forall f, v = VFloat f -> prints_back float_repr f) ->
    _to_percent float_repr v = Return v.
Proof.
  intros float_repr v [x Hx] Hpb.
  destruct (to_percent_value _ _ _ Hx) as [-> | (f & -> & _)]; [reflexivity |].
  destruct (Hpb f eq_refl) as (Hfin & Hrt & Hch).
  unfold _to_percent. rewrite (isna_finite f Hfin).
  change (str float_repr (VFloat f)) with (str_float float_repr f).
  rewrite (str_float_finite _ f Hfin).
  rewrite (search_percent_none _ Hch).
  apply to_float_of_text; assumption.
Qed.

(** ** Reconciling twice *)

Lemma map_rows_fixed :
  forall f rows,
    Forall (fun r => f r = Return r) rows -> map_rows f rows = Return rows.
Proof.
  intros f rows H. apply map_rows_Forall2.
  induction H; constructor; assumption.
Qed.

Lemma assign_fixed :
  forall name f cols rows i,
    col_index name cols = Some i ->
    Forall (fun r => exists v, f r = Return v /\ set_nth i v r = r) rows ->
    assign name f (MkFrame cols rows) = Return (MkFrame cols rows).
Proof.
  intros name f cols rows i Hi H. unfold assign. simpl. rewrite Hi.
  rewrite map_rows_fixed; [reflexivity |].
  eapply Forall_impl; [| exact H].
  intros r (v & Hv & Hs). rewrite Hv. simpl. rewrite Hs. reflexivity.
Qed.

Lemma map_fixed :
  forall (A : Type) (h : A -> A) l, Forall (fun x => h x = x) l -> List.map h l = l.
Proof. induction 1; simpl; [reflexivity | congruence]. Qed.

Section Twice.

Variable float_repr : spec_float -> string.
Variable now : string.

Lemma reconciled_stable :
  forall asof r,
    reconciled_row float_repr now asof r ->
    (forall name f, In name numeric_columns ->
                    row_get (canonical asof) r name NA = VFloat f ->
                    prints_back float_repr f) ->
    stable_row float_repr now asof r.
Proof.
  intros asof r (idx & ldcp & high & low & cur & chg & chgp & -> & Hh & Hl & Hc & Hg & Hp & Hd) Hpb.
  exists idx, ldcp, high, low, cur, chg, chgp.
  unfold numeric_columns, canonical in Hpb.
  split; [reflexivity |].
  repeat split; try exact Hd;
    first [apply to_float_fixed | apply to_percent_fixed]; try assumption;
    intros f ->.
  - apply (Hpb "High"); [simpl; tauto | reflexivity].
  - apply (Hpb "Low"); [simpl; tauto | reflexivity].
  - apply (Hpb "Current"); [simpl; tauto | reflexivity].
  - apply (Hpb "Change"); [simpl; tauto | reflexivity].
  - apply (Hpb "Change %"); [simpl; tauto | reflexivity].
Qed.

Ltac fixed_step :=
  match goal with
  | |- context [assign ?name ?f (MkFrame ?cols ?rows)] =>
      rewrite (assign_fixed name f cols rows _ eq_refl); [cbn [bind map_columns] |]
  end.

Lemma reconcile_stable :
  forall asof rows,
    Forall (stable_row float_repr now asof) rows ->
    reconcile float_repr now asof (MkFrame (canonical asof) rows)
    = Return (MkFrame (canonical asof) rows).
Proof.
  intros asof rows Hrows. unfold reconcile.
  assert (Hren : rename_columns rename_label (MkFrame (canonical asof) rows)
                 = MkFrame (canonical asof) rows).
  { unfold rename_columns, canonical, asof_given. simpl data. f_equal.
    destruct asof as [d|]; [destruct (String.eqb d "") |]; reflexivity. }
  rewrite Hren.
  assert (Hens : ensure_columns target (MkFrame (canonical asof) rows)
                 = Return (MkFrame (canonical asof) rows)).
  { unfold canonical, asof_given.
    destruct asof as [d|]; [destruct (String.eqb d "") |]; reflexivity. }
  rewrite Hens. cbn [bind map_columns]. unfold map_column, assign_const.
  assert (Hsel :
    forall names,
      names = canonical asof ->
      select names (MkFrame (canonical asof) rows) = MkFrame (canonical asof) rows).
  { intros names ->. unfold select. simpl. f_equal. apply map_fixed.
    eapply Forall_impl; [| exact Hrows].
    intros r (idx & ldcp & high & low & cur & chg & chgp & -> & _).
    unfold canonical, asof_given.
    destruct asof as [d|]; [destruct (String.eqb d "") |]; reflexivity. }
  unfold stable_row, canonical, asof_given in *.
  destruct asof as [d|]; [destruct (String.eqb d "") eqn:Hd |].
  all: repeat (fixed_step;
               [| eapply Forall_impl; [| exact Hrows];
                  intros r (idx & ldcp & high & low & cur & chg & chgp & -> & Hh & Hl & Hc & Hg & Hp & Hdv);
                  cbn [columns row_get col_index String.eqb Ascii.eqb Bool.eqb option_map nth app];
                  rewrite ?derive_ldcp_cells; unfold view; 
                  cbn [columns row_get col_index String.eqb Ascii.eqb Bool.eqb option_map nth app];
                  eexists; split; [first [eassumption | reflexivity] | reflexivity]]).
  all: cbn [bind]; rewrite Hsel by reflexivity; reflexivity.
Qed.

End Twice.

Lemma reconcile_reconciled :
  forall float_repr now asof raw df1,
    aligned raw ->
    reconcile float_repr now asof raw = Return df1 ->
    reconciled float_repr now asof df1.
Proof.
  intros float_repr now asof raw df1 Hal H.
  unfold reconcile in H.
  destruct (bind (ensure_columns target (rename_columns rename_label raw)) (fun df =>
            bind (map_columns ["High"; "Low"; "Current"; "Change"] (_to_float float_repr) df) (fun df =>
            bind (map_column "Change %" (_to_percent float_repr) df) (fun df =>
            bind (assign "LDCP" (derive_ldcp (columns df)) df) (fun df =>
            bind (assign_const "Open" NA df) (fun df =>
            bind (assign_const "Volume" NA df) (fun df =>
            bind (assign_const "scraped_at" (VStr now) df) (fun df =>
            assign_const "source" (VStr "dps.psx.com.pk/indices") df))))))))
    as [dfK | e] eqn:Hcore.
  - destruct (reconcile_rows float_repr now raw dfK Hal Hcore) as [HalK HQK].
    assert (Hrest :
      bind (match asof with
            | Some d => if String.eqb d "" then Return dfK
                        else assign_const "source_as_of" (VStr d) dfK
            | None => Return dfK
            end) (fun df =>
      Return (select (["Index Name"; "LDCP"; "Open"; "High"; "Low"; "Current"; "Change";
                       "Change %"; "Volume"; "scraped_at"; "source"]
                      ++ match asof with
                         | Some d => if String.eqb d "" then [] else ["source_as_of"]
                         | None => []
                         end)%list df)) = Return df1).
    { rewrite <- H. clear H.
      repeat match type of Hcore with
             | bind ?m _ = _ =>
                 destruct m; cbn [bind] in Hcore |- *; [| discriminate Hcore]
             end.
      rewrite Hcore. reflexivity. }
    clear H Hcore.
    assert (Hsel : forall df names tail,
               Forall (fun r => Q10 float_repr now (view (columns df) r)
                                /\ List.map (fun n => view (columns df) r n) tail
                                   = match asof_given asof with
                                     | Some d => [VStr d]
                                     | None => []
                                     end) (data df) ->
               names = (["Index Name"; "LDCP"; "Open"; "High"; "Low"; "Current"; "Change";
                         "Change %"; "Volume"; "scraped_at"; "source"] ++ tail)%list ->
               tail = match asof_given asof with Some _ => ["source_as_of"] | None => [] end ->
               reconciled float_repr now asof (select names df)).
    { intros df names tail Hrows -> ->. split; [reflexivity |].
      unfold select. cbn [data]. apply Forall_map.
      eapply Forall_impl; [| exact Hrows].
      intros r [Hq Htail].
      unfold Q10, Q9, Q8, Q7, Q6, Q5, Q4, Q3, Q2, Q1 in Hq.
      destruct Hq as (((((((((Hh & Hl) & Hc) & Hg) & Hp) & Hd) & Ho) & Hv) & Hs) & Hsrc).
      exists (view (columns df) r "Index Name"), (view (columns df) r "LDCP"),
        (view (columns df) r "High"), (view (columns df) r "Low"),
        (view (columns df) r "Current"), (view (columns df) r "Change"),
        (view (columns df) r "Change %").
      split; [| repeat split; assumption].
      rewrite List.map_app. rewrite <- Htail.
      cbn [List.map]. unfold view in Ho, Hv, Hs, Hsrc |- *.
      rewrite Ho, Hv, Hs, Hsrc. reflexivity. }
    unfold asof_given in Hsel.
    destruct asof as [d|]; [destruct (String.eqb d "") eqn:Hd |]; cbn [bind] in Hrest.
    + injection Hrest as <-. eapply Hsel; [| reflexivity | reflexivity].
      eapply Forall_impl; [| exact HQK]. intros r Hq. split; [exact Hq | reflexivity].
    + destruct (assign_const "source_as_of" (VStr d) dfK) as [dfL | e] eqn:HL;
        [| discriminate]. cbn [bind] in Hrest. injection Hrest as <-.
      unfold assign_const in HL.
      destruct (assign_rows _ _ _ _ (Q10 float_repr now)
                  (fun g => Q10 float_repr now g /\ g "source_as_of" = VStr d)
                  HalK HL HQK) as [_ HQL].
      { intros r v g' Hq Hv Hg. injection Hv as <-.
        unfold Q10, Q9, Q8, Q7, Q6, Q5, Q4, Q3, Q2, Q1 in *.
        rewrite ?Hg. unfold upd. simpl String.eqb. cbv iota.
        repeat split; try tauto. }
      eapply Hsel; [| reflexivity | reflexivity].
      eapply Forall_impl; [| exact HQL]. intros r [Hq Hd']. split; [exact Hq |].
      cbn [List.map]. rewrite Hd'. reflexivity.
    + injection Hrest as <-. eapply Hsel; [| reflexivity | reflexivity].
      eapply Forall_impl; [| exact HQK]. intros r Hq. split; [exact Hq | reflexivity].
  - exfalso.
    repeat match type of Hcore with
           | bind ?m _ = _ =>
               destruct m; cbn [bind] in Hcore, H; [| discriminate H]
           end.
    rewrite Hcore in H. discriminate H.
Qed.

(** C9, refuted as stated: reconciling what [reconcile] returned does not
    always give it back, even with a [repr] that prints every finite float
    of the five numeric columns as a numeral that reads back as the same
    float.  A Current cell reading 1e999 pts becomes the float infinity,
    which prints as inf, loses every character to the cleaner and is absent
    after the second pass, and LDCP with it; the Change cell, the finite
    float 1.0, prints as 1.0 and is kept. *)
Lemma reconcile_twice_differs :
  ~ (forall float_repr now asof raw df1,
        aligned raw ->
        NoDup (List.map rename_label (columns raw)) ->
        data raw <> [] ->
        reconcile float_repr now asof raw = Return df1 ->
        (forall r name f,
            In r (data df1) -> In name numeric_columns ->
            row_get (columns df1) r name NA = VFloat f ->
            Py.is_finite f = true ->
            prints_back float_repr f) ->
        reconcile float_repr now asof df1 = Return df1).
Proof.
  intro H.
  specialize (H repr_one "2025-01-01T00:00:00+05:00" None table_overflow frame_overflow).
  assert (H1 : aligned table_overflow) by (repeat constructor).
  assert (H2 : NoDup (List.map rename_label (columns table_overflow))).
  { vm_compute. repeat constructor; simpl; intuition discriminate. }
  assert (H3 : reconcile repr_one "2025-01-01T00:00:00+05:00" None table_overflow
               = Return frame_overflow) by (vm_compute; reflexivity).
  specialize (H H1 H2 ltac:(discriminate) H3).
  assert (H4 : reconcile repr_one "2025-01-01T00:00:00+05:00" None frame_overflow
               = Return frame_overflow_twice) by (vm_compute; reflexivity).
  rewrite H4 in H.
  assert (H5 : Return frame_overflow_twice = Return frame_overflow).
  { apply H. intros r name f [<- | []] Hname Hf Hfin.
    simpl in Hname.
    destruct Hname as [<- | [<- | [<- | [<- | [<- | []]]]]];
      vm_compute in Hf; try discriminate Hf; injection Hf as <-;
      first [ discriminate Hfin
            | split; [reflexivity | split; vm_compute; reflexivity] ]. }
  vm_compute in H5. discriminate H5.
Qed.

(** C9, amended: reconciling an already-reconciled frame, with the same
    clock reading and page date, gives the same frame again, provided the
    floats in its five numeric columns are finite and print as numerals that
    read back as themselves, as the [repr] of a finite float does; a cell
    that overflowed to infinity is the exception. *)
Theorem reconcile_idempotent_on_finite :
  forall float_repr now asof raw df1,
    aligned raw ->
    NoDup (List.map rename_label (columns raw)) ->
    data raw <> [] ->
    reconcile float_repr now asof raw = Return df1 ->
    (forall r name f,
        In r (data df1) -> In name numeric_columns ->
        row_get (columns df1) r name NA = VFloat f ->
        prints_back float_repr f) ->
    reconcile float_repr now asof df1 = Return df1.
Proof.
  intros float_repr now asof raw df1 Hal _ _ H1 Hpb.
  destruct (reconcile_reconciled _ _ _ _ _ Hal H1) as [Hcols Hrows].
  destruct df1 as [cols rows]. cbn [columns data] in *. subst cols.
  apply reconcile_stable.
  rewrite Forall_forall in Hrows.
  apply Forall_forall. intros r Hr.
  apply reconciled_stable.
  - apply Hrows. exact Hr.
  - intros name f Hname Hf. eapply Hpb; eassumption.
Qed.

Lemma reconcile_idempotent_on_finite_witness :
  reconcile repr_sample "2025-01-01T00:00:00+05:00" None frame_finite
  = Return frame_finite.
Proof.
  apply (reconcile_idempotent_on_finite repr_sample "2025-01-01T00:00:00+05:00" None
           table_finite frame_finite).
  - repeat constructor.
  - vm_compute. repeat constructor; simpl; intuition discriminate.
  - discriminate.
  - vm_compute. reflexivity.
  - intros r name f [<- | []] Hname Hf.
    simpl in Hname.
    destruct Hname as [<- | [<- | [<- | [<- | [<- | []]]]]];
      vm_compute in Hf; try discriminate Hf; injection Hf as <-;
      (split; [reflexivity | split; vm_compute; reflexivity]).
Defined.

(** * Further properties of the code *)

(** ** What [get_html] returns, sends and reports *)

Lemma get_html_loop_outcome :
  forall net url backoff todo attempt last_err w r w',
    get_html_loop net url backoff todo attempt last_err w = (r, w') ->
    (exists i text,
        r = Return text
        /\ (i < todo)%nat
        /\ net (sent w + i)%nat url = Response 200 text
        /\ (forall j, (j < i)%nat -> ok200 (net (sent w + j)%nat url) = false)
        /\ sent w' = (sent w + i + 1)%nat)
    \/ (r = Raise (RuntimeError
                     (FailedToFetch url (reported (answers_from net url (sent w) todo) last_err)))
        /\ (forall j, (j < todo)%nat -> ok200 (net (sent w + j)%nat url) = false)
        /\ sent w' = (sent w + todo)%nat).
Proof.
  intros net url backoff todo.
  induction todo as [|todo IH]; intros attempt last_err w r w' H.
  - simpl in H. injection H as <- <-. right. split; [reflexivity |].
    split; [intros j Hj; lia | lia].
  - cbn [get_html_loop requests_get] in H.
    assert (Hnext : forall a l w1,
               sent w1 = S (sent w) ->
               ok200 (net (sent w) url) = false ->
               reported (answers_from net url (sent w) (S todo)) last_err
               = reported (answers_from net url (S (sent w)) todo) l ->
               get_html_loop net url backoff todo a l w1 = (r, w') ->
               (exists i text,
                   r = Return text
                   /\ (i < S todo)%nat
                   /\ net (sent w + i)%nat url = Response 200 text
                   /\ (forall j, (j < i)%nat -> ok200 (net (sent w + j)%nat url) = false)
                   /\ sent w' = (sent w + i + 1)%nat)
               \/ (r = Raise (RuntimeError
                                (FailedToFetch url
                                   (reported (answers_from net url (sent w) (S todo)) last_err)))
                   /\ (forall j, (j < S todo)%nat -> ok200 (net (sent w + j)%nat url) = false)
                   /\ sent w' = (sent w + S todo)%nat)).
    { intros a l w1 Hw1 H0 Hrep Hloop.
      assert (Hshift : forall j, net (sent w1 + j)%nat url = net (sent w + S j)%nat url).
      { intro j. rewrite Hw1. f_equal. lia. }
      destruct (IH a l w1 r w' Hloop)
        as [(i & text & -> & Hi & Hok & Hfail & Hs) | (-> & Hfail & Hs)].
      - left. exists (S i), text. split; [reflexivity |]. split; [lia |].
        split; [rewrite <- Hshift; exact Hok |]. split; [| lia].
        intros [|j] Hj; [rewrite Nat.add_0_r; exact H0 |].
        rewrite <- Hshift. apply Hfail. lia.
      - right. split; [rewrite Hrep, Hw1; reflexivity |]. split; [| lia].
        intros [|j] Hj; [rewrite Nat.add_0_r; exact H0 |].
        rewrite <- Hshift. apply Hfail. lia. }
    unfold answers_from in Hnext |- *. cbn [seq List.map reported] in Hnext |- *.
    destruct (net (sent w) url) as [status_code text | e] eqn:Hans.
    + destruct (status_code =? 200) eqn:H200.
      * injection H as <- <-. left. exists O, text.
        apply Z.eqb_eq in H200. subst status_code.
        split; [reflexivity |]. split; [lia |].
        split; [rewrite Nat.add_0_r; exact Hans |].
        split; [intros j Hj; lia | simpl; lia].
      * destruct (existsb (Z.eqb status_code) transient) eqn:Htr.
        -- eapply Hnext; [| | | exact H]; [reflexivity | exact H200 | reflexivity].
        -- unfold raise_for_status in H.
           destruct ((400 <=? status_code) && (status_code <? 600)) eqn:Herr.
           ++ eapply Hnext; [| | | exact H]; [reflexivity | exact H200 | reflexivity].
           ++ eapply Hnext; [| | | exact H]; [reflexivity | exact H200 | reflexivity].
    + eapply Hnext; [| | | exact H]; [reflexivity | reflexivity | reflexivity].
Qed.

Lemma reported_transient :
  forall answers last_err,
    Forall (fun a => match a with
                     | Response c _ => existsb (Z.eqb c) transient = true
                     | Failed _ => False
                     end) answers ->
    reported answers last_err = last_err.
Proof.
  induction answers as [|a rest IH]; intros last_err H; [reflexivity |].
  inversion H as [| a0 l0 Ha Hrest]; subst.
  destruct a as [c t | e]; [| contradiction].
  cbn [reported]. rewrite Ha. apply IH. exact Hrest.
Qed.

Lemma reported_last :
  forall answers a last_err,
    reported (answers ++ [a]) last_err
    = match a with
      | Failed e => Some e
      | Response c _ =>
          if existsb (Z.eqb c) transient then reported answers last_err
          else if (400 <=? c) && (c <? 600) then Some (HTTPError c)
               else reported answers last_err
      end.
Proof.
  induction answers as [|x rest IH]; intros a last_err.
  - destruct a as [c t | e]; cbn [app reported]; [| reflexivity].
    destruct (existsb (Z.eqb c) transient); [reflexivity |].
    destruct ((400 <=? c) && (c <? 600)); reflexivity.
  - destruct x as [c t | e]; cbn [app reported].
    + destruct (existsb (Z.eqb c) transient); [apply IH |].
      destruct ((400 <=? c) && (c <? 600)); apply IH.
    + apply IH.
Qed.

(** X1: [get_html] returns nothing but the text of a response of status
    200: when it returns, some attempt within [retries] was answered 200
    with that text, no earlier one was, and no request was sent after it;
    when it raises, it is its [RuntimeError] for that URL, every one of the
    [retries] requests was sent and none was answered 200. *)
Theorem get_html_returns_only_200 :
  forall net url retries backoff w r w',
    get_html net url retries backoff w = (r, w') ->
    (forall text,
        r = Return text ->
        exists i,
          (i < retries)%nat
          /\ net (sent w + i)%nat url = Response 200 text
          /\ (forall j, (j < i)%nat -> ok200 (net (sent w + j)%nat url) = false)
          /\ sent w' = (sent w + i + 1)%nat)
    /\ (forall e,
          r = Raise e ->
          (exists last_err, e = RuntimeError (FailedToFetch url last_err))
          /\ (forall j, (j < retries)%nat -> ok200 (net (sent w + j)%nat url) = false)
          /\ sent w' = (sent w + retries)%nat).
Proof.
  intros net url retries backoff w r w' H. unfold get_html in H.
  destruct (get_html_loop_outcome _ _ _ _ _ _ _ _ _ H)
    as [(i & text & -> & Hi & Hok & Hfail & Hs) | (-> & Hfail & Hs)].
  - split.
    + intros t Ht. injection Ht as <-. exists i. repeat split; assumption.
    + intros e He. discriminate.
  - split.
    + intros t Ht. discriminate.
    + intros e He. injection He as <-. split; [eexists; reflexivity |].
      split; assumption.
Qed.

Lemma get_html_returns_only_200_witness :
  exists i,
    (i < 3)%nat
    /\ net_404_then_page (sent io0 + i)%nat "u" = Response 200 "<html></html>"
    /\ (forall j, (j < i)%nat -> ok200 (net_404_then_page (sent io0 + j)%nat "u") = false)
    /\ sent (snd (get_html net_404_then_page "u" 3 (16 # 10) io0)) = (sent io0 + i + 1)%nat.
Proof.
  apply (proj1 (get_html_returns_only_200 net_404_then_page "u" 3 (16 # 10) io0
                  _ _ eq_refl) "<html></html>").
  reflexivity.
Defined.

(** X2: the error [get_html] names in its [RuntimeError] is that of the last
    attempt: the connection error or time-out of that attempt, or the HTTP
    error of its status when it is a 4xx or 5xx outside the transient five.
    A transient status records no error: after attempts that all met one,
    the error named is [None]. *)
Theorem get_html_reports_last_error :
  forall net url retries backoff w,
    (forall j, (j < S retries)%nat -> ok200 (net (sent w + j)%nat url) = false) ->
    (forall e,
        net (sent w + retries)%nat url = Failed e ->
        fst (get_html net url (S retries) backoff w)
        = Raise (RuntimeError (FailedToFetch url (Some e))))
    /\ (forall c text,
          net (sent w + retries)%nat url = Response c text ->
          existsb (Z.eqb c) transient = false ->
          (400 <=? c) && (c <? 600) = true ->
          fst (get_html net url (S retries) backoff w)
          = Raise (RuntimeError (FailedToFetch url (Some (HTTPError c)))))
    /\ ((forall j, (j < S retries)%nat ->
                   exists c text, net (sent w + j)%nat url = Response c text
                                  /\ existsb (Z.eqb c) transient = true) ->
        fst (get_html net url (S retries) backoff w)
        = Raise (RuntimeError (FailedToFetch url None))).
Proof.
  intros net url retries backoff w Hfail.
  destruct (get_html net url (S retries) backoff w) as [r w'] eqn:H.
  unfold get_html in H.
  destruct (get_html_loop_outcome _ _ _ _ _ _ _ _ _ H)
    as [(i & text & -> & Hi & Hok & _ & _) | (-> & _ & _)].
  { specialize (Hfail i Hi). rewrite Hok in Hfail. discriminate. }
  cbn [fst].
  assert (Hsplit : answers_from net url (sent w) (S retries)
                   = (answers_from net url (sent w) retries
                      ++ [net (sent w + retries)%nat url])%list).
  { unfold answers_from. rewrite seq_S, List.map_app. reflexivity. }
  split; [| split].
  - intros e He. rewrite Hsplit, reported_last, He. reflexivity.
  - intros c text Hc Htr Herr. rewrite Hsplit, reported_last, Hc, Htr, Herr. reflexivity.
  - intros Hall. rewrite reported_transient; [reflexivity |].
    unfold answers_from. apply Forall_forall. intros a Ha.
    apply in_map_iff in Ha. destruct Ha as (j & <- & Hj).
    apply in_seq in Hj.
    destruct (Hall (j - sent w)%nat ltac:(lia)) as (c & text & Hc & Htr).
    replace (sent w + (j - sent w))%nat with j in Hc by lia.
    rewrite Hc. exact Htr.
Qed.

Lemma get_html_reports_last_error_witness :
  fst (get_html net_404 "u" 3 (16 # 10) io0)
  = Raise (RuntimeError (FailedToFetch "u" (Some (HTTPError 404))))
  /\ fst (get_html net_503 "u" 3 (16 # 10) io0)
     = Raise (RuntimeError (FailedToFetch "u" None)).
Proof.
  split.
  - apply (proj1 (proj2 (get_html_reports_last_error net_404 "u" 2 (16 # 10) io0
                           ltac:(intros j _; reflexivity))) 404 "");
      reflexivity.
  - apply (proj2 (proj2 (get_html_reports_last_error net_503 "u" 2 (16 # 10) io0
                           ltac:(intros j _; reflexivity)))).
    intros j _. exists 503, "". split; reflexivity.
Defined.

(** ** [robust_get]: which failures are tried again *)

Lemma naps_note_sleep :
  forall q b, naps (note (StSleep q) b) = S (naps b).
Proof.
  intros q b. unfold naps, note. cbn [steps].
  rewrite List.filter_app, List.length_app. simpl. lia.
Qed.

Lemma naps_note_stop : forall b, naps (note StStop b) = naps b.
Proof.
  intros b. unfold naps, note. cbn [steps].
  rewrite List.filter_app, List.length_app. simpl. lia.
Qed.

Lemma naps_get :
  forall n url b, naps (MkBrowser n (steps b ++ [StGet url])) = naps b.
Proof.
  intros n url b. unfold naps. cbn [steps].
  rewrite List.filter_app, List.length_app. simpl. lia.
Qed.

(** [i] loads that time out, with turns left after them, bring the loop to
    its turn [attempt + i]. *)
Lemma robust_get_loop_skip :
  forall page_load url tries i todo attempt b,
    attempt + Z.of_nat i + Z.of_nat todo = tries + 1 ->
    (0 < todo)%nat ->
    (forall j, (j < i)%nat -> page_load (gets b + j)%nat url = Some TimeoutException) ->
    exists b1,
      gets b1 = (gets b + i)%nat
      /\ naps b1 = (naps b + i)%nat
      /\ robust_get_loop page_load url tries (i + todo) attempt b
         = robust_get_loop page_load url tries todo (attempt + Z.of_nat i) b1.
Proof.
  intros page_load url tries i.
  induction i as [|i IH]; intros todo attempt b Hsum Htodo Hto.
  - exists b. rewrite !Nat.add_0_r, Z.add_0_r. auto.
  - cbn [Nat.add robust_get_loop driver_get].
    pose proof (Hto O ltac:(lia)) as H0. rewrite Nat.add_0_r in H0. rewrite H0.
    destruct (Z.eqb_spec attempt tries) as [Heq | Hne]; [lia |].
    set (b2 := note (StSleep (14 # 10))
                 (note StStop (MkBrowser (S (gets b)) (steps b ++ [StGet url])))).
    destruct (IH todo (attempt + 1) b2) as (b1 & Hg & Hn & Hloop).
    + lia.
    + exact Htodo.
    + intros j Hj. subst b2. cbn [gets note].
      replace (S (gets b) + j)%nat with (gets b + S j)%nat by lia.
      apply Hto. lia.
    + exists b1. split; [subst b2; cbn [gets note] in Hg; lia |].
      split.
      * rewrite Hn. subst b2. rewrite naps_note_sleep, naps_note_stop.
        rewrite naps_get. lia.
      * rewrite Hloop. f_equal. lia.
Qed.



(** ** [collect_book_links_from_list]: the links returned *)

Lemma existsb_eqb_In :
  forall k l, existsb (String.eqb k) l = false -> ~ In k l.
Proof.
  intros k l H Hin.
  assert (Ht : existsb (String.eqb k) l = true).
  { apply existsb_exists. exists k. split; [exact Hin | apply String.eqb_refl]. }
  rewrite Ht in H. discriminate.
Qed.

Lemma NoDup_snoc :
  forall (l : list string) k, NoDup l -> ~ In k l -> NoDup (l ++ [k]).
Proof.
  induction l as [|x l IH]; intros k Hnd Hk; simpl.
  - constructor; [intros [] | constructor].
  - inversion Hnd as [| x0 l0 Hx Hl]; subst. constructor.
    + intro Hin. apply in_app_or in Hin. destruct Hin as [Hin | [-> | []]].
      * contradiction.
      * apply Hk. left. reflexivity.
    + apply IH; [exact Hl |]. intro Hin. apply Hk. right. exact Hin.
Qed.

(** What one loop over the elements of a page keeps true of [links]. *)
Lemma add_links_keeps :
  forall (P : string -> Prop) need elements links,
    NoDup links ->
    Forall (fun h => h <> "" /\ P h) links ->
    (forall h, In (Href (Some h)) elements -> P h) ->
    Z.of_nat (List.length links) < need ->
    NoDup (add_links need links elements)
    /\ Forall (fun h => h <> "" /\ P h) (add_links need links elements)
    /\ Z.of_nat (List.length (add_links need links elements)) <= need.
Proof.
  intros P need elements.
  induction elements as [|e rest IH]; intros links Hnd Hall HP Hlen; cbn [add_links].
  - split; [exact Hnd |]. split; [exact Hall | lia].
  - assert (HPrest : forall h, In (Href (Some h)) rest -> P h).
    { intros h Hh. apply HP. right. exact Hh. }
    destruct e as [| [href |]]; try (apply IH; assumption).
    destruct (String.eqb_spec href "") as [Hempty | Hfull]; cbn [negb andb];
      [apply IH; assumption |].
    destruct (existsb (String.eqb href) links) eqn:Hseen; cbn [negb];
      [apply IH; assumption |].
    assert (Hnd' : NoDup (links ++ [href])).
    { apply NoDup_snoc; [exact Hnd | apply existsb_eqb_In; exact Hseen]. }
    assert (Hall' : Forall (fun h => h <> "" /\ P h) (links ++ [href])).
    { apply Forall_app. split; [exact Hall |]. constructor; [| constructor].
      split; [exact Hfull | apply HP; left; reflexivity]. }
    assert (Hlen' : Z.of_nat (List.length (links ++ [href])) = Z.of_nat (List.length links) + 1).
    { rewrite List.length_app. simpl. lia. }
    destruct (Z.geb_spec (Z.of_nat (List.length (links ++ [href]))) need) as [Hge | Hlt].
    + split; [exact Hnd' |]. split; [exact Hall' | lia].
    + apply IH; assumption.
Qed.

Lemma book_links_loop_keeps :
  forall pages need todo tried_pages links out,
    book_links_loop pages need todo tried_pages links = Done out ->
    NoDup links ->
    Forall (fun h => h <> ""
                     /\ exists p, (p < tried_pages + todo)%nat /\ offers (pages p) h) links ->
    Z.of_nat (List.length links) <= Z.max 0 need ->
    NoDup out
    /\ Forall (fun h => h <> ""
                        /\ exists p, (p < tried_pages + todo)%nat /\ offers (pages p) h) out
    /\ Z.of_nat (List.length out) <= Z.max 0 need.
Proof.
  intros pages need todo.
  induction todo as [|todo IH]; intros tried_pages links out H Hnd Hall Hlen;
    cbn [book_links_loop] in H.
  - injection H as <-. auto.
  - destruct (Z.ltb_spec (Z.of_nat (List.length links)) need) as [Hlt | Hge];
      [| injection H as <-; auto].
    destruct (l_rows (pages tried_pages)) as [rows | e] eqn:Hrows; [| discriminate].
    set (P := fun h => exists p, (p < tried_pages + S todo)%nat /\ offers (pages p) h) in *.
    destruct (add_links_keeps P need rows links Hnd Hall) as (Hnd1 & Hall1 & Hlen1).
    { intros h Hh. exists tried_pages. split; [lia |]. left. exists rows. auto. }
    { exact Hlt. }
    set (links1 := add_links need links rows) in *.
    assert (Hcards :
              forall links2,
                (if Z.of_nat (List.length links1) <? need
                 then match l_cards (pages tried_pages) with
                      | Fails e => Fails e
                      | Done cards => Done (add_links need links1 cards)
                      end
                 else Done links1) = Done links2 ->
                NoDup links2 /\ Forall (fun h => h <> "" /\ P h) links2
                /\ Z.of_nat (List.length links2) <= need).
    { intros links2 H2.
      destruct (Z.ltb_spec (Z.of_nat (List.length links1)) need) as [Hlt1 | Hge1].
      - destruct (l_cards (pages tried_pages)) as [cards | e] eqn:Hc; [| discriminate].
        injection H2 as <-. apply add_links_keeps; try assumption.
        intros h Hh. exists tried_pages. split; [lia |]. right. exists cards. auto.
      - injection H2 as <-. auto. }
    destruct (if Z.of_nat (List.length links1) <? need
              then match l_cards (pages tried_pages) with
                   | Fails e => Fails e
                   | Done cards => Done (add_links need links1 cards)
                   end
              else Done links1) as [links2 | e] eqn:H2; [| discriminate].
    destruct (Hcards links2 eq_refl) as (Hnd2 & Hall2 & Hlen2).
    destruct (Z.of_nat (List.length links2) >=? need).
    { injection H as <-. split; [exact Hnd2 |]. split; [exact Hall2 | lia]. }
    destruct (l_next (pages tried_pages)).
    + destruct (IH (S tried_pages) links2 out H Hnd2) as (Hnd3 & Hall3 & Hlen3).
      * eapply Forall_impl; [| exact Hall2].
        intros h [Hne (p & Hp & Ho)]. split; [exact Hne |].
        exists p. split; [lia | exact Ho].
      * lia.
      * split; [exact Hnd3 |]. split; [| exact Hlen3].
        eapply Forall_impl; [| exact Hall3].
        intros h [Hne (p & Hp & Ho)]. split; [exact Hne |].
        exists p. split; [lia | exact Ho].
    + injection H as <-. split; [exact Hnd2 |]. split; [exact Hall2 | lia].
Qed.

(** X4: the links [collect_book_links_from_list] returns are distinct, none
    is empty, there are at most [need] of them (none when [need <= 0]), and
    each is the [href] of a table row or of a title link of one of the first
    six pages. *)
Theorem book_links_distinct_bounded :
  forall pages need links,
    collect_book_links_from_list pages need = Done links ->
    NoDup links
    /\ ~ In "" links
    /\ Z.of_nat (List.length links) <= Z.max 0 need
    /\ (forall h, In h links -> exists p, (p < 6)%nat /\ offers (pages p) h).
Proof.
  intros pages need links H. unfold collect_book_links_from_list in H.
  destruct (book_links_loop pages need 6 0 []) as [out | e] eqn:Hloop; [| discriminate].
  injection H as <-.
  destruct (book_links_loop_keeps pages need 6 0 [] out Hloop) as (Hnd & Hall & Hlen).
  { constructor. }
  { constructor. }
  { simpl. lia. }
  assert (Hslice : slice_to need out = out).
  { unfold slice_to. destruct (Z.leb_spec 0 need) as [Hpos | Hneg].
    - apply firstn_all2. lia.
    - assert (out = []) by (destruct out; [reflexivity | simpl in Hlen; lia]).
      subst out. reflexivity. }
  rewrite Hslice. rewrite Forall_forall in Hall.
  split; [exact Hnd |]. split; [| split; [exact Hlen |]].
  - intro Hin. destruct (Hall _ Hin) as [Hne _]. apply Hne. reflexivity.
  - intros h Hh. destruct (Hall _ Hh) as [_ Hp]. exact Hp.
Qed.

Lemma book_links_distinct_bounded_witness :
  NoDup ["/book/1"; "/book/2"; "/book/3"]
  /\ ~ In "" ["/book/1"; "/book/2"; "/book/3"]
  /\ Z.of_nat (List.length ["/book/1"; "/book/2"; "/book/3"]) <= Z.max 0 12
  /\ (forall h, In h ["/book/1"; "/book/2"; "/book/3"] ->
                exists p, (p < 6)%nat /\ offers (shelf p) h).
Proof.
  apply (book_links_distinct_bounded shelf 12). reflexivity.
Defined.

(** ** [parse_int], [parse_float] and [norm_reviews] read no sign *)

Lemma match_here_text :
  forall r s m,
    Re.match_here r s = Some m -> Str.forallb (alphabet r) (Re.m_text m) = true.
Proof.
  intros r s m H. unfold Re.match_here in H.
  apply run_consumed in H. destruct H as (s1 & g1 & Hk & [(w & -> & Hw) _]).
  injection Hk as <-. cbn [Re.m_text]. rewrite substring_consumed. exact Hw.
Qed.

Lemma search_text :
  forall r s m,
    Re.search r s = Some m -> Str.forallb (alphabet r) (Re.m_text m) = true.
Proof.
  intros r. induction s as [|c s IH]; intros m H; cbn [Re.search] in H.
  - destruct (Re.match_here r "") as [m'|] eqn:Hm; [| discriminate].
    injection H as <-. eapply match_here_text. exact Hm.
  - destruct (Re.match_here r (String c s)) as [m'|] eqn:Hm.
    + injection H as <-. eapply match_here_text. exact Hm.
    + destruct (Re.search r s) as [m'|] eqn:Hs; [| discriminate].
      injection H as <-. cbn [Re.m_text]. apply (IH m' eq_refl).
Qed.

Lemma findall_fuel_text :
  forall r fuel s,
    Forall (fun t => Str.forallb (alphabet r) t = true) (Re.findall_fuel fuel r s).
Proof.
  intros r. induction fuel as [|fuel IH]; intros s; cbn [Re.findall_fuel]; [constructor |].
  destruct (Re.search r s) as [m|] eqn:Hm; [| constructor].
  constructor; [eapply search_text; exact Hm |].
  destruct (Re.m_text m); destruct (Re.m_after m); try constructor; apply IH.
Qed.

Lemma last_Forall :
  forall (A : Type) (P : A -> Prop) (l : list A) d,
    Forall P l -> l <> [] -> P (last l d).
Proof.
  intros A P. induction l as [|x l IH]; intros d Hall Hne; [contradiction |].
  inversion Hall as [| x0 l0 Hx Hl]; subst.
  destruct l as [|y l]; [exact Hx |].
  change (P (last (y :: l) d)). apply IH; [exact Hl | discriminate].
Qed.

Lemma int_unsigned :
  forall s z,
    Str.forallb (fun c => negb (Ascii.eqb c "-")) s = true ->
    Py.int s = Return z -> 0 <= z.
Proof.
  intros s z Hs H. unfold Py.int in H.
  assert (Hsign : fst (Py.split_sign (Str.strip s)) = false).
  { pose proof (forallb_strip _ _ Hs) as Ht.
    destruct (Str.strip s) as [|c t]; [reflexivity |].
    cbn [Str.forallb] in Ht. apply andb_prop in Ht. destruct Ht as [Hc _].
    destruct c as [[] [] [] [] [] [] [] []]; try reflexivity; discriminate Hc. }
  rewrite Hsign in H.
  destruct (Py.drop_underscores None _) as [ds|]; [| discriminate].
  destruct ds as [|d ds]; [discriminate |].
  destruct (Str.forallb Str.is_digit (String d ds)) eqn:Hd; [| discriminate].
  destruct (_ <=? _)%nat; [| discriminate].
  cbn [andb] in H. injection H as <-. apply digits_val_nonneg. exact Hd.
Qed.

Lemma binary_round_aux_sign :
  forall s m e l, 0 <= m -> sign_of (binary_round_aux Py.prec Py.emax s m e l) = s.
Proof.
  intros s m e l Hm. unfold binary_round_aux.
  pose proof (shr_fexp_nonneg m e l Hm) as H1.
  destruct (shr_fexp Py.prec Py.emax m e l) as [mrs' e'].
  simpl in H1.
  pose proof (shr_fexp_nonneg _ e' loc_Exact
                (round_nearest_even_nonneg _ (loc_of_shr_record mrs') H1)) as H2.
  destruct (shr_fexp Py.prec Py.emax
              (round_nearest_even (shr_m mrs') (loc_of_shr_record mrs')) e' loc_Exact)
    as [mrs'' e''].
  simpl in H2.
  destruct (shr_m mrs'') as [|p|p]; [reflexivity | | lia].
  destruct (e'' <=? Py.emax - Py.prec); reflexivity.
Qed.

Lemma dec_to_float_unsigned :
  forall m e, 0 <= m -> sign_of (Py.dec_to_float false m e) = false.
Proof.
  intros m e Hm. unfold Py.dec_to_float.
  destruct m as [|p|p]; [reflexivity | | lia].
  destruct (0 <=? e) eqn:He.
  - unfold binary_normalize, binary_round.
    assert (Hpos : 0 < Z.pos p * 10 ^ e) by (apply Z.leb_le in He; nia).
    destruct (Z.pos p * 10 ^ e) as [|q|q]; [reflexivity | | lia].
    destruct (shl_align q 0 _) as [mz ez]. apply binary_round_aux_sign. lia.
  - unfold SFdiv_core_binary.
    set (m' := match _ - _ with Z0 => _ | Zpos _ => _ | Zneg _ => _ end).
    assert (Hm' : 0 <= m').
    { subst m'. destruct (0 - 0 - _); [lia | | lia].
      apply Z.shiftl_nonneg. lia. }
    assert (Hq : 0 <= fst (Z.div_eucl m' (10 ^ (- e)))).
    { change (fst (Z.div_eucl m' (10 ^ (- e)))) with (m' / 10 ^ (- e)).
      apply Z.div_pos; [exact Hm' |]. apply Z.pow_pos_nonneg; lia. }
    destruct (Z.div_eucl m' (10 ^ (- e))) as [q r]. cbn [fst] in Hq.
    apply binary_round_aux_sign. exact Hq.
Qed.

Lemma float_unsigned :
  forall s f,
    Str.forallb (fun c => negb (Ascii.eqb c "-")) s = true ->
    Py.float s = Return f -> sign_of f = false.
Proof.
  intros s f Hs H. unfold Py.float in H.
  destruct (Py.drop_underscores None (Str.strip s)) as [t|] eqn:Ht; [| discriminate].
  pose proof (forallb_drop_underscores _ _ _ _ (forallb_strip _ _ Hs) Ht) as Hplain.
  assert (Hsign : Py.split_sign t = (false, snd (Py.split_sign t))).
  { destruct t as [|c t']; [reflexivity |].
    cbn [Str.forallb] in Hplain. apply andb_prop in Hplain. destruct Hplain as [Hc _].
    destruct c as [[] [] [] [] [] [] [] []]; try reflexivity; discriminate Hc. }
  rewrite Hsign in H.
  destruct (Str.among _ ["inf"; "infinity"]); [injection H as <-; reflexivity |].
  destruct (String.eqb _ "nan"); [injection H as <-; reflexivity |].
  destruct (Py.parse_decimal _) as [[m e]|] eqn:Hp; [| discriminate].
  injection H as <-. apply dec_to_float_unsigned.
  eapply parse_decimal_nonneg. exact Hp.
Qed.

Lemma forallb_filter_keeps :
  forall p q s, Str.forallb q s = true -> Str.forallb q (Str.filter p s) = true.
Proof.
  intros p q. induction s as [|c s IH]; intro H; [reflexivity |].
  cbn [Str.forallb] in H. apply andb_prop in H. destruct H as [Hc Hs].
  cbn [Str.filter]. destruct (p c); [| apply IH; exact Hs].
  cbn [Str.forallb]. rewrite Hc. apply IH. exact Hs.
Qed.

Lemma group_char_unsigned :
  forall c, alphabet int_group_re c = true -> negb (Ascii.eqb c "-") = true.
Proof.
  intros c. destruct c as [[] [] [] [] [] [] [] []]; vm_compute; intro H;
    first [reflexivity | discriminate].
Qed.

Lemma float_char_plain :
  forall c, alphabet float_re c = true ->
            negb (Ascii.eqb c "-") = true
            /\ negb (Ascii.eqb (Str.lower_char c) "n") = true.
Proof.
  intros c. destruct c as [[] [] [] [] [] [] [] []]; vm_compute; intro H;
    first [split; reflexivity | discriminate].
Qed.

Lemma parse_int_unsigned :
  forall s z, parse_int s = Return (Some z) -> 0 <= z.
Proof.
  intros s z H. unfold parse_int in H.
  destruct (String.eqb s ""); [discriminate |].
  set (text := Str.replace nbsp " " s) in *.
  pose proof (findall_fuel_text int_group_re (S (length text)) text) as Hall.
  fold (Re.findall int_group_re text) in Hall.
  destruct (Re.findall int_group_re text) as [|g gs] eqn:Hm; [discriminate |].
  assert (Hlast : Str.forallb (alphabet int_group_re) (last (g :: gs) "") = true).
  { apply (last_Forall _ (fun t => Str.forallb (alphabet int_group_re) t = true));
      [exact Hall | discriminate]. }
  destruct (Py.int _) as [z' | e] eqn:Hint; cbn [bind try_except] in H; [| discriminate].
  injection H as <-. eapply int_unsigned; [| exact Hint].
  rewrite (replace_char_filter ","%char).
  eapply forallb_impl; [exact group_char_unsigned |].
  apply forallb_filter_keeps. exact Hlast.
Qed.

Lemma parse_float_unsigned :
  forall s f,
    parse_float s = Return (Some f) -> sign_of f = false /\ Py.is_nan f = false.
Proof.
  intros s f H. unfold parse_float in H.
  destruct (String.eqb s ""); [discriminate |].
  destruct (Re.search float_re s) as [m|] eqn:Hm; [| discriminate].
  pose proof (search_group _ _ _ Hm) as Hg.
  destruct (Py.float (group1 m)) as [f' | e] eqn:Hf; cbn [bind try_except] in H;
    [| discriminate].
  injection H as <-. split.
  - eapply float_unsigned; [| exact Hf].
    eapply forallb_impl; [| exact Hg]. intros c Hc. apply float_char_plain. exact Hc.
  - eapply float_not_nan; [| exact Hf].
    unfold no_n. eapply forallb_impl; [| exact Hg].
    intros c Hc. apply float_char_plain. exact Hc.
Qed.

(** X5: [parse_int] and [parse_float] never return a negative number, nor
    [parse_float] a NaN: the patterns take digits, commas and a point, so a
    minus sign before the numeral is not read. *)
Theorem parsed_numbers_unsigned :
  forall s,
    (forall z, parse_int s = Return (Some z) -> 0 <= z)
    /\ (forall f, parse_float s = Return (Some f) ->
                  sign_of f = false /\ Py.is_nan f = false).
Proof.
  intros s. split.
  - intros z H. eapply parse_int_unsigned. exact H.
  - intros f H. eapply parse_float_unsigned. exact H.
Qed.

Lemma parsed_numbers_unsigned_witness :
  parse_int "-1,204 ratings" = Return (Some 1204)
  /\ 0 <= 1204
  /\ parse_float "-4.5" = Return (Some f_4_5)
  /\ sign_of f_4_5 = false /\ Py.is_nan f_4_5 = false.
Proof.
  split; [vm_compute; reflexivity |].
  split; [apply (proj1 (parsed_numbers_unsigned "-1,204 ratings") 1204);
          vm_compute; reflexivity |].
  split; [vm_compute; reflexivity |].
  apply (proj2 (parsed_numbers_unsigned "-4.5") f_4_5). vm_compute. reflexivity.
Defined.

Lemma parse_int_returns : forall s, exists xi, parse_int s = Return xi.
Proof.
  intros s. unfold parse_int.
  destruct (String.eqb s ""); [exists None; reflexivity |].
  destruct (Re.findall int_group_re _) as [|g gs]; [exists None; reflexivity |].
  destruct (Py.int _) as [z | e]; simpl; eexists; reflexivity.
Qed.

(** X6: [norm_reviews] never raises and leaves in the column nothing but
    integers and the text "Not Available"; an integer read from a text is
    not negative; and a cell it has normalised is left as it is when
    normalised again. *)
Theorem norm_reviews_normal_form :
  forall x,
    exists v,
      norm_reviews x = Return v
      /\ (v = VStr "Not Available"
          \/ exists z, v = VInt z /\ (forall s, x = VStr s -> 0 <= z))
      /\ norm_reviews v = Return v.
Proof.
  intros x. destruct x as [| s | f | z].
  - exists (VStr "Not Available"). split; [reflexivity |].
    split; [left; reflexivity | vm_compute; reflexivity].
  - cbn [norm_reviews].
    destruct (parse_int_returns s) as [[z |] Hs]; rewrite Hs; cbn [bind].
    + exists (VInt z). split; [reflexivity |]. split; [| reflexivity].
      right. exists z. split; [reflexivity |].
      intros s' Heq. injection Heq as <-. eapply parse_int_unsigned. exact Hs.
    + exists (VStr "Not Available"). split; [reflexivity |].
      split; [left; reflexivity | vm_compute; reflexivity].
  - exists (VStr "Not Available"). split; [reflexivity |].
    split; [left; reflexivity | vm_compute; reflexivity].
  - exists (VInt z). split; [reflexivity |]. split; [| reflexivity].
    right. exists z. split; [reflexivity |]. intros s Heq. discriminate.
Qed.

(** ** The page loop of [scrape_daraz_from_home] *)

Lemma product_links_snoc :
  forall rows it,
    product_links (rows ++ [it])
    = (product_links rows
       ++ (if negb (String.eqb (ProductURL it) "") then [ProductURL it] else []))%list.
Proof.
  intros rows it. unfold product_links.
  rewrite List.map_app, List.filter_app. reflexivity.
Qed.

Lemma product_links_In :
  forall rows k, In k (product_links rows) -> exists it, In it rows /\ ProductURL it = k.
Proof.
  intros rows k H. unfold product_links in H.
  apply filter_In in H. destruct H as [H _].
  apply in_map_iff in H. destruct H as (it & Hk & Hin). exists it. auto.
Qed.

Lemma page_rows_keeps :
  forall (P : Item -> Prop) n_min page_items seen_urls rows seen_urls' rows',
    page_rows n_min seen_urls rows page_items = (seen_urls', rows') ->
    (forall it, In it rows -> In (ProductURL it) seen_urls) ->
    NoDup (product_links rows) ->
    Forall P rows ->
    (forall it, In it page_items -> P it) ->
    Z.of_nat (List.length rows) < n_min ->
    (forall it, In it rows' -> In (ProductURL it) seen_urls')
    /\ NoDup (product_links rows')
    /\ Forall P rows'
    /\ Z.of_nat (List.length rows') <= n_min.
Proof.
  intros P n_min page_items.
  induction page_items as [|it rest IH];
    intros seen_urls rows seen_urls' rows' H Hseen Hnd HP Hitems Hlen; cbn [page_rows] in H.
  - injection H as <- <-. repeat split; try assumption. lia.
  - assert (Hrest : forall it', In it' rest -> P it').
    { intros it' Hin. apply Hitems. right. exact Hin. }
    destruct (negb (String.eqb (ProductURL it) "")
              && existsb (String.eqb (ProductURL it)) seen_urls) eqn:Hskip.
    { eapply IH; eassumption. }
    assert (Hseen1 : forall it', In it' (rows ++ [it]) ->
                                 In (ProductURL it') (ProductURL it :: seen_urls)).
    { intros it' Hin. apply in_app_or in Hin. destruct Hin as [Hin | [<- | []]].
      - right. apply Hseen. exact Hin.
      - left. reflexivity. }
    assert (Hnd1 : NoDup (product_links (rows ++ [it]))).
    { rewrite product_links_snoc.
      destruct (negb (String.eqb (ProductURL it) "")) eqn:Hfull;
        [| rewrite List.app_nil_r; exact Hnd].
      cbn [andb] in Hskip. apply NoDup_snoc; [exact Hnd |].
      intro Hin. apply product_links_In in Hin. destruct Hin as (it' & Hin & Hk).
      apply (existsb_eqb_In _ _ Hskip). rewrite <- Hk. apply Hseen. exact Hin. }
    assert (HP1 : Forall P (rows ++ [it])).
    { apply Forall_app. split; [exact HP |].
      constructor; [apply Hitems; left; reflexivity | constructor]. }
    assert (Hlen1 : Z.of_nat (List.length (rows ++ [it])) = Z.of_nat (List.length rows) + 1).
    { rewrite List.length_app. simpl. lia. }
    destruct (Z.geb_spec (Z.of_nat (List.length (rows ++ [it]))) n_min) as [Hge | Hlt].
    + injection H as <- <-. repeat split; try assumption. lia.
    + eapply IH; eassumption.
Qed.

Lemma listing_loop_keeps :
  forall select_cards page_source find_and_click_next n_min todo page seen_urls rows out,
    listing_loop select_cards page_source find_and_click_next n_min todo page seen_urls rows
    = Done out ->
    1 <= page ->
    (forall it, In it rows -> In (ProductURL it) seen_urls) ->
    NoDup (product_links rows) ->
    Forall (listed select_cards page_source) rows ->
    Z.of_nat (List.length rows) <= Z.max 0 n_min ->
    NoDup (product_links out)
    /\ Forall (listed select_cards page_source) out
    /\ Z.of_nat (List.length out) <= Z.max 0 n_min.
Proof.
  intros select_cards page_source find_and_click_next n_min todo.
  induction todo as [|todo IH]; intros page seen_urls rows out H Hpage Hseen Hnd HP Hlen;
    cbn [listing_loop] in H.
  - injection H as <-. auto.
  - destruct (Z.ltb_spec (Z.of_nat (List.length rows)) n_min) as [Hlt | Hge];
      cbn [andb] in H; [| injection H as <-; auto].
    destruct (Z.leb_spec page MAX_PAGES) as [Hmax | Hover]; [| injection H as <-; auto].
    destruct (page_source page) as [html | e] eqn:Hsrc; [| discriminate].
    destruct (page_rows n_min seen_urls rows (parse_results_page_html select_cards html))
      as [seen_urls1 rows1] eqn:Hrows.
    destruct (page_rows_keeps (listed select_cards page_source) _ _ _ _ _ _
                Hrows Hseen Hnd HP) as (Hseen1 & Hnd1 & HP1 & Hlen1).
    { intros it Hin. exists page, html. auto. }
    { exact Hlt. }
    destruct (Z.of_nat (List.length rows1) >=? n_min).
    { injection H as <-. split; [exact Hnd1 |]. split; [exact HP1 | lia]. }
    destruct (find_and_click_next page); cbn [negb] in H.
    + eapply IH; [exact H | lia | exact Hseen1 | exact Hnd1 | exact HP1 | lia].
    + injection H as <-. split; [exact Hnd1 |]. split; [exact HP1 | lia].
Qed.

(** X7: the base rows of [scrape_daraz_from_home] are at most [n_min]
    (none when [n_min <= 0]), no two of them that have a link share it,
    across pages as within one, and each was read from one of the first
    [MAX_PAGES] result pages. *)
Theorem base_rows_bounded_distinct :
  forall select_cards page_source find_and_click_next n_min rows,
    base_rows select_cards page_source find_and_click_next n_min = Done rows ->
    Z.of_nat (List.length rows) <= Z.max 0 n_min
    /\ NoDup (product_links rows)
    /\ Forall (listed select_cards page_source) rows.
Proof.
  intros select_cards page_source find_and_click_next n_min rows H.
  unfold base_rows in H.
  destruct (listing_loop_keeps _ _ _ _ _ _ _ _ _ H) as (Hnd & HP & Hlen).
  - lia.
  - intros it [].
  - constructor.
  - constructor.
  - simpl. lia.
  - auto.
Qed.

Lemma base_rows_bounded_distinct_witness :
  exists rows,
    base_rows three_cards same_page always_next MIN_ITEMS = Done rows
    /\ List.map Title rows
       = ["Phone"; "Case"; "Case"; "Case"; "Case"; "Case"; "Case"; "Case"; "Case"]
    /\ Z.of_nat (List.length rows) <= Z.max 0 MIN_ITEMS
    /\ NoDup (product_links rows)
    /\ Forall (listed three_cards same_page) rows.
Proof.
  eexists. split; [vm_compute; reflexivity |].
  split; [reflexivity |].
  apply (base_rows_bounded_distinct three_cards same_page always_next MIN_ITEMS).
  vm_compute. reflexivity.
Defined.

(** ** The Dawn collector: what it sends and what it keeps *)

Lemma get_html_sent :
  forall net url retries backoff w r w',
    get_html net url retries backoff w = (r, w') ->
    (sent w' <= sent w + retries)%nat
    /\ (forall html, r = Return html -> exists k, net k url = Response 200 html).
Proof.
  intros net url retries backoff w r w' H. unfold get_html in H.
  destruct (get_html_loop_outcome _ _ _ _ _ _ _ _ _ H)
    as [(i & text & -> & Hi & Hok & _ & Hs) | (-> & _ & Hs)].
  - split; [lia |]. intros html Hr. injection Hr as <-. eexists. exact Hok.
  - split; [lia |]. intros html Hr. discriminate.
Qed.

Lemma collect_loop_keeps :
  forall net sel uj (P : article -> Prop) urls n collected w out w',
    collect_loop net sel uj urls n collected w = (out, w') ->
    Forall P collected ->
    (forall u k html rows a,
        In u urls -> net k u = Response 200 html ->
        parse_dawn_articles sel uj html "https://www.dawn.com" = Return rows ->
        In a rows -> P a) ->
    (sent w' <= sent w + 3 * List.length urls)%nat /\ Forall P out.
Proof.
  intros net sel uj P urls.
  induction urls as [|u rest IH]; intros n collected w out w' H Hall HP;
    cbn [collect_loop] in H.
  - injection H as <- <-. split; [simpl; lia | exact Hall].
  - assert (HPrest : forall u' k html rows a,
               In u' rest -> net k u' = Response 200 html ->
               parse_dawn_articles sel uj html "https://www.dawn.com" = Return rows ->
               In a rows -> P a).
    { intros u' k html rows a Hin. apply HP. right. exact Hin. }
    destruct (get_html net u 3 (16 # 10) w) as [r w1] eqn:Hget.
    destruct (get_html_sent _ _ _ _ _ _ _ Hget) as [Hsent Hpage].
    destruct (bind r (fun html => parse_dawn_articles sel uj html "https://www.dawn.com"))
      as [rows | e] eqn:Hrows.
    + assert (Hall' : Forall P (collected ++ rows)).
      { apply Forall_app. split; [exact Hall |].
        destruct r as [html | e]; [| discriminate]. cbn [bind] in Hrows.
        destruct (Hpage html eq_refl) as [k Hk].
        apply Forall_forall. intros a Ha.
        eapply HP; [left; reflexivity | exact Hk | exact Hrows | exact Ha]. }
      destruct (Z.of_nat (List.length (collected ++ rows)) >=? n).
      * injection H as <- <-. split; [simpl; lia | exact Hall'].
      * destruct (IH _ _ _ _ _ H Hall' HPrest) as [Hs Hout].
        split; [simpl; lia | exact Hout].
    + destruct (IH _ _ _ _ _ H Hall HPrest) as [Hs Hout].
      rewrite sent_emit in Hs. split; [simpl; lia | exact Hout].
Qed.

Lemma In_slice_to :
  forall (A : Type) n (l : list A) x, In x (slice_to n l) -> In x l.
Proof.
  intros A n l x H. unfold slice_to in H.
  assert (Hfirst : forall k, In x (firstn k l) -> In x l).
  { intros k Hk. rewrite <- (firstn_skipn k l). apply in_or_app. left. exact Hk. }
  destruct (0 <=? n); eapply Hfirst; exact H.
Qed.

Lemma collect_from_frame :
  forall net sel uj urls n now w,
    collect_from net sel uj urls n now w
    = (Return (List.map (stamped now)
                 (slice_to n (fst (collect_loop net sel uj urls n [] w)))),
       snd (collect_loop net sel uj urls n [] w)).
Proof.
  intros net sel uj urls n now w. unfold collect_from.
  destruct (collect_loop net sel uj urls n [] w) as [collected w1]. cbn [fst snd].
  rewrite !List.map_map. reflexivity.
Qed.

(** X8: [collect_dawn_headlines] always returns a frame; it sends at most
    three requests per endpoint; the frame has at most [n] rows when [n] is
    not negative; every row holds the headline and the link of an article
    parsed from a page that answered 200 at one of the endpoints, stamped
    with the clock reading and the source "dawn.com": the fallback text for
    a missing link is never used. *)
Theorem collect_bounded_and_sourced :
  forall net sel uj urls n now w,
    exists kept w',
      collect_from net sel uj urls n now w = (Return (List.map (stamped now) kept), w')
      /\ (sent w' <= sent w + 3 * List.length urls)%nat
      /\ Forall (from_endpoint net sel uj urls) kept
      /\ (0 <= n -> Z.of_nat (List.length kept) <= n).
Proof.
  intros net sel uj urls n now w.
  rewrite collect_from_frame.
  destruct (collect_loop net sel uj urls n [] w) as [collected w1] eqn:Hloop.
  cbn [fst snd].
  destruct (collect_loop_keeps net sel uj (from_endpoint net sel uj urls)
              _ _ _ _ _ _ Hloop) as [Hs Hall].
  { constructor. }
  { intros u k html rows a Hu Hk Hrows Ha. exists u, k, html, rows. auto. }
  exists (slice_to n collected), w1. split; [reflexivity |]. split; [exact Hs |].
  split.
  - apply Forall_forall. intros a Ha. rewrite Forall_forall in Hall.
    apply Hall. eapply In_slice_to. exact Ha.
  - intro Hn. unfold slice_to. destruct (Z.leb_spec 0 n) as [_ | Hneg]; [| lia].
    rewrite List.length_firstn. lia.
Qed.

Lemma get_html_first_answer :
  forall net url retries backoff w html,
    net (sent w) url = Response 200 html ->
    get_html net url (S retries) backoff w
    = (Return html, MkIO (S (sent w)) (trace w ++ [EvGet url])).
Proof.
  intros net url retries backoff w html H. unfold get_html.
  cbn [get_html_loop requests_get]. rewrite H. reflexivity.
Qed.

Lemma collect_loop_served :
  forall net sel uj n pages collected w,
    served net sel uj w pages ->
    Z.of_nat (List.length (collected ++ List.concat (List.map snd pages))) < n ->
    exists w',
      collect_loop net sel uj (List.map (fun p => fst (fst p)) pages) n collected w
      = (collected ++ List.concat (List.map snd pages), w')%list
      /\ sent w' = (sent w + List.length pages)%nat.
Proof.
  intros net sel uj n pages.
  induction pages as [|[[u html] rows] rest IH]; intros collected w Hserved Hlen.
  - exists w. simpl. rewrite List.app_nil_r. split; [reflexivity | lia].
  - cbn [List.map fst snd List.concat collect_loop] in *.
    destruct (Hserved O u html rows eq_refl) as [Hk Hrows].
    rewrite Nat.add_0_r in Hk.
    rewrite (get_html_first_answer _ _ _ _ _ _ Hk). cbn [bind]. rewrite Hrows.
    rewrite List.app_assoc in Hlen.
    destruct (Z.geb_spec (Z.of_nat (List.length (collected ++ rows))) n) as [Hge | Hlt].
    { rewrite List.length_app in Hlen. lia. }
    destruct (IH (collected ++ rows)%list (MkIO (S (sent w)) (trace w ++ [EvGet u])))
      as (w' & Hloop & Hs).
    + intros i u' html' rows' Hi. cbn [sent].
      replace (S (sent w) + i)%nat with (sent w + S i)%nat by lia.
      apply Hserved. exact Hi.
    + exact Hlen.
    + exists w'. rewrite Hloop, <- List.app_assoc. split; [reflexivity |].
      cbn [sent] in Hs. simpl. lia.
Qed.

(** X9: when every endpoint answers its first request with a page, and the
    pages hold fewer than [n] articles in all, the frame is the articles of
    the pages one after the other, in the order of the endpoints, after one
    request each: an article that two endpoints show is kept twice, the
    parser removing repeated links within a page only. *)
Theorem collect_concatenates_pages :
  forall net sel uj n now pages w,
    served net sel uj w pages ->
    Z.of_nat (List.length (List.concat (List.map snd pages))) < n ->
    exists w',
      collect_from net sel uj (List.map (fun p => fst (fst p)) pages) n now w
      = (Return (List.map (stamped now) (List.concat (List.map snd pages))), w')
      /\ sent w' = (sent w + List.length pages)%nat.
Proof.
  intros net sel uj n now pages w Hserved Hlen.
  rewrite collect_from_frame.
  destruct (collect_loop_served net sel uj n pages [] w Hserved Hlen) as (w' & Hloop & Hs).
  rewrite Hloop. cbn [fst snd app]. exists w'. split; [| exact Hs].
  unfold slice_to. destruct (Z.leb_spec 0 n) as [_ | Hneg]; [| lia].
  rewrite firstn_all2 by lia. reflexivity.
Qed.

Lemma collect_concatenates_pages_witness :
  exists w',
    collect_from net_page three_anchors join_plain
      ["https://www.dawn.com"; "https://www.dawn.com/latest-news"] 30
      "2025-01-01 00:00:00" io0
    = (Return (List.map (stamped "2025-01-01 00:00:00")
                 [MkArticle "Budget passed" "https://www.dawn.com/news/1";
                  MkArticle "Rain in Karachi" "https://www.dawn.com/news/2";
                  MkArticle "Budget passed" "https://www.dawn.com/news/1";
                  MkArticle "Rain in Karachi" "https://www.dawn.com/news/2"]), w')
    /\ sent w' = (sent io0 + 2)%nat.
Proof.
  apply (collect_concatenates_pages net_page three_anchors join_plain 30
           "2025-01-01 00:00:00"
           [("https://www.dawn.com", "<html></html>",
             [MkArticle "Budget passed" "https://www.dawn.com/news/1";
              MkArticle "Rain in Karachi" "https://www.dawn.com/news/2"]);
            ("https://www.dawn.com/latest-news", "<html></html>",
             [MkArticle "Budget passed" "https://www.dawn.com/news/1";
              MkArticle "Rain in Karachi" "https://www.dawn.com/news/2"])] io0).
  - intros [|[|i]] u html rows Hi; simpl in Hi; [| | destruct i; discriminate];
      injection Hi as <- <- <-; split; vm_compute; reflexivity.
  - vm_compute. reflexivity.
Defined.

Lemma collect_bounded_and_sourced_witness :
  exists kept w',
    collect_from net_page three_anchors join_plain BASE_URLS 3 "2025-01-01 00:00:00" io0
    = (Return (List.map (stamped "2025-01-01 00:00:00") kept), w')
    /\ (sent w' <= sent io0 + 3 * List.length BASE_URLS)%nat
    /\ Forall (from_endpoint net_page three_anchors join_plain BASE_URLS) kept
    /\ (0 <= 3 -> Z.of_nat (List.length kept) <= 3).
Proof.
  apply (collect_bounded_and_sourced net_page three_anchors join_plain BASE_URLS 3
           "2025-01-01 00:00:00" io0).
Defined.

(** ** The rows of the two parsers *)

Lemma sublist_In :
  forall (A : Type) (l1 l2 : list A) x, sublist l1 l2 -> In x l1 -> In x l2.
Proof.
  intros A l1 l2 x H. induction H as [| y l1 l2 H IH | y l1 l2 H IH]; intro Hin.
  - exact Hin.
  - right. apply IH. exact Hin.
  - destruct Hin as [-> | Hin]; [left; reflexivity | right; apply IH; exact Hin].
Qed.

Lemma dawn_rows_made :
  forall uj base anchors rows,
    dawn_rows uj base anchors = Return rows ->
    forall r, In r rows -> exists a, In a anchors /\ row_of uj base a r.
Proof.
  intros uj base.
  induction anchors as [|a rest IH]; intros rows H r Hin; cbn [dawn_rows] in H.
  - injection H as <-. destruct Hin.
  - assert (Hrest : forall rows', dawn_rows uj base rest = Return rows' ->
                                  In r rows' -> exists a', In a' (a :: rest) /\ row_of uj base a' r).
    { intros rows' Hr Hin'. destruct (IH rows' Hr r Hin') as (a' & Ha' & Hrow).
      exists a'. split; [right; exact Ha' | exact Hrow]. }
    destruct (Str.contains "/news/" (Str.strip match a_href a with Some h => h | None => "" end))
      eqn:Hnews; cbn [negb] in H; [| eapply Hrest; eassumption].
    destruct (String.eqb (Str.strip (Str.replace "Image:" "" (a_text a))) "") eqn:Hempty;
      cbn [orb] in H; [eapply Hrest; eassumption |].
    destruct (Nat.ltb_spec (String.length (Str.strip (Str.replace "Image:" "" (a_text a)))) 5)
      as [Hshort | Hlong]; [eapply Hrest; eassumption |].
    destruct (uj base _) as [u | e] eqn:Hu; cbn [bind] in H; [| discriminate].
    destruct (dawn_rows uj base rest) as [rows' | e] eqn:Hr; cbn [bind] in H; [| discriminate].
    injection H as <-. destruct Hin as [<- | Hin]; [| eapply Hrest; [reflexivity | exact Hin]].
    exists a. split; [left; reflexivity |].
    unfold row_of. cbn [headline url]. auto.
Qed.

Lemma dawn_rows_raises :
  forall uj base anchors e,
    dawn_rows uj base anchors = Raise e ->
    exists a,
      In a anchors
      /\ Str.contains "/news/" (Str.strip match a_href a with Some h => h | None => "" end)
         = true
      /\ uj base (Str.strip match a_href a with Some h => h | None => "" end) = Raise e.
Proof.
  intros uj base.
  induction anchors as [|a rest IH]; intros e H; cbn [dawn_rows] in H; [discriminate |].
  assert (Hrest : dawn_rows uj base rest = Raise e ->
                  exists a',
                    In a' (a :: rest)
                    /\ Str.contains "/news/"
                         (Str.strip match a_href a' with Some h => h | None => "" end) = true
                    /\ uj base (Str.strip match a_href a' with Some h => h | None => "" end)
                       = Raise e).
  { intros Hr. destruct (IH e Hr) as (a' & Ha' & Hrow).
    exists a'. split; [right; exact Ha' | exact Hrow]. }
  destruct (Str.contains "/news/" (Str.strip match a_href a with Some h => h | None => "" end))
    eqn:Hnews; cbn [negb] in H; [| apply Hrest; exact H].
  destruct (String.eqb _ "" || (_ <? 5)%nat); [apply Hrest; exact H |].
  destruct (uj base _) as [u | e'] eqn:Hu; cbn [bind] in H.
  - destruct (dawn_rows uj base rest) as [rows' | e'] eqn:Hr; cbn [bind] in H;
      [discriminate |].
    injection H as <-. apply Hrest. reflexivity.
  - injection H as <-. exists a. split; [left; reflexivity | auto].
Qed.

(** X10: every row [parse_dawn_articles] returns is made of a headline
    anchor of the page whose link, stripped, holds "/news/": its headline is
    the text of the anchor less "Image:" and the white space around, of five
    characters at least, and its link is what [urljoin] makes of the base
    and the link of the anchor.  The parser raises only what [urljoin]
    raises on such a link. *)
Theorem dawn_rows_from_news_anchors :
  forall sel uj html base,
    (forall rows,
        parse_dawn_articles sel uj html base = Return rows ->
        forall r, In r rows -> exists a, In a (sel html) /\ row_of uj base a r)
    /\ (forall e,
          parse_dawn_articles sel uj html base = Raise e ->
          exists a,
            In a (sel html)
            /\ Str.contains "/news/"
                 (Str.strip match a_href a with Some h => h | None => "" end) = true
            /\ uj base (Str.strip match a_href a with Some h => h | None => "" end)
               = Raise e).
Proof.
  intros sel uj html base. unfold parse_dawn_articles. split.
  - intros rows H r Hin.
    destruct (dawn_rows uj base (sel html)) as [all | e] eqn:Hall; cbn [bind] in H;
      [| discriminate].
    injection H as <-. eapply dawn_rows_made; [exact Hall |].
    rewrite dawn_unique_dedup in Hin.
    eapply sublist_In; [apply dedup_sublist | exact Hin].
  - intros e H.
    destruct (dawn_rows uj base (sel html)) as [all | e'] eqn:Hall; cbn [bind] in H;
      [discriminate |].
    injection H as <-. eapply dawn_rows_raises. exact Hall.
Qed.

Lemma dawn_rows_from_news_anchors_witness :
  (exists a,
      In a (three_anchors "")
      /\ row_of join_plain "https://www.dawn.com" a
           (MkArticle "Rain in Karachi" "https://www.dawn.com/news/2"))
  /\ (exists a,
         In a (bad_anchor "")
         /\ Str.contains "/news/"
              (Str.strip match a_href a with Some h => h | None => "" end) = true
         /\ join_strict "https://www.dawn.com"
              (Str.strip match a_href a with Some h => h | None => "" end)
            = Raise ValueError).
Proof.
  split.
  - apply (proj1 (dawn_rows_from_news_anchors three_anchors join_plain ""
                    "https://www.dawn.com")
             [MkArticle "Budget passed" "https://www.dawn.com/news/1";
              MkArticle "Rain in Karachi" "https://www.dawn.com/news/2"]);
      [vm_compute; reflexivity | right; left; reflexivity].
  - apply (proj2 (dawn_rows_from_news_anchors bad_anchor join_strict ""
                    "https://www.dawn.com") ValueError).
    vm_compute. reflexivity.
Defined.

Lemma card_href_absolute :
  forall c, card_href c = "" \/ Str.startswith "http" (card_href c) = true.
Proof.
  intros c. unfold card_href.
  destruct (c_href c) as [h |]; [| left; reflexivity].
  destruct (String.eqb_spec h "") as [-> | Hne]; [left; reflexivity |].
  destruct (Str.startswith "http" h) eqn:Hh; cbn [negb andb]; right;
    [exact Hh | reflexivity].
Qed.

(** X11: every record [parse_results_page_html] returns is made of a card
    of the page that has a title or a link; it has a title or a link itself;
    its link is empty or starts with "http", a relative link having been
    put after "https://www.daraz.pk"; and its seller is [None], the result
    page never giving one. *)
Theorem result_items_from_cards :
  forall sel html it,
    In it (parse_results_page_html sel html) ->
    (exists c, In c (sel html) /\ it = card_item c)
    /\ (Title it <> "" \/ ProductURL it <> "")
    /\ (ProductURL it = "" \/ Str.startswith "http" (ProductURL it) = true)
    /\ Seller it = None.
Proof.
  intros sel html it Hin. unfold parse_results_page_html in Hin.
  rewrite results_loop_dedup in Hin. apply in_map_iff in Hin.
  destruct Hin as (c & <- & Hc).
  apply (sublist_In _ _ _ _ (dedup_sublist _ _ _ _)) in Hc.
  apply filter_In in Hc. destruct Hc as [Hc Hmakes].
  split; [exists c; auto |]. split; [| split; [apply card_href_absolute | reflexivity]].
  unfold makes_item in Hmakes. cbn [card_item Title ProductURL].
  destruct (String.eqb_spec (c_title c) "") as [Ht | Ht]; [| left; exact Ht].
  destruct (String.eqb_spec (card_href c) "") as [Hh | Hh]; [discriminate | right; exact Hh].
Qed.

Lemma result_items_from_cards_witness :
  (exists c, In c (three_cards "")
             /\ MkItem "Phone" None None None None "https://www.daraz.pk/products/a"
                = card_item c)
  /\ ("Phone" <> "" \/ "https://www.daraz.pk/products/a" <> "")
  /\ ("https://www.daraz.pk/products/a" = ""
      \/ Str.startswith "http" "https://www.daraz.pk/products/a" = true)
  /\ @None string = None.
Proof.
  apply (result_items_from_cards three_cards ""
           (MkItem "Phone" None None None None "https://www.daraz.pk/products/a")).
  vm_compute. left. reflexivity.
Defined.

(** ** What [_to_float] and [_to_percent] read of a text *)

Lemma filter_lstrip :
  forall p s,
    (forall c, Str.is_space c = true -> p c = false) ->
    Str.filter p (Str.lstrip s) = Str.filter p s.
Proof.
  intros p s Hp. induction s as [|c s IH]; [reflexivity |].
  cbn [Str.lstrip]. destruct (Str.is_space c) eqn:Hc; [| reflexivity].
  cbn [Str.filter]. rewrite (Hp c Hc). exact IH.
Qed.

Lemma filter_rstrip :
  forall p s,
    (forall c, Str.is_space c = true -> p c = false) ->
    Str.filter p (Str.rstrip s) = Str.filter p s.
Proof.
  intros p s Hp. induction s as [|c s IH]; [reflexivity |].
  cbn [Str.rstrip]. destruct (Str.rstrip s) as [|c' t].
  - cbn [Str.filter] in IH |- *. rewrite <- IH.
    destruct (Str.is_space c) eqn:Hc; [rewrite (Hp c Hc); reflexivity | reflexivity].
  - change (Str.filter p (String c (String c' t)))
      with (if p c then String c (Str.filter p (String c' t))
            else Str.filter p (String c' t)).
    rewrite IH. reflexivity.
Qed.

Lemma filter_strip :
  forall p s,
    (forall c, Str.is_space c = true -> p c = false) ->
    Str.filter p (Str.strip s) = Str.filter p s.
Proof.
  intros p s Hp. unfold Str.strip. rewrite filter_rstrip, filter_lstrip by exact Hp.
  reflexivity.
Qed.

Lemma filter_filter :
  forall p q s,
    (forall c, p c = true -> q c = true) ->
    Str.filter p (Str.filter q s) = Str.filter p s.
Proof.
  intros p q s Hpq. induction s as [|c s IH]; [reflexivity |].
  cbn [Str.filter]. destruct (q c) eqn:Hq.
  - cbn [Str.filter]. rewrite IH. reflexivity.
  - destruct (p c) eqn:Hp; [rewrite (Hpq c Hp) in Hq; discriminate | exact IH].
Qed.

Lemma space_not_num_char : forall c, Str.is_space c = true -> num_char c = false.
Proof.
  intros c. destruct c as [[] [] [] [] [] [] [] []]; vm_compute; intro H;
    first [reflexivity | discriminate].
Qed.

Lemma num_char_not_comma :
  forall c, num_char c = true -> negb (Ascii.eqb "," c) = true.
Proof. intros c Hc. apply num_char_plain. exact Hc. Qed.

Lemma num_char_not_space :
  forall c, num_char c = true -> negb (Str.is_space c) = true.
Proof. intros c Hc. apply num_char_plain. exact Hc. Qed.

(** The characters [_to_float] keeps of a text. *)
Lemma to_float_cleaned :
  forall s,
    Re.sub _num_cleaner "" (Str.replace "," "" (Str.strip s)) = Str.filter num_char s.
Proof.
  intros s. rewrite num_cleaner_filter, (replace_char_filter ","%char).
  rewrite filter_filter by exact num_char_not_comma.
  apply filter_strip. exact space_not_num_char.
Qed.

(** X12: [_to_float] reads of a text the characters 0-9, +, -, the point,
    e and E only: it returns the float that [float] reads in what is left
    of the text once every other character is removed, and [pd.NA] when
    [float] refuses it; the tests for empty and dash texts change nothing to
    that.  So the text and the text cleaned are read alike, and a word
    before the number counts by its points, signs and letters e. *)
Theorem to_float_reads_numeral_characters :
  forall float_repr s,
    _to_float float_repr (VStr s)
    = Return (match Py.float (Str.filter num_char s) with
              | Return f => VFloat f
              | Raise _ => NA
              end)
    /\ _to_float float_repr (VStr s)
       = _to_float float_repr (VStr (Str.filter num_char s)).
Proof.
  intros float_repr s.
  set (u := Str.filter num_char s).
  assert (Hu : Str.forallb num_char u = true) by apply forallb_filter.
  assert (Hclean : forall t, Str.filter num_char t = u ->
                             Re.sub _num_cleaner "" (Str.replace "," "" (Str.strip t)) = u).
  { intros t Ht. rewrite to_float_cleaned. exact Ht. }
  assert (Hguard : Str.among u [""; "+"; "-"] = true -> exists e, Py.float u = Raise e).
  { intro Hin. unfold Str.among in Hin. cbn [existsb] in Hin.
    destruct (String.eqb_spec u "") as [-> | _]; [eexists; vm_compute; reflexivity |].
    destruct (String.eqb_spec u "+") as [-> | _]; [eexists; vm_compute; reflexivity |].
    destruct (String.eqb_spec u "-") as [-> | _]; [eexists; vm_compute; reflexivity |].
    discriminate. }
  assert (Hsmall : forall t,
             Str.filter num_char t = u ->
             Str.among (Str.strip t) [""; "-"; "--"] = true ->
             exists e, Py.float u = Raise e).
  { intros t Ht Hin.
    assert (Hu' : u = Str.filter num_char (Str.strip t)).
    { rewrite (filter_strip num_char t space_not_num_char). symmetry. exact Ht. }
    rewrite Hu'. unfold Str.among in Hin. cbn [existsb] in Hin.
    destruct (String.eqb_spec (Str.strip t) "") as [-> | _];
      [eexists; vm_compute; reflexivity |].
    destruct (String.eqb_spec (Str.strip t) "-") as [-> | _];
      [eexists; vm_compute; reflexivity |].
    destruct (String.eqb_spec (Str.strip t) "--") as [-> | _];
      [eexists; vm_compute; reflexivity |].
    discriminate. }
  assert (Hread : forall t,
             Str.filter num_char t = u ->
             _to_float float_repr (VStr t)
             = Return (match Py.float u with
                       | Return f => VFloat f
                       | Raise _ => NA
                       end)).
  { intros t Ht. unfold _to_float. cbn [isna str]. rewrite (Hclean t Ht).
    destruct (Str.among (Str.strip t) [""; "-"; "--"]) eqn:Hin.
    { destruct (Hsmall t Ht Hin) as [e ->]. reflexivity. }
    destruct (Str.among u [""; "+"; "-"]) eqn:Hin'.
    { destruct (Hguard eq_refl) as [e ->]. reflexivity. }
    destruct (Py.float u); reflexivity. }
  split; [apply Hread; reflexivity |].
  rewrite (Hread s eq_refl). symmetry. apply Hread.
  apply filter_forallb. exact Hu.
Qed.

Lemma search_percent_absent :
  forall s, Str.forallb (fun c => negb (Ascii.eqb "%" c)) s = true ->
            Re.search percent_re s = None.
Proof.
  assert (Hhere : forall s, Str.forallb (fun c => negb (Ascii.eqb "%" c)) s = true ->
                            Re.match_here percent_re s = None).
  { intros s Hs. destruct (Re.match_here percent_re s) as [m|] eqn:Hm; [| reflexivity].
    exfalso. unfold Re.match_here, percent_re in Hm.
    rewrite run_cat in Hm.
    apply run_consumed in Hm. destruct Hm as (s1 & g1 & Hm & [(w1 & -> & _) _]).
    rewrite run_cat in Hm.
    apply run_consumed in Hm. destruct Hm as (s2 & g2 & Hm & [(w2 & -> & _) _]).
    destruct s2 as [|c s2]; [discriminate |].
    unfold Re.Chr in Hm. rewrite run_cls_cons in Hm.
    destruct (Ascii.eqb "%" c) eqn:Hc; [| discriminate].
    rewrite !forallb_app in Hs. cbn [Str.forallb] in Hs. rewrite Hc in Hs.
    cbn [negb andb] in Hs. rewrite !andb_false_r in Hs. discriminate. }
  induction s as [|c s IH]; intro Hs; cbn [Re.search]; rewrite (Hhere _ Hs);
    [reflexivity |].
  cbn [Str.forallb] in Hs. apply andb_true_iff in Hs as [_ Hs]. rewrite (IH Hs). reflexivity.
Qed.

(** X13: on a text without a percent sign [_to_percent] is [_to_float]: the
    pattern asks for the sign, and a cell of the "Change %" column that
    lacks it is read as a plain number. *)
Theorem to_percent_without_sign :
  forall float_repr s,
    Str.forallb (fun c => negb (Ascii.eqb "%" c)) s = true ->
    _to_percent float_repr (VStr s) = _to_float float_repr (VStr s).
Proof.
  intros float_repr s Hs. unfold _to_percent. cbn [isna str].
  rewrite (search_percent_absent s Hs). reflexivity.
Qed.

Lemma to_percent_without_sign_witness :
  _to_percent repr_sample (VStr "-3.2") = _to_float repr_sample (VStr "-3.2").
Proof.
  apply (to_percent_without_sign repr_sample "-3.2"). reflexivity.
Defined.

(** ** [collect_indices_from_dps]: the frame is always made *)

Lemma map_rows_returns :
  forall f rows,
    (forall r, exists r', f r = Return r') ->
    exists rows', map_rows f rows = Return rows' /\ List.length rows' = List.length rows.
Proof.
  intros f rows Hf. induction rows as [|r rows IH]; cbn [map_rows].
  - exists []. split; reflexivity.
  - destruct (Hf r) as [r' Hr]. destruct IH as (rows' & Hrows & Hlen).
    rewrite Hr, Hrows. cbn [bind]. exists (r' :: rows'). split; [reflexivity |].
    simpl. rewrite Hlen. reflexivity.
Qed.

Lemma assign_returns :
  forall name f df,
    (forall r, exists v, f r = Return v) ->
    exists df', assign name f df = Return df' /\ len df' = len df.
Proof.
  intros name f df Hf. unfold assign.
  destruct (col_index name (columns df)) as [i |].
  - destruct (map_rows_returns (fun r => bind (f r) (fun v => Return (set_nth i v r)))
                (data df)) as (rows & Hrows & Hlen).
    { intro r. destruct (Hf r) as [v Hv]. rewrite Hv. eexists. reflexivity. }
    rewrite Hrows. cbn [bind]. eexists. split; [reflexivity | exact Hlen].
  - destruct (map_rows_returns (fun r => bind (f r) (fun v => Return (r ++ [v])%list))
                (data df)) as (rows & Hrows & Hlen).
    { intro r. destruct (Hf r) as [v Hv]. rewrite Hv. eexists. reflexivity. }
    rewrite Hrows. cbn [bind]. eexists. split; [reflexivity | exact Hlen].
Qed.

Lemma assign_const_returns :
  forall name v df, exists df', assign_const name v df = Return df' /\ len df' = len df.
Proof.
  intros name v df. apply assign_returns. intro r. exists v. reflexivity.
Qed.

Lemma ensure_columns_returns :
  forall cols df, exists df', ensure_columns cols df = Return df' /\ len df' = len df.
Proof.
  induction cols as [|col cols IH]; intro df; cbn [ensure_columns].
  - exists df. split; reflexivity.
  - destruct (existsb (String.eqb col) (columns df)); [apply IH |].
    destruct (assign_const_returns col NA df) as (df1 & H1 & Hlen1).
    rewrite H1. cbn [bind]. destruct (IH df1) as (df2 & H2 & Hlen2).
    exists df2. split; [exact H2 | congruence].
Qed.

Lemma map_columns_returns :
  forall f cols df,
    (forall x, exists v, f x = Return v) ->
    exists df', map_columns cols f df = Return df' /\ len df' = len df.
Proof.
  intros f cols. induction cols as [|col cols IH]; intros df Hf; cbn [map_columns].
  - exists df. split; reflexivity.
  - destruct (assign_returns col (fun r => f (row_get (columns df) r col NA)) df)
      as (df1 & H1 & Hlen1).
    { intro r. apply Hf. }
    unfold map_column. rewrite H1. cbn [bind].
    destruct (IH df1 Hf) as (df2 & H2 & Hlen2).
    exists df2. split; [exact H2 | congruence].
Qed.

Lemma to_float_returns :
  forall float_repr x, exists v, _to_float float_repr x = Return v.
Proof.
  intros float_repr x. unfold _to_float.
  destruct (isna x); [eexists; reflexivity |].
  destruct (Str.among _ [""; "-"; "--"]); [eexists; reflexivity |].
  destruct (Str.among _ [""; "+"; "-"]); [eexists; reflexivity |].
  destruct (Py.float _); cbn [bind try_except]; eexists; reflexivity.
Qed.

Lemma to_percent_returns :
  forall float_repr x, exists v, _to_percent float_repr x = Return v.
Proof.
  intros float_repr x. unfold _to_percent.
  destruct (isna x); [eexists; reflexivity |].
  destruct (Re.search percent_re _); [| apply to_float_returns].
  destruct (Py.float _); cbn [bind try_except]; eexists; reflexivity.
Qed.

Lemma derive_ldcp_returns :
  forall cols r, exists v, derive_ldcp cols r = Return v.
Proof.
  intros cols r. unfold derive_ldcp.
  destruct (notna _ && notna _); [| eexists; reflexivity].
  destruct (float_of (row_get cols r "Current" NA)); cbn [bind try_except];
    [| eexists; reflexivity].
  destruct (float_of (row_get cols r "Change" NA)); cbn [bind try_except];
    eexists; reflexivity.
Qed.

Lemma bind_returns :
  forall (m : outcome DataFrame) (k : DataFrame -> outcome DataFrame) n,
    (exists df, m = Return df /\ len df = n) ->
    (forall df, len df = n -> exists df1, k df = Return df1 /\ len df1 = n) ->
    exists df1, bind m k = Return df1 /\ len df1 = n.
Proof.
  intros m k n (df & -> & Hlen) Hk. cbn [bind]. apply Hk. exact Hlen.
Qed.

Lemma len_select : forall names df, len (select names df) = len df.
Proof. intros names df. unfold len, select. cbn [data]. apply List.length_map. Qed.

Lemma reconcile_returns :
  forall float_repr now asof raw,
    exists df1, reconcile float_repr now asof raw = Return df1 /\ len df1 = len raw.
Proof.
  intros float_repr now asof raw. unfold reconcile.
  apply bind_returns.
  { destruct (ensure_columns_returns target (rename_columns rename_label raw))
      as (df & H & Hlen). exists df. split; [exact H | exact Hlen]. }
  intros dfA HA. apply bind_returns.
  { destruct (map_columns_returns (_to_float float_repr) ["High"; "Low"; "Current"; "Change"]
                dfA (to_float_returns float_repr)) as (df & H & Hlen).
    exists df. split; [exact H | congruence]. }
  intros dfB HB. apply bind_returns.
  { destruct (assign_returns "Change %"
                (fun r => _to_percent float_repr (row_get (columns dfB) r "Change %" NA)) dfB)
      as (df & H & Hlen); [intro r; apply to_percent_returns |].
    exists df. split; [exact H | congruence]. }
  intros dfC HC. apply bind_returns.
  { destruct (assign_returns "LDCP" (derive_ldcp (columns dfC)) dfC) as (df & H & Hlen);
      [intro r; apply derive_ldcp_returns |].
    exists df. split; [exact H | congruence]. }
  intros dfD HD. apply bind_returns.
  { destruct (assign_const_returns "Open" NA dfD) as (df & H & Hlen).
    exists df. split; [exact H | congruence]. }
  intros dfE HE. apply bind_returns.
  { destruct (assign_const_returns "Volume" NA dfE) as (df & H & Hlen).
    exists df. split; [exact H | congruence]. }
  intros dfF HF. apply bind_returns.
  { destruct (assign_const_returns "scraped_at" (VStr now) dfF) as (df & H & Hlen).
    exists df. split; [exact H | congruence]. }
  intros dfG HG. apply bind_returns.
  { destruct (assign_const_returns "source" (VStr "dps.psx.com.pk/indices") dfG)
      as (df & H & Hlen).
    exists df. split; [exact H | congruence]. }
  intros dfH HH. apply bind_returns.
  { destruct asof as [d |]; [destruct (String.eqb d "") |].
    - exists dfH. split; [reflexivity | exact HH].
    - destruct (assign_const_returns "source_as_of" (VStr d) dfH) as (df & H & Hlen).
      exists df. split; [exact H | congruence].
    - exists dfH. split; [reflexivity | exact HH]. }
  intros dfI HI. eexists. split; [reflexivity |]. rewrite len_select. exact HI.
Qed.

(** X14: on a picked table whose rows have one cell per column and whose
    renamed labels are distinct, the reconciliation of
    [collect_indices_from_dps] never raises: it returns a frame of as many
    rows as the table, with the canonical columns in their order; in every
    row "Open" and "Volume" are [pd.NA], the four prices and the change in
    percent are values of [_to_float] and [_to_percent], "LDCP" is derived
    from "Current" and "Change", and the two stamps are set. *)
Theorem reconcile_total_canonical :
  forall float_repr now asof raw,
    aligned raw ->
    NoDup (List.map rename_label (columns raw)) ->
    data raw <> [] ->
    exists df1,
      reconcile float_repr now asof raw = Return df1
      /\ len df1 = len raw
      /\ reconciled float_repr now asof df1.
Proof.
  intros float_repr now asof raw Hal _ _.
  destruct (reconcile_returns float_repr now asof raw) as (df1 & H & Hlen).
  exists df1. split; [exact H |]. split; [exact Hlen |].
  eapply reconcile_reconciled; eassumption.
Qed.

Lemma reconcile_total_canonical_witness :
  exists df1,
    reconcile repr_sample "2025-01-01T00:00:00+05:00" (Some "Jan 1, 2025 3:30 PM")
      table_finite = Return df1
    /\ len df1 = len table_finite
    /\ reconciled repr_sample "2025-01-01T00:00:00+05:00" (Some "Jan 1, 2025 3:30 PM") df1.
Proof.
  apply (reconcile_total_canonical repr_sample "2025-01-01T00:00:00+05:00"
           (Some "Jan 1, 2025 3:30 PM") table_finite).
  - repeat constructor.
  - vm_compute. repeat constructor; simpl; intuition discriminate.
  - discriminate.
Defined.

(** ** [collect_mainboard_from_market_summary]: the two frames it returns *)

Lemma image_on_upd :
  forall f names g g' name v,
    ~ In name names ->
    image_on f names g ->
    (forall n, g' n = upd g name v n) ->
    image_on f names g'.
Proof.
  intros f names g g' name v Hout Hg Hg' n Hn. rewrite Hg'. unfold upd.
  destruct (String.eqb_spec n name) as [-> | _]; [contradiction | apply Hg; exact Hn].
Qed.

Lemma map_columns_image :
  forall f cols done df df',
    aligned df ->
    Forall (fun r => image_on f done (view (columns df) r)) (data df) ->
    map_columns cols f df = Return df' ->
    aligned df'
    /\ Forall (fun r => image_on f (cols ++ done) (view (columns df') r)) (data df').
Proof.
  intros f cols. induction cols as [|col cols IH]; intros done df df' Hal Hdone H;
    cbn [map_columns] in H.
  - injection H as <-. split; [exact Hal | exact Hdone].
  - destruct (map_column col f df) as [df1 | e] eqn:H1; cbn [bind] in H; [| discriminate].
    unfold map_column in H1.
    destruct (assign_rows _ _ _ _ (image_on f done) (image_on f (col :: done)) Hal H1 Hdone)
      as [Hal1 Hrows1].
    { intros r v g' Hq Hv Hg n Hn. rewrite Hg. unfold upd.
      destruct (String.eqb_spec n col) as [-> | Hne]; [eexists; exact Hv |].
      destruct Hn as [Heq | Hn]; [symmetry in Heq; contradiction | apply Hq; exact Hn]. }
    destruct (IH (col :: done) df1 df' Hal1 Hrows1 H) as [Hal' Hrows'].
    split; [exact Hal' |]. eapply Forall_impl; [| exact Hrows'].
    intros r Hr n Hn. apply Hr. apply in_or_app.
    destruct Hn as [<- | Hn]; [right; left; reflexivity |].
    apply in_app_or in Hn. destruct Hn as [Hn | Hn]; [left | right; right]; exact Hn.
Qed.

Lemma get_html_returns_page :
  forall net url retries backoff w r w',
    get_html net url retries backoff w = (r, w') ->
    (forall e, r = Raise e -> exists last_err, e = RuntimeError (FailedToFetch url last_err))
    /\ (forall html, r = Return html -> exists k, net k url = Response 200 html).
Proof.
  intros net url retries backoff w r w' H. unfold get_html in H.
  destruct (get_html_loop_outcome _ _ _ _ _ _ _ _ _ H)
    as [(i & text & -> & Hi & Hok & _ & Hs) | (-> & _ & Hs)].
  - split; [intros e He; discriminate |].
    intros html Hr. injection Hr as <-. eexists. exact Hok.
  - split; [| intros html Hr; discriminate].
    intros e He. injection He as <-. eexists. reflexivity.
Qed.

(** The frame made of the concatenated table [big]. *)
Lemma mainboard_rows :
  forall float_repr (rename : string -> string) now big,
    aligned big ->
    exists df,
      bind (ensure_columns board_columns (rename_columns rename big)) (fun big =>
      bind (map_columns ["LDCP"; "Open"; "High"; "Low"; "Current"; "Change"; "Volume"]
              (_to_float float_repr) big) (fun big =>
      bind (assign_const "scraped_at" (VStr now) big) (fun big =>
      bind (assign_const "source" (VStr "psx.com.pk/market-summary") big) (fun big =>
      Return (select board_stamped big))))) = Return df
      /\ columns df = board_stamped
      /\ len df = len big
      /\ Forall (board_row float_repr now) (data df).
Proof.
  intros float_repr rename now big Hal.
  assert (Hal0 : aligned (rename_columns rename big)).
  { unfold aligned in *. simpl. rewrite length_map. exact Hal. }
  destruct (ensure_columns_returns board_columns (rename_columns rename big))
    as (dfA & HA & HlenA).
  pose proof (ensure_columns_aligned _ _ _ Hal0 HA) as HalA.
  destruct (map_columns_returns (_to_float float_repr)
              ["LDCP"; "Open"; "High"; "Low"; "Current"; "Change"; "Volume"] dfA
              (to_float_returns float_repr)) as (dfB & HB & HlenB).
  destruct (map_columns_image _ _ [] _ _ HalA ltac:(apply Forall_forall; intros r _ n [])
              HB) as [HalB HrowsB].
  destruct (assign_const_returns "scraped_at" (VStr now) dfB) as (dfC & HC & HlenC).
  destruct (assign_const_returns "source" (VStr "psx.com.pk/market-summary") dfC)
    as (dfD & HD & HlenD).
  rewrite HA. cbn [bind]. rewrite HB. cbn [bind]. rewrite HC. cbn [bind].
  rewrite HD. cbn [bind].
  eexists. split; [reflexivity |]. split; [reflexivity |].
  split; [rewrite len_select; unfold rename_columns, len in *; cbn [data] in *; congruence |].
  unfold assign_const in HC, HD.
  set (numeric := (["LDCP"; "Open"; "High"; "Low"; "Current"; "Change"; "Volume"] ++ [])%list)
    in *.
  destruct (assign_rows _ _ _ _ (image_on (_to_float float_repr) numeric)
              (fun g => image_on (_to_float float_repr) numeric g
                        /\ g "scraped_at" = VStr now) HalB HC HrowsB) as [HalC HrowsC].
  { intros r v g' Hq Hv Hg. injection Hv as <-. split.
    - eapply image_on_upd; [| exact Hq | exact Hg].
      subst numeric. simpl. intuition discriminate.
    - rewrite Hg. reflexivity. }
  destruct (assign_rows _ _ _ _
              (fun g => image_on (_to_float float_repr) numeric g
                        /\ g "scraped_at" = VStr now)
              (fun g => image_on (_to_float float_repr) numeric g
                        /\ g "scraped_at" = VStr now
                        /\ g "source" = VStr "psx.com.pk/market-summary")
              HalC HD HrowsC) as [HalD HrowsD].
  { intros r v g' [Hq Hs] Hv Hg. injection Hv as <-. split; [| split].
    - eapply image_on_upd; [| exact Hq | exact Hg].
      subst numeric. simpl. intuition discriminate.
    - rewrite Hg. unfold upd. simpl. exact Hs.
    - rewrite Hg. reflexivity. }
  unfold select. cbn [data]. apply Forall_map.
  eapply Forall_impl; [| exact HrowsD].
  intros r (Hq & Hs & Hsrc).
  exists (view (columns dfD) r "Index Name"), (view (columns dfD) r "LDCP"),
    (view (columns dfD) r "Open"), (view (columns dfD) r "High"),
    (view (columns dfD) r "Low"), (view (columns dfD) r "Current"),
    (view (columns dfD) r "Change"), (view (columns dfD) r "Volume").
  split.
  - unfold board_stamped. cbn [List.map]. unfold view in Hs, Hsrc |- *.
    rewrite Hs, Hsrc. reflexivity.
  - subst numeric.
    repeat (constructor; [apply Hq; simpl; tauto |]). constructor.
Qed.

(** X15: what [collect_mainboard_from_market_summary] gives, the tables
    pandas reads being well formed.  It returns either the empty frame of
    the eight main-board columns, without the two stamps, when the page has
    no table ([ValueError]) or none is picked; or a frame of the ten
    columns, stamps included, with one row for each row of the picked tables
    put together, whose seven numeric cells are values of [_to_float].  It
    raises only the [RuntimeError] of [get_html], or what [pd.read_html]
    raises other than [ValueError]. *)
Theorem mainboard_empty_or_stamped :
  forall read_html float_repr upper concat net now w r w',
    well_formed_boards read_html upper concat ->
    collect_mainboard_from_market_summary read_html float_repr upper concat net now w
    = (r, w') ->
    match r with
    | Return df =>
        (df = empty_board
         /\ exists html,
              read_html html = Raise ValueError
              \/ exists tables, read_html html = Return tables
                                /\ List.filter (board_table upper) tables = [])
        \/ (columns df = board_stamped
            /\ Forall (board_row float_repr now) (data df)
            /\ exists html tables,
                 read_html html = Return tables
                 /\ List.filter (board_table upper) tables <> []
                 /\ len df = len (concat (List.filter (board_table upper) tables)))
    | Raise e =>
        (exists last_err, e = RuntimeError (FailedToFetch PSX_MARKET_SUMMARY_URL last_err))
        \/ (e <> ValueError /\ exists html, read_html html = Raise e)
    end.
Proof.
  intros read_html float_repr upper concat net now w r w' Hwf H.
  unfold collect_mainboard_from_market_summary in H.
  destruct (get_html net PSX_MARKET_SUMMARY_URL 3 (16 # 10) w) as [page w1] eqn:Hget.
  injection H as <- <-.
  destruct (get_html_returns_page _ _ _ _ _ _ _ Hget) as [Hraise _].
  destruct page as [html | e]; cbn [bind].
  2:{ left. apply Hraise. reflexivity. }
  destruct (read_html html) as [tables | e] eqn:Hread.
  - destruct (Hwf html tables Hread) as [Hal _].
    unfold mainboard.
    destruct (List.filter (board_table upper) tables) as [|t picked] eqn:Hpicked.
    + left. split; [reflexivity |]. exists html. right. exists tables. auto.
    + destruct (mainboard_rows float_repr (board_label upper) now
                  (concat (t :: picked)) Hal) as (df & Hdf & Hcols & Hlen & Hrows).
      unfold board_stamped in Hdf at 1. rewrite Hdf. right.
      split; [exact Hcols |]. split; [exact Hrows |].
      exists html, tables. rewrite Hpicked.
      split; [exact Hread |]. split; [discriminate | exact Hlen].
  - destruct e; try (right; split; [discriminate | exists html; exact Hread]).
    left. split; [reflexivity |]. exists html. left. exact Hread.
Qed.

Lemma mainboard_empty_or_stamped_witness :
  fst (collect_mainboard_from_market_summary read_nothing repr_sample upper_az
         concat_single net_page "2025-01-01T00:00:00+05:00" io0)
  = Return empty_board
  /\ fst (collect_mainboard_from_market_summary read_board repr_sample upper_az
            concat_single net_page "2025-01-01T00:00:00+05:00" io0)
     = Return board_sample_frame
  /\ ((board_sample_frame = empty_board
       /\ exists html,
            read_board html = Raise ValueError
            \/ exists tables, read_board html = Return tables
                              /\ List.filter (board_table upper_az) tables = [])
      \/ (columns board_sample_frame = board_stamped
          /\ Forall (board_row repr_sample "2025-01-01T00:00:00+05:00")
               (data board_sample_frame)
          /\ exists html tables,
               read_board html = Return tables
               /\ List.filter (board_table upper_az) tables <> []
               /\ len board_sample_frame
                  = len (concat_single (List.filter (board_table upper_az) tables)))).
Proof.
  split; [vm_compute; reflexivity |].
  split; [vm_compute; reflexivity |].
  apply (mainboard_empty_or_stamped read_board repr_sample upper_az concat_single
           net_page "2025-01-01T00:00:00+05:00" io0 (Return board_sample_frame)
           (MkIO 1 [EvGet PSX_MARKET_SUMMARY_URL])).
  - intros html tables Hr. injection Hr as <-. split.
    + repeat constructor.
    + vm_compute. repeat constructor; simpl; intuition discriminate.
  - vm_compute. reflexivity.
Defined.

(** ** [collect_indices_from_dps], from the request to the frame *)

Lemma pick_best_picks :
  forall tables raw,
    pick_best tables = Return raw -> In raw tables /\ (0 < len raw)%nat.
Proof.
  intros tables raw H. unfold pick_best in H.
  destruct (pick_loop_start tables)
    as [[Hnone _] | (pre & d & post & Ht & Hsome & Hrows & _ & _)].
  - rewrite Hnone in H. discriminate.
  - rewrite Hsome in H. destruct (empty d); [discriminate |].
    injection H as <-. split.
    + rewrite Ht. apply in_or_app. right. left. reflexivity.
    + unfold has_rows in Hrows. apply Nat.ltb_lt in Hrows. exact Hrows.
Qed.

Lemma pick_best_raises :
  forall tables e, pick_best tables = Raise e -> e = RuntimeError NoIndicesTable.
Proof.
  intros tables e H. unfold pick_best in H.
  destruct (fst (pick_loop tables None (-1))) as [d |]; [| injection H as <-; reflexivity].
  destruct (empty d); [injection H as <-; reflexivity | discriminate].
Qed.

(** X16: [collect_indices_from_dps] sends at most three requests.  When it
    returns, the frame is the reconciliation of one of the tables of a page
    that answered 200, a table with at least one row, and has as many rows
    as that table: it is never empty.  When it raises, it is the
    [RuntimeError] of [get_html], the [RuntimeError] of the table selector,
    or what [pd.read_html] raised: the reconciliation itself never fails. *)
Theorem indices_frame_or_named_failure :
  forall read_html float_repr page_asof net now w r w',
    well_formed_tables read_html ->
    collect_indices_from_dps read_html float_repr page_asof net now w = (r, w') ->
    (sent w' <= sent w + 3)%nat
    /\ match r with
       | Return df =>
           exists html tables raw,
             (exists k, net k PSX_INDICES_URL = Response 200 html)
             /\ read_html html = Return tables
             /\ In raw tables
             /\ (0 < len raw)%nat
             /\ len df = len raw
             /\ reconciled float_repr now (page_asof html) df
       | Raise e =>
           (exists last_err, e = RuntimeError (FailedToFetch PSX_INDICES_URL last_err))
           \/ e = RuntimeError NoIndicesTable
           \/ exists html, read_html html = Raise e
       end.
Proof.
  intros read_html float_repr page_asof net now w r w' Hwf H.
  unfold collect_indices_from_dps in H.
  destruct (get_html net PSX_INDICES_URL 3 (16 # 10) w) as [page w1] eqn:Hget.
  injection H as <- <-.
  destruct (get_html_sent _ _ _ _ _ _ _ Hget) as [Hsent _].
  destruct (get_html_returns_page _ _ _ _ _ _ _ Hget) as [Hraise Hpage].
  split; [exact Hsent |].
  destruct page as [html | e]; cbn [bind]; [| left; apply Hraise; reflexivity].
  unfold _pick_indices_table.
  destruct (read_html html) as [tables | e] eqn:Hread; cbn [bind];
    [| right; right; exists html; exact Hread].
  destruct (pick_best tables) as [raw | e] eqn:Hpick; cbn [bind];
    [| right; left; eapply pick_best_raises; exact Hpick].
  destruct (pick_best_picks _ _ Hpick) as [Hin Hrows].
  pose proof (Hwf html tables Hread) as Hall. rewrite Forall_forall in Hall.
  destruct (Hall raw Hin) as [Hal _].
  destruct (reconcile_returns float_repr now (page_asof html) raw) as (df & Hdf & Hlen).
  rewrite Hdf. exists html, tables, raw.
  split; [apply Hpage; reflexivity |].
  split; [exact Hread |]. split; [exact Hin |]. split; [exact Hrows |].
  split; [exact Hlen |]. eapply reconcile_reconciled; eassumption.
Qed.

Lemma indices_frame_or_named_failure_witness :
  fst (collect_indices_from_dps read_indices repr_sample no_date net_page
         "2025-01-01T00:00:00+05:00" io0) = Return frame_finite
  /\ (1 <= sent io0 + 3)%nat
  /\ exists html tables raw,
       (exists k, net_page k PSX_INDICES_URL = Response 200 html)
       /\ read_indices html = Return tables
       /\ In raw tables
       /\ (0 < len raw)%nat
       /\ len frame_finite = len raw
       /\ reconciled repr_sample "2025-01-01T00:00:00+05:00" (no_date html) frame_finite.
Proof.
  split; [vm_compute; reflexivity |].
  apply (indices_frame_or_named_failure read_indices repr_sample no_date net_page
           "2025-01-01T00:00:00+05:00" io0 (Return frame_finite)
           (MkIO 1 [EvGet PSX_INDICES_URL])).
  - intros html tables Hr. injection Hr as <-.
    repeat constructor; vm_compute; repeat constructor; simpl; intuition discriminate.
  - vm_compute. reflexivity.
Defined.

(** ** [_to_percent] on a cell that shows a percentage *)

Lemma run_opt :
  forall (A : Type) r fuel s g (k : Re.cont A),
    Re.run (Re.Opt r) fuel s g k
    = match Re.run r fuel s g k with
      | Some a => Some a
      | None => k s g
      end.
Proof. reflexivity. Qed.

Lemma space_not_digit : forall c, Str.is_space c = true -> Str.is_digit c = false.
Proof.
  intros c. destruct c as [[] [] [] [] [] [] [] []]; vm_compute; intro H;
    first [reflexivity | discriminate].
Qed.

Lemma space_not_point : forall c, Str.is_space c = true -> Ascii.eqb "." c = false.
Proof.
  intros c. destruct c as [[] [] [] [] [] [] [] []]; vm_compute; intro H;
    first [reflexivity | discriminate].
Qed.

Lemma digit_not_minus : forall c, Str.is_digit c = true -> Ascii.eqb "-" c = false.
Proof.
  intros c. destruct c as [[] [] [] [] [] [] [] []]; vm_compute; intro H;
    first [reflexivity | discriminate].
Qed.

Lemma float_of_signed_numeral :
  forall neg d ip' fp,
    Str.is_digit d = true ->
    Str.forallb Str.is_digit ip' = true ->
    Str.forallb Str.is_digit fp = true ->
    Py.float (signed neg (numeral (String d ip') fp))
    = Return (Py.dec_to_float neg (Py.digits_val (String d ip' ++ fp))
                (- Z.of_nat (length fp))).
Proof.
  intros neg d ip' fp Hd Hip' Hfp.
  destruct neg; [| apply float_of_numeral; assumption].
  assert (Hip : Str.forallb Str.is_digit (String d ip') = true)
    by (simpl; rewrite Hd, Hip'; reflexivity).
  assert (Hchars : Str.forallb (fun c => Str.is_digit c || Ascii.eqb "." c)
                     (numeral (String d ip') fp) = true).
  { set (q := fun c => Str.is_digit c || Ascii.eqb "." c).
    assert (Hq : forall s, Str.forallb Str.is_digit s = true -> Str.forallb q s = true).
    { apply forallb_impl. intros c Hc. unfold q. rewrite Hc. reflexivity. }
    unfold numeral. rewrite forallb_app. apply andb_true_iff. split.
    - apply Hq. exact Hip.
    - destruct fp as [|f fp']; [reflexivity |].
      change (q "."%char && Str.forallb q (String f fp') = true).
      rewrite (Hq _ Hfp). reflexivity. }
  unfold Py.float, signed.
  rewrite strip_id.
  2:{ cbn [Str.forallb]. apply andb_true_iff. split; [reflexivity |].
      eapply forallb_impl; [| exact Hchars]. intros c Hc.
      apply (digit_or_point_plain c Hc). }
  rewrite drop_underscores_id.
  2:{ cbn [Str.forallb]. apply andb_true_iff. split; [reflexivity |].
      eapply forallb_impl; [| exact Hchars]. intros c Hc.
      apply (digit_or_point_plain c Hc). }
  2:{ discriminate. }
  cbn [Py.split_sign].
  unfold numeral. cbn [append].
  destruct (digit_not_word d (ip' ++ match fp with "" => "" | String _ _ => String "." fp end) Hd)
    as [-> ->].
  unfold Py.parse_decimal.
  change (String d (ip' ++ match fp with "" => "" | String _ _ => String "." fp end))
    with (String d ip' ++ match fp with "" => "" | String _ _ => String "." fp end)%string.
  rewrite (span_digits_exact (String d ip')) by (try exact Hip; destruct fp; reflexivity).
  destruct fp as [|f fp'].
  - rewrite !app_empty_r. reflexivity.
  - pose proof (span_digits_exact (String f fp') "" Hfp eq_refl) as Hs.
    rewrite app_empty_r in Hs. rewrite Hs.
    cbn [append Py.parse_exponent]. rewrite Z.sub_0_l. reflexivity.
Qed.

Section PercentCell.

Variables (neg : bool) (d : ascii) (ip' fp sp post : string).
Hypothesis Hd : Str.is_digit d = true.
Hypothesis Hip' : Str.forallb Str.is_digit ip' = true.
Hypothesis Hfp : Str.forallb Str.is_digit fp = true.
Hypothesis Hsp : Str.forallb Str.is_space sp = true.

Lemma percent_rest_stops :
  stops Str.is_digit (sp ++ String "%" post) = true
  /\ (forall c t, (sp ++ String "%" post)%string = String c t -> Ascii.eqb "." c = false).
Proof.
  destruct sp as [|c sp']; cbn [append].
  - split; [reflexivity |]. intros c t Heq. injection Heq as <- _. reflexivity.
  - cbn [Str.forallb] in Hsp. apply andb_true_iff in Hsp as [Hc _]. split.
    + cbn [stops]. rewrite (space_not_digit c Hc). reflexivity.
    + intros c0 t Heq. injection Heq as <- _. apply space_not_point. exact Hc.
Qed.

Lemma run_percent_cell :
  forall (A : Type) fuel (k : Re.cont A) a,
    (length (signed neg (numeral (String d ip') fp) ++ sp ++ String "%" post) <= fuel)%nat ->
    k post (Some (signed neg (numeral (String d ip') fp))) = Some a ->
    Re.run percent_re fuel
      (signed neg (numeral (String d ip') fp) ++ sp ++ String "%" post) None k
    = Some a.
Proof.
  intros A fuel k a Hfuel Hk.
  set (num := numeral (String d ip') fp) in *.
  set (rest := (sp ++ String "%" post)%string) in *.
  destruct percent_rest_stops as [Hstop Hpoint]. fold rest in Hstop, Hpoint.
  assert (Hnum : (num ++ rest
                  = String d (ip' ++ match fp with
                                     | "" => ""
                                     | String _ _ => String "." fp
                                     end ++ rest))%string).
  { unfold num, numeral. cbn [append]. rewrite app_assoc_s. reflexivity. }
  assert (Hlen : (length (num ++ rest) <= fuel)%nat).
  { unfold signed in Hfuel. destruct neg; cbn [append length] in Hfuel; lia. }
  unfold percent_re. rewrite run_cat, run_grp, run_cat.
  set (S := (signed neg num ++ rest)%string) in *.
  set (kG := fun (s1 : string) (_ : option string) =>
               Re.run (Re.Cat (Re.Star Re.space) (Re.Chr "%")) fuel s1
                 (Some (substring 0 (length S - length s1) S)) k).
  assert (HkG : forall g, kG rest g = Some a).
  { intro g. unfold kG. rewrite run_cat. unfold Re.space at 1. rewrite run_star.
    apply star_cls_greedy; [rewrite length_app in Hlen; lia |].
    destruct (span_exact Str.is_space sp (String "%" post) Hsp eq_refl) as [_ Hdrop].
    fold rest in Hdrop. rewrite Hdrop.
    unfold Re.Chr. rewrite run_cls_cons. cbn [Ascii.eqb Bool.eqb]. cbv iota.
    unfold S. rewrite substring_consumed. exact Hk. }
  assert (Hcore :
            forall g,
              Re.run (Re.Cat (Re.Plus Re.digit)
                        (Re.Opt (Re.Cat (Re.Chr ".") (Re.Plus Re.digit))))
                fuel (num ++ rest) g kG = Some a).
  { intro g. rewrite run_cat. rewrite Hnum in Hlen |- *. clear Hnum.
    cbn [length] in Hlen.
    destruct fp as [|f fp'] eqn:Efp.
    - cbn [append] in Hlen |- *.
      apply plus_digit_greedy; try assumption; [lia |].
      rewrite run_opt.
      assert (Hnone : Re.run (Re.Cat (Re.Chr ".") (Re.Plus Re.digit)) fuel rest g kG = None).
      { destruct rest as [|c t] eqn:Erest.
        - destruct sp; discriminate Erest.
        - rewrite point_then_digits, (Hpoint c t eq_refl). reflexivity. }
      rewrite Hnone. apply HkG.
    - cbn [Str.forallb] in Hfp. apply andb_true_iff in Hfp as [Hf Hfp'].
      cbn [append] in Hlen |- *.
      apply plus_digit_greedy; try assumption; [reflexivity | lia |].
      rewrite run_opt, point_then_digits. cbn [Ascii.eqb Bool.eqb]. cbv iota.
      assert (Hfrac : Re.run (Re.Plus Re.digit) fuel (String f (fp' ++ rest)) g kG = Some a).
      { apply plus_digit_greedy; try assumption; [| apply HkG].
        rewrite length_app in Hlen. cbn [length] in Hlen. lia. }
      rewrite Hfrac. reflexivity. }
  rewrite run_opt. unfold Re.Chr at 1.
  subst S. unfold signed in *. destruct neg.
  - cbn [append]. rewrite run_cls_cons. cbn [Ascii.eqb Bool.eqb]. cbv iota.
    rewrite Hcore. reflexivity.
  - pose proof (Hcore None) as Hc. rewrite Hnum in Hc |- *.
    rewrite run_cls_cons, (digit_not_minus d Hd). exact Hc.
Qed.

Lemma match_here_percent_cell :
  Re.match_here percent_re
    (signed neg (numeral (String d ip') fp) ++ sp ++ String "%" post)
  = Some (Re.MkMatch ""
            (signed neg (numeral (String d ip') fp) ++ sp ++ "%")
            (Some (signed neg (numeral (String d ip') fp))) post).
Proof.
  unfold Re.match_here. apply run_percent_cell; [apply Nat.le_refl |].
  f_equal. f_equal.
  replace (signed neg (numeral (String d ip') fp) ++ sp ++ String "%" post)%string
    with ((signed neg (numeral (String d ip') fp) ++ sp ++ "%") ++ post)%string.
  - apply substring_consumed.
  - rewrite !app_assoc_s. reflexivity.
Qed.

End PercentCell.

Lemma match_here_percent_none :
  forall c t,
    Str.is_digit c || Ascii.eqb c "-" = false ->
    Re.match_here percent_re (String c t) = None.
Proof.
  intros c t Hc. apply orb_false_iff in Hc. destruct Hc as [Hdigit Hminus].
  unfold Re.match_here, percent_re.
  rewrite run_cat, run_grp, run_cat, run_opt. unfold Re.Chr at 1.
  rewrite run_cls_cons.
  replace (Ascii.eqb "-" c) with false
    by (symmetry; rewrite Ascii.eqb_sym; exact Hminus).
  rewrite run_cat, plus_digit_fails by exact Hdigit. reflexivity.
Qed.

Lemma search_percent_first :
  forall pre s m,
    Str.forallb (fun c => negb (Str.is_digit c || Ascii.eqb c "-")) pre = true ->
    Re.match_here percent_re s = Some m ->
    Re.search percent_re (pre ++ s)
    = Some (Re.MkMatch (pre ++ Re.m_before m) (Re.m_text m) (Re.m_group1 m) (Re.m_after m)).
Proof.
  induction pre as [|c pre IH]; intros s m Hpre Hm.
  - cbn [append]. destruct s; cbn [Re.search]; rewrite Hm; destruct m; reflexivity.
  - cbn [Str.forallb] in Hpre. apply andb_true_iff in Hpre as [Hc Hpre].
    apply negb_true_iff in Hc.
    cbn [append Re.search]. rewrite (match_here_percent_none c _ Hc).
    rewrite (IH s m Hpre Hm). reflexivity.
Qed.

(** X17: on a cell that shows a percentage, that is a decimal numeral,
    with a minus sign or none, then blanks or none, then a percent sign,
    after a text without digit nor minus sign and before any text,
    [_to_percent] returns the float nearest to the number written, with its
    sign. *)
Theorem to_percent_of_percent_cell :
  forall float_repr pre neg d ip' fp sp post,
    Str.forallb (fun c => negb (Str.is_digit c || Ascii.eqb c "-")) pre = true ->
    Str.is_digit d = true ->
    Str.forallb Str.is_digit ip' = true ->
    Str.forallb Str.is_digit fp = true ->
    Str.forallb Str.is_space sp = true ->
    _to_percent float_repr
      (VStr (pre ++ signed neg (numeral (String d ip') fp) ++ sp ++ String "%" post))
    = Return (VFloat (Py.dec_to_float neg (Py.digits_val (String d ip' ++ fp))
                        (- Z.of_nat (length fp)))).
Proof.
  intros float_repr pre neg d ip' fp sp post Hpre Hd Hip' Hfp Hsp.
  unfold _to_percent. cbn [isna str].
  rewrite (search_percent_first pre _ _ Hpre
             (match_here_percent_cell neg d ip' fp sp post Hd Hip' Hfp Hsp)).
  unfold group1. cbn [Re.m_group1].
  rewrite (float_of_signed_numeral neg d ip' fp Hd Hip' Hfp). reflexivity.
Qed.

Lemma to_percent_of_percent_cell_witness :
  _to_percent repr_sample (VStr "(-1.25 %)") = Return (VFloat f_neg_1_25).
Proof.
  apply (to_percent_of_percent_cell repr_sample "(" true "1"%char "" "25" " " ")");
    reflexivity.
Defined.

(** ** When [get_html] pauses *)

Lemma pauses_app :
  forall tr1 tr2, pauses (tr1 ++ tr2) = (pauses tr1 ++ pauses tr2)%list.
Proof.
  induction tr1 as [|ev tr1 IH]; intro tr2; [reflexivity |].
  destruct ev; cbn [app pauses]; rewrite IH; reflexivity.
Qed.

Lemma get_html_loop_pauses :
  forall net url backoff todo attempt last_err w i,
    (i <= todo)%nat ->
    (forall j, (j < i)%nat -> ok200 (net (sent w + j)%nat url) = false) ->
    ((i < todo)%nat -> ok200 (net (sent w + i)%nat url) = true) ->
    pauses (trace (snd (get_html_loop net url backoff todo attempt last_err w)))
    = (pauses (trace w) ++ pauses_after net url (sent w) attempt i)%list.
Proof.
  intros net url backoff todo.
  induction todo as [|todo IH]; intros attempt last_err w i Hi Hfail Hok.
  - replace i with O by lia. cbn [get_html_loop snd pauses_after].
    rewrite List.app_nil_r. reflexivity.
  - cbn [get_html_loop requests_get].
    destruct i as [|i].
    + specialize (Hok ltac:(lia)). rewrite Nat.add_0_r in Hok.
      destruct (net (sent w) url) as [c text | e]; [| discriminate].
      cbn [ok200] in Hok. rewrite Hok. cbn [snd trace pauses_after].
      rewrite pauses_app, !List.app_nil_r. reflexivity.
    + pose proof (Hfail O ltac:(lia)) as H0. rewrite Nat.add_0_r in H0.
      assert (Hnext : forall a l w1 here,
                 sent w1 = S (sent w) ->
                 pauses (trace w1) = (pauses (trace w) ++ here)%list ->
                 pauses (trace (snd (get_html_loop net url backoff todo a l w1)))
                 = (pauses (trace w)
                    ++ here ++ pauses_after net url (S (sent w)) a i)%list).
      { intros a l w1 here Hs Htr.
        rewrite (IH a l w1 i); [rewrite Htr, Hs, <- List.app_assoc; reflexivity | lia | |].
        - intros j Hj. rewrite Hs.
          replace (S (sent w) + j)%nat with (sent w + S j)%nat by lia.
          apply Hfail. lia.
        - intro Hlt. rewrite Hs.
          replace (S (sent w) + i)%nat with (sent w + S i)%nat by lia.
          apply Hok. lia. }
      cbn [pauses_after]. unfold pause_after.
      destruct (net (sent w) url) as [c text | e].
      * cbn [ok200] in H0. rewrite H0.
        destruct (existsb (Z.eqb c) transient).
        -- apply Hnext; [reflexivity |].
           unfold emit. cbn [trace]. rewrite !pauses_app. cbn [pauses].
           rewrite List.app_nil_r. reflexivity.
        -- unfold raise_for_status.
           destruct ((400 <=? c) && (c <? 600)).
           ++ apply Hnext; [reflexivity |].
              unfold emit. cbn [trace]. rewrite !pauses_app. cbn [pauses].
              rewrite List.app_nil_r. reflexivity.
           ++ apply Hnext; [reflexivity |].
              cbn [trace]. rewrite pauses_app. reflexivity.
      * apply Hnext; [reflexivity |].
        unfold emit. cbn [trace]. rewrite !pauses_app. cbn [pauses].
        rewrite List.app_nil_r. reflexivity.
Qed.



(** ** [open_genre_list]: the pages asked for *)

Lemma robust_get_loop_gets :
  forall page_load url tries todo attempt b r b',
    attempt + Z.of_nat todo = tries + 1 ->
    robust_get_loop page_load url tries todo attempt b = (r, b') ->
    (gets b <= gets b' <= gets b + todo)%nat
    /\ (forall e, r = Fails e ->
                  (gets b < gets b')%nat /\ page_load (gets b' - 1)%nat url = Some e)
    /\ (r = Done tt -> (0 < todo)%nat ->
        (gets b < gets b')%nat /\ page_load (gets b' - 1)%nat url = None).
Proof.
  intros page_load url tries todo.
  induction todo as [|todo IH]; intros attempt b r b' Hsum H; cbn [robust_get_loop] in H.
  - injection H as <- <-. split; [lia |]. split; [intros e He; discriminate |].
    intros _ Hpos. lia.
  - cbn [driver_get] in H.
    destruct (page_load (gets b) url) as [e |] eqn:Hload.
    + destruct e as [| msg].
      * destruct (Z.eqb_spec attempt tries) as [Heq | Hne].
        -- injection H as <- <-. cbn [note gets].
           split; [lia |]. split; [| intro Hr; discriminate].
           intros e He. injection He as <-. split; [lia |].
           replace (S (gets b) - 1)%nat with (gets b) by lia. exact Hload.
        -- apply IH in H; [| lia]. cbn [note gets] in H.
           destruct H as (Hb & Hf & Hd). split; [lia |]. split.
           ++ intros e He. destruct (Hf e He) as [Hlt Hp]. split; [lia | exact Hp].
           ++ intros Hr _. destruct (Hd Hr ltac:(lia)) as [Hlt Hp].
              split; [lia | exact Hp].
      * injection H as <- <-. cbn [gets].
        split; [lia |]. split; [| intro Hr; discriminate].
        intros e He. injection He as <-. split; [lia |].
        replace (S (gets b) - 1)%nat with (gets b) by lia. exact Hload.
    + injection H as <- <-. cbn [gets].
      split; [lia |]. split; [intros e He; discriminate |].
      intros _ _. split; [lia |].
      replace (S (gets b) - 1)%nat with (gets b) by lia. exact Hload.
Qed.

Lemma robust_get_gets :
  forall page_load url b r b',
    robust_get page_load url 3 b = (r, b') ->
    (gets b <= gets b' <= gets b + 3)%nat
    /\ (forall e, r = Fails e ->
                  (gets b < gets b')%nat /\ page_load (gets b' - 1)%nat url = Some e)
    /\ (r = Done tt ->
        (gets b < gets b')%nat /\ page_load (gets b' - 1)%nat url = None).
Proof.
  intros page_load url b r b' H. unfold robust_get in H.
  apply robust_get_loop_gets in H; [| reflexivity]. change (Z.to_nat 3) with 3%nat in H.
  destruct H as (Hb & Hf & Hd). split; [exact Hb |]. split; [exact Hf |].
  intro Hr. apply Hd; [exact Hr | lia].
Qed.

Lemma last_cons_default :
  forall (A : Type) (l : list A) x d, last (x :: l) d = last l x.
Proof.
  intros A. induction l as [|y l IH]; intros x d; [reflexivity |].
  change (last (x :: y :: l) d) with (last (y :: l) d). rewrite !IH. reflexivity.
Qed.

Lemma try_candidate_gets :
  forall page_load list_shown url b r b',
    try_candidate page_load list_shown url b = (r, b') ->
    (gets b <= gets b' <= gets b + 3)%nat
    /\ (forall e, r = Fails e ->
                  page_load (gets b' - 1)%nat url = Some e \/ list_shown (gets b') = Some e)
    /\ (r = Done tt ->
        (gets b < gets b')%nat
        /\ page_load (gets b' - 1)%nat url = None /\ list_shown (gets b') = None).
Proof.
  intros page_load list_shown url b r b' H. unfold try_candidate in H.
  destruct (robust_get page_load url 3 b) as [r1 b1] eqn:Hget.
  destruct (robust_get_gets _ _ _ _ _ Hget) as (Hb & Hf & Hd).
  destruct r1 as [[] | e].
  - destruct (Hd eq_refl) as [Hlt Hp].
    destruct (list_shown (gets b1)) as [e |] eqn:Hshown; injection H as <- <-.
    + split; [exact Hb |]. split; [| intro Hr; discriminate].
      intros e' He. injection He as <-. right. exact Hshown.
    + split; [exact Hb |]. split; [intros e He; discriminate |].
      intros _. auto.
  - injection H as <- <-. split; [exact Hb |]. split; [| intro Hr; discriminate].
    intros e' He. injection He as <-. left. apply (Hf e eq_refl).
Qed.

Lemma candidates_loop_gets :
  forall page_load list_shown others url b r b',
    candidates_loop page_load list_shown url others b = (r, b') ->
    (gets b <= gets b' <= gets b + 3 * S (List.length others))%nat
    /\ (forall e, r = Fails e ->
                  page_load (gets b' - 1)%nat (last others url) = Some e
                  \/ list_shown (gets b') = Some e)
    /\ (r = Done tt ->
        exists u, In u (url :: others)
                  /\ (gets b < gets b')%nat
                  /\ page_load (gets b' - 1)%nat u = None /\ list_shown (gets b') = None).
Proof.
  intros page_load list_shown others.
  induction others as [|next rest IH]; intros url b r b' H; cbn [candidates_loop] in H.
  - destruct (try_candidate page_load list_shown url b) as [r1 b1] eqn:Htry.
    destruct (try_candidate_gets _ _ _ _ _ _ Htry) as (Hb & Hf & Hd).
    destruct r1 as [[] | e]; injection H as <- <-.
    + split; [simpl; lia |]. split; [intros e He; discriminate |].
      intros _. exists url. split; [left; reflexivity | apply Hd; reflexivity].
    + split; [simpl; lia |]. split; [| intro Hr; discriminate].
      intros e' He. apply Hf. exact He.
  - destruct (try_candidate page_load list_shown url b) as [r1 b1] eqn:Htry.
    destruct (try_candidate_gets _ _ _ _ _ _ Htry) as (Hb & Hf & Hd).
    destruct r1 as [[] | e].
    + injection H as <- <-.
      split; [simpl; lia |]. split; [intros e He; discriminate |].
      intros _. exists url. split; [left; reflexivity | apply Hd; reflexivity].
    + apply IH in H. destruct H as (Hb2 & Hf2 & Hd2).
      split; [cbn [List.length] in *; lia |]. split.
      * intros e' He. destruct (Hf2 e' He) as [Hp | Hs]; [left | right; exact Hs].
        rewrite last_cons_default. exact Hp.
      * intro Hr. destruct (Hd2 Hr) as (u & Hu & Hlt & Hp & Hs).
        exists u. split; [right; exact Hu |]. split; [lia | auto].
Qed.

(** X19: [open_genre_list] asks for nine pages at most.  When it returns,
    the last page asked for is one of the two list pages of the genre, it
    loaded and the list was found on it.  When it raises, either the home
    page did not load, whatever the list pages would have done, and the
    error is that of its last load; or both list pages failed, and the
    error is that of the second one, that of the first being lost. *)
Theorem open_genre_list_bounded :
  forall page_load list_shown genre b r b',
    open_genre_list page_load list_shown genre b = (r, b') ->
    (gets b <= gets b' <= gets b + 9)%nat
    /\ match r with
       | Done _ =>
           exists u,
             In u [list_page genre; shelf_page genre]
             /\ page_load (gets b' - 1)%nat u = None
             /\ list_shown (gets b') = None
       | Fails e =>
           ((gets b' <= gets b + 3)%nat
            /\ page_load (gets b' - 1)%nat GOODREADS_HOME = Some e)
           \/ page_load (gets b' - 1)%nat (shelf_page genre) = Some e
           \/ list_shown (gets b') = Some e
       end.
Proof.
  intros page_load list_shown genre b r b' H. unfold open_genre_list in H.
  destruct (robust_get page_load GOODREADS_HOME 3 b) as [r0 b0] eqn:Hhome.
  destruct (robust_get_gets _ _ _ _ _ Hhome) as (Hb & Hf & _).
  destruct r0 as [[] | e].
  - apply candidates_loop_gets in H. destruct H as (Hb2 & Hf2 & Hd2).
    cbn [List.length] in Hb2. split; [lia |].
    destruct r as [[] | e].
    + destruct (Hd2 eq_refl) as (u & Hu & _ & Hp & Hs). exists u. auto.
    + right. apply (Hf2 e eq_refl).
  - injection H as <- <-. split; [lia |]. left.
    split; [lia | apply (Hf e eq_refl)].
Qed.

Lemma open_genre_list_bounded_witness :
  (gets browser0 <= 2 <= gets browser0 + 9)%nat
  /\ (exists u,
         In u [list_page "fantasy"; shelf_page "fantasy"]
         /\ load_fine (2 - 1)%nat u = None /\ list_there 2%nat = None).
Proof.
  apply (open_genre_list_bounded load_fine list_there "fantasy" browser0 (Done tt)
           (MkBrowser 2 [StGet GOODREADS_HOME; StGet (list_page "fantasy")])).
  vm_compute. reflexivity.
Defined.

(** ** [extract_book_details]: the record of a book *)

Lemma first_text_nonempty :
  forall find selectors current,
    current <> "" -> first_text find selectors current <> "".
Proof.
  intros find selectors current Hc.
  induction selectors as [|sel rest IH]; cbn [first_text]; [exact Hc |].
  destruct (find sel) as [el |]; [| exact IH].
  destruct (String.eqb_spec (safe_text el) "") as [_ | Hne]; cbn [negb];
    [exact IH | exact Hne].
Qed.

Lemma first_rating_unsigned :
  forall find selectors current,
    Py.is_nan current = true ->
    Py.is_nan (first_rating find selectors current) = true
    \/ (sign_of (first_rating find selectors current) = false
        /\ Py.is_nan (first_rating find selectors current) = false).
Proof.
  intros find selectors current Hc.
  induction selectors as [|sel rest IH]; cbn [first_rating]; [left; exact Hc |].
  destruct (find sel) as [el |]; [| exact IH].
  destruct (parse_float (safe_text el)) as [[val |] | e] eqn:Hp; try exact IH.
  right. eapply parse_float_unsigned. exact Hp.
Qed.

Lemma first_reviews_unsigned :
  forall find selectors cnt, first_reviews find selectors = Some cnt -> 0 <= cnt.
Proof.
  intros find selectors cnt.
  induction selectors as [|sel rest IH]; cbn [first_reviews]; [discriminate |].
  destruct (find sel) as [el |]; [| exact IH].
  destruct (el_tag el) as [tag |]; [| exact IH].
  destruct (String.eqb (Str.lower tag) "meta").
  - destruct (el_content el) as [content |]; [| exact IH].
    destruct (parse_int _) as [[z |] | e] eqn:Hp; try exact IH.
    intro H. injection H as <-. eapply parse_int_unsigned. exact Hp.
  - destruct (parse_int _) as [[z |] | e] eqn:Hp; try exact IH.
    intro H. injection H as <-. eapply parse_int_unsigned. exact Hp.
Qed.

(** X20: [extract_book_details] raises only what reading the address or
    the source of the page raises.  The record it returns has a title and
    an author that are not empty, a rating that is NaN or a number that is
    not negative, a number of reviews that is an integer, not negative, or
    the text "Not Available", which [norm_reviews] then leaves as it is, and
    the address of the page. *)
Theorem book_details_well_formed :
  forall p,
    (forall d,
        extract_book_details p = Done d ->
        well_formed_book d
        /\ norm_reviews (b_reviews d) = Return (b_reviews d)
        /\ bp_url p = Done (b_url d))
    /\ (forall e,
          extract_book_details p = Fails e ->
          bp_url p = Fails e \/ bp_source p = Fails e).
Proof.
  intros p. unfold extract_book_details.
  assert (Hdefault : forall url,
             well_formed_book (MkBook "Not Available" "Not Available" S754_nan
                                 (VStr "Not Available") "Not Available" url)
             /\ norm_reviews (VStr "Not Available") = Return (VStr "Not Available")).
  { intro url. split; [| vm_compute; reflexivity].
    unfold well_formed_book. cbn [b_title b_author b_rating b_reviews].
    split; [discriminate |]. split; [discriminate |].
    split; [left; reflexivity | left; reflexivity]. }
  destruct (bp_url p) as [url | e0]; [| split; [discriminate |]].
  2:{ intros e He. injection He as <-. left. reflexivity. }
  destruct (bp_source p) as [source | e0]; [| split; [discriminate |]].
  2:{ intros e He. injection He as <-. right. reflexivity. }
  split; [| intros e He; destruct (looks_like_captcha source);
             [discriminate | destruct (negb (bp_heading p)); discriminate]].
  intros d Hd.
  destruct (looks_like_captcha source).
  { injection Hd as <-. destruct (Hdefault url) as [Hw Hn]. auto. }
  destruct (negb (bp_heading p)).
  { injection Hd as <-. destruct (Hdefault url) as [Hw Hn]. auto. }
  pose proof (first_text_nonempty (bp_find p) title_selectors "Not Available"
                ltac:(discriminate)) as Ht.
  pose proof (first_text_nonempty (bp_find p) author_selectors "Not Available"
                ltac:(discriminate)) as Ha.
  pose proof (first_rating_unsigned (bp_find p) rating_selectors S754_nan eq_refl) as Hr.
  pose proof (first_reviews_unsigned (bp_find p) reviews_selectors) as Hc.
  assert (Hrev : forall found : option Z,
             (forall cnt, found = Some cnt -> 0 <= cnt) ->
             (match found with Some cnt => VInt cnt | None => VStr "Not Available" end
              = VStr "Not Available"
              \/ exists cnt,
                   match found with Some cnt => VInt cnt | None => VStr "Not Available" end
                   = VInt cnt /\ 0 <= cnt)
             /\ norm_reviews
                  match found with Some cnt => VInt cnt | None => VStr "Not Available" end
                = Return
                    match found with Some cnt => VInt cnt | None => VStr "Not Available" end).
  { intros [cnt |] Hpos.
    - split; [| reflexivity]. right. exists cnt. split; [reflexivity | apply Hpos; reflexivity].
    - split; [left; reflexivity | vm_compute; reflexivity]. }
  destruct (Hrev _ Hc) as [Hshape Hnorm].
  injection Hd as <-.
  split; [| split; [exact Hnorm | reflexivity]].
  split; [exact Ht |]. split; [exact Ha |]. split; [exact Hr | exact Hshape].
Qed.

Lemma book_details_well_formed_witness :
  extract_book_details page_of_book
  = Done (MkBook "Dune" "Not Available" f_4_5 (VInt 1204) "Not Available"
            "https://www.goodreads.com/book/show/1")
  /\ well_formed_book (MkBook "Dune" "Not Available" f_4_5 (VInt 1204) "Not Available"
                         "https://www.goodreads.com/book/show/1")
  /\ norm_reviews (VInt 1204) = Return (VInt 1204)
  /\ bp_url page_of_book = Done "https://www.goodreads.com/book/show/1".
Proof.
  split; [vm_compute; reflexivity |].
  apply (proj1 (book_details_well_formed page_of_book)
           (MkBook "Dune" "Not Available" f_4_5 (VInt 1204) "Not Available"
              "https://www.goodreads.com/book/show/1")).
  vm_compute. reflexivity.
Defined.
